(** * AI-Sandbox-Agent: the agent loop, its tool-safety layer and the
      LLM action protocol, embedded from the JavaScript sources.

    Strings are JavaScript strings restricted to code units below 256
    (one [ascii] per code unit).  Numbers that the code only uses as
    integers (exit codes, HTTP status codes, millisecond timestamps) are
    [Z]; counters are [nat].  Untyped data (what [JSON.parse] returns,
    tool arguments and tool data) is a [Js.value]; a string that may be
    [undefined] is an [option string].  [path.resolve] is Node's POSIX
    implementation, taken segment by segment.  Calls that leave the
    process (git, HTTP, the LLM endpoint, the tool functions) are
    answered by an explicit environment that is threaded through the
    code in the order of the calls; an exception that leaves a function
    is one of its results.  The tools that start processes or touch the
    file system also return what they started or called, so that what
    they never do can be stated; a directory tree is a value, and the
    functions of [path] that a tool only passes values through
    ([dirname], [relative], [join]) are parameters. *)

From Stdlib Require Import String Ascii List ZArith Lia Bool Arith.
From Stdlib Require Import Numbers.DecimalString.
Import ListNotations.

Local Open Scope list_scope.
Local Open Scope string_scope.

(* ================================================================== *)
(** ** JavaScript string primitives used by the sources               *)
(* ================================================================== *)

Module Js.

(** [s.startsWith(t)] *)
Definition startsWith (s t : string) : bool := String.prefix t s.

(** [s.endsWith(t)] *)
Fixpoint endsWith (s t : string) : bool :=
  (s =? t) ||
  match s with
  | EmptyString => false
  | String _ r => endsWith r t
  end.

(** [s.includes(t)] *)
Fixpoint includes (s t : string) : bool :=
  String.prefix t s ||
  match s with
  | EmptyString => false
  | String _ r => includes r t
  end.

(** [s.substring(0, n)] *)
Definition substring0 (n : nat) (s : string) : string := String.substring 0 n s.

(** The code unit 0, written ['\0'] in the sources. *)
Definition NUL : string := String Ascii.zero EmptyString.

(** [s.split(sep)] for a one-character separator: always at least one
    piece, empty pieces kept. *)
Fixpoint split (sep : ascii) (s : string) : list string :=
  match s with
  | EmptyString => [EmptyString]
  | String c r =>
      if Ascii.eqb c sep then EmptyString :: split sep r
      else match split sep r with
           | [] => [String c EmptyString]
           | h :: t => String c h :: t
           end
  end.

(** Truthiness of a string-or-undefined value: [undefined], [null] and
    the empty string are falsy. *)
Definition truthy (v : option string) : bool :=
  match v with
  | Some s => negb (s =? "")
  | None => false
  end.

(** [a || b] on string-or-undefined values. *)
Definition or_else (a b : option string) : option string :=
  if truthy a then a else b.

(** [c.toLowerCase()] on one code unit below 256: the letters A-Z and
    the Latin-1 capitals (192-222 without the multiplication sign 215)
    move up by 32. *)
Definition lower_unit (c : ascii) : ascii :=
  let n := Ascii.nat_of_ascii c in
  if (((65 <=? n) && (n <=? 90)) ||
      ((192 <=? n) && (n <=? 222) && negb (n =? 215)))%nat
  then Ascii.ascii_of_nat (n + 32) else c.

(** [s.toLowerCase()] *)
Fixpoint toLowerCase (s : string) : string :=
  match s with
  | EmptyString => EmptyString
  | String c r => String (lower_unit c) (toLowerCase r)
  end.

(** White space and line terminators below 256: TAB, LF, VT, FF, CR,
    SP and NBSP. *)
Definition is_space (c : ascii) : bool :=
  let n := Ascii.nat_of_ascii c in
  (((9 <=? n) && (n <=? 13)) || (n =? 32) || (n =? 160))%nat.

Fixpoint trimStart (s : string) : string :=
  match s with
  | EmptyString => EmptyString
  | String c r => if is_space c then trimStart r else s
  end.

Fixpoint trimEnd (s : string) : string :=
  match s with
  | EmptyString => EmptyString
  | String c r =>
      match trimEnd r with
      | EmptyString => if is_space c then EmptyString else String c EmptyString
      | r' => String c r'
      end
  end.

(** [s.trim()] *)
Definition trim (s : string) : string := trimEnd (trimStart s).

(** [arr.includes(x)] on an array of strings. *)
Definition array_includes (arr : list string) (x : string) : bool :=
  existsb (String.eqb x) arr.

(** An object literal whose values are booleans, as its own properties
    in source order. *)
Definition flag_object : Type := list (string * bool).

Fixpoint own_property (o : flag_object) (key : string) : option bool :=
  match o with
  | [] => None
  | (k, v) :: rest => if key =? k then Some v else own_property rest key
  end.

(** The property names every object literal inherits from
    [Object.prototype]; each of them reads as a function or an object,
    hence as a truthy value. *)
Definition object_prototype_names : list string :=
  [ "constructor"; "__defineGetter__"; "__defineSetter__"; "hasOwnProperty";
    "__lookupGetter__"; "__lookupSetter__"; "isPrototypeOf";
    "propertyIsEnumerable"; "toString"; "valueOf"; "__proto__";
    "toLocaleString" ].

(** Truthiness of [o[key]]: the own property when there is one, else
    the inherited one, else [undefined]. *)
Definition property_truthy (o : flag_object) (key : string) : bool :=
  match own_property o key with
  | Some v => v
  | None => array_includes object_prototype_names key
  end.

(** JavaScript values as the agent meets them: what [JSON.parse]
    returns, plus [undefined] for an absent property.  Numbers are the
    integers.  An object lists its own properties, each key once. *)
#[warnings="-register-all"]
Inductive value : Type :=
| VUndefined
| VNull
| VBool (b : bool)
| VNum (n : Z)
| VStr (s : string)
| VArr (items : list value)
| VObj (fields : list (string * value)).

Fixpoint lookup (fields : list (string * value)) (key : string) : value :=
  match fields with
  | [] => VUndefined
  | (k, v) :: rest => if key =? k then v else lookup rest key
  end.

(** [v.key] and [v?.key] on a value that is an object or [undefined]:
    the own property, else [undefined]. *)
Definition get (v : value) (key : string) : value :=
  match v with
  | VObj fields => lookup fields key
  | _ => VUndefined
  end.

(** ToBoolean *)
Definition truthy_value (v : value) : bool :=
  match v with
  | VUndefined | VNull => false
  | VBool b => b
  | VNum n => negb (n =? 0)%Z
  | VStr s => negb (s =? "")
  | VArr _ | VObj _ => true
  end.

(** [a || b] *)
Definition or_value (a b : value) : value :=
  if truthy_value a then a else b.

(** A parameter declared [x = null]: [undefined] becomes [null]. *)
Definition default_null (v : value) : value :=
  match v with VUndefined => VNull | _ => v end.

Definition is_undefined (v : value) : bool :=
  match v with VUndefined => true | _ => false end.

(** [String(n)] / template interpolation of an integer. *)
Definition string_of_Z (n : Z) : string :=
  NilZero.string_of_int (Z.to_int n).

(** The double quote, and the line feed of a template literal. *)
Definition DQUOTE : string := String (Ascii.ascii_of_nat 34) EmptyString.
Definition LF : string := String (Ascii.ascii_of_nat 10) EmptyString.

(** [s] between double quotes, as a JSON text writes a key or a plain
    string. *)
Definition quote (s : string) : string := DQUOTE ++ s ++ DQUOTE.

(** [String(v)], the conversion a template literal and [join] apply;
    inside [join], [null] and [undefined] give the empty string. *)
Fixpoint to_string (v : value) : string :=
  match v with
  | VUndefined => "undefined"
  | VNull => "null"
  | VBool true => "true"
  | VBool false => "false"
  | VNum n => string_of_Z n
  | VStr s => s
  | VArr items =>
      String.concat ","
        (map (fun x => match x with
                       | VUndefined | VNull => ""
                       | _ => to_string x
                       end) items)
  | VObj _ => "[object Object]"
  end.

(** [arr.join(sep)] *)
Definition join (sep : string) (items : list value) : string :=
  String.concat sep
    (map (fun x => match x with
                   | VUndefined | VNull => ""
                   | _ => to_string x
                   end) items).

(** [s.repeat(n)] *)
Fixpoint repeat (s : string) (n : nat) : string :=
  match n with
  | O => EmptyString
  | S n' => s ++ repeat s n'
  end.

(** [v == null]: the value is [null] or [undefined], that is, not set. *)
Definition nullish (v : value) : bool :=
  match v with VUndefined | VNull => true | _ => false end.

(** [Array.isArray(v)] *)
Definition is_array (v : value) : bool :=
  match v with VArr _ => true | _ => false end.

(** [v !== undefined], for a property read: the property is there. *)
Definition has (v : value) (key : string) : bool :=
  negb (is_undefined (get v key)).

(** [a === b] against a number literal. *)
Definition strict_eq_num (v : value) (n : Z) : bool :=
  match v with VNum m => (m =? n)%Z | _ => false end.

(** [a === b] against a string literal. *)
Definition strict_eq_str (v : value) (s : string) : bool :=
  match v with VStr x => (x =? s) | _ => false end.

(** [s.substring(n)]: what is left after the first [n] code units. *)
Fixpoint substring_from (n : nat) (s : string) : string :=
  match n, s with
  | O, _ => s
  | S n', String _ r => substring_from n' r
  | S _, EmptyString => EmptyString
  end.

(** The line feed as a code unit, and the space. *)
Definition LF_unit : ascii := Ascii.ascii_of_nat 10.
Definition SP_unit : ascii := Ascii.ascii_of_nat 32.

(** [out.trim().split("\n").filter(Boolean)]: the non-empty lines of a
    command's output. *)
Definition output_lines (out : string) : list string :=
  filter (fun line => negb (line =? "")) (split LF_unit (trim out)).

(** [arr.slice(0, n)] *)
Definition slice0 {A : Type} (n : nat) (arr : list A) : list A := firstn n arr.

(** The longest prefix whose code units all satisfy [p], and the rest:
    what a greedy character class [[...]*] consumes. *)
Fixpoint span (p : ascii -> bool) (s : string) : string * string :=
  match s with
  | EmptyString => (EmptyString, EmptyString)
  | String c r =>
      if p c then let '(a, b) := span p r in (String c a, b)
      else (EmptyString, s)
  end.

(** The classes [\w], [[a-f0-9]] on one code unit. *)
Definition is_word (c : ascii) : bool :=
  let n := Ascii.nat_of_ascii c in
  (((48 <=? n) && (n <=? 57)) || ((65 <=? n) && (n <=? 90))
   || ((97 <=? n) && (n <=? 122)) || (n =? 95))%nat.

Definition is_lower_hex (c : ascii) : bool :=
  let n := Ascii.nat_of_ascii c in
  (((48 <=? n) && (n <=? 57)) || ((97 <=? n) && (n <=? 102)))%nat.

End Js.

(* ================================================================== *)
(** ** Node's POSIX [path] module (the part the tools call)           *)
(* ================================================================== *)

Module Path.

Definition sep : string := "/".

Definition isAbsolute (p : string) : bool := Js.startsWith p "/".

(** One step of [normalizeString]: [stack] holds the segments kept so
    far, last one first.  Empty segments and ["."] are dropped, [".."]
    removes the last kept segment; above the start it is kept only when
    [allowAboveRoot]. *)
Definition normalize_step (allowAboveRoot : bool) (stack : list string)
    (seg : string) : list string :=
  if (seg =? "") || (seg =? ".") then stack
  else if seg =? ".." then
    match stack with
    | [] => if allowAboveRoot then [".."] else []
    | top :: rest =>
        if top =? ".." then (if allowAboveRoot then ".." :: stack else stack)
        else rest
    end
  else seg :: stack.

Definition normalize_segments (allowAboveRoot : bool) (segs : list string)
    : list string :=
  rev (fold_left (normalize_step allowAboveRoot) segs []).

(** [normalizeString(path, allowAboveRoot, "/", isPosixPathSeparator)] *)
Definition normalizeString (path : string) (allowAboveRoot : bool) : string :=
  String.concat "/" (normalize_segments allowAboveRoot (Js.split "/" path)).

(** The right-to-left loop of [path.resolve]: prepend each non-empty
    argument until an absolute one has been prepended. *)
Fixpoint resolve_args (rev_args : list string) (resolvedPath : string)
    (resolvedAbsolute : bool) : string * bool :=
  if resolvedAbsolute then (resolvedPath, resolvedAbsolute)
  else
    match rev_args with
    | [] => (resolvedPath, resolvedAbsolute)
    | p :: rest =>
        if p =? "" then resolve_args rest resolvedPath resolvedAbsolute
        else resolve_args rest (p ++ "/" ++ resolvedPath) (isAbsolute p)
    end.

(** [path.resolve(...args)], with [cwd] the value of [process.cwd()]. *)
Definition resolve (cwd : string) (args : list string) : string :=
  let '(resolvedPath, resolvedAbsolute) :=
    resolve_args (rev args ++ [cwd])%list "" false in
  let normalized := normalizeString resolvedPath (negb resolvedAbsolute) in
  if resolvedAbsolute then "/" ++ normalized
  else if normalized =? "" then "." else normalized.

(** A segment that [path.resolve] keeps as it is: it holds no
    separator and is none of the empty string, [.] and [..]. *)
Definition normal_segment (seg : string) : bool :=
  negb (seg =? "") && negb (seg =? ".") && negb (seg =? "..")
  && negb (Js.includes seg "/").

(** A segment as [path.resolve] keeps it: not empty, and not ending in
    the separator. *)
Definition clean (seg : string) : Prop :=
  seg <> "" /\ Js.endsWith seg "/" = false.

End Path.

(* ================================================================== *)
(** ** tools/filesystem.js                                            *)
(* ================================================================== *)

Module Filesystem.

Section WithCwd.

(** [process.cwd()], which [path.resolve] falls back on when none of its
    arguments is absolute. *)
Variable cwd : string.

(** [initialize(root)]: [PROJECT_ROOT = path.resolve(root)]. *)
Definition initialize (root : string) : string := Path.resolve cwd [root].

Inductive SafePathResult : Type :=
| Valid (path : string)
| Invalid (error : string).

Definition is_valid (r : SafePathResult) : bool :=
  match r with Valid _ => true | Invalid _ => false end.

(** The five regular expressions of [suspiciousPatterns], each as the
    test it performs on the input. *)
Definition suspiciousPatterns : list (string -> bool) :=
  [ (fun s => Js.includes s "../" || Js.includes s "..\");
    (fun s => Js.startsWith s "/" || Js.startsWith s "\");
    (fun s => Js.startsWith s "~");
    (fun s => Js.includes s "${");
    (fun s => Js.includes s "$(") ].

(** The [for (const pattern of suspiciousPatterns)] loop; [true] when
    some pass reaches its [return]. *)
Fixpoint suspicious_loop (PROJECT_ROOT inputPath : string)
    (patterns : list (string -> bool)) : bool :=
  match patterns with
  | [] => false
  | pattern :: rest =>
      if pattern inputPath && negb (Js.startsWith inputPath PROJECT_ROOT) then
        let testResolved := Path.resolve cwd [PROJECT_ROOT; inputPath] in
        if negb (Js.startsWith testResolved (PROJECT_ROOT ++ Path.sep))
           && negb (testResolved =? PROJECT_ROOT)
        then true
        else suspicious_loop PROJECT_ROOT inputPath rest
      else suspicious_loop PROJECT_ROOT inputPath rest
  end.

Definition safePath (PROJECT_ROOT inputPath : string) : SafePathResult :=
  if Js.includes inputPath Js.NUL then
    Invalid "Path contains null bytes (security violation)"
  else if suspicious_loop PROJECT_ROOT inputPath suspiciousPatterns then
    Invalid ("Suspicious path pattern detected: " ++ inputPath)
  else
    let resolved := Path.resolve cwd [PROJECT_ROOT; inputPath] in
    let normalizedRoot :=
      if Js.endsWith PROJECT_ROOT Path.sep then PROJECT_ROOT
      else PROJECT_ROOT ++ Path.sep in
    let normalizedResolved :=
      if Js.endsWith resolved Path.sep then resolved
      else resolved ++ Path.sep in
    if negb (resolved =? PROJECT_ROOT)
       && negb (Js.startsWith normalizedResolved normalizedRoot)
    then Invalid ("Path escapes project root: " ++ inputPath)
    else Valid resolved.

End WithCwd.

(** The default value of [PROJECT_ROOT]. *)
Definition default_root : string := "/vercel/sandbox".

(** What the specification asks of an accepted path: it is the root, or
    the root is a strict prefix of it that ends at a separator boundary
    (the root itself ends with the separator, or the next character of
    the path is the separator). *)
Definition nested_under (root p : string) : Prop :=
  exists rest, p = root ++ rest /\ rest <> "" /\
    (Js.endsWith root "/" = true \/ Js.startsWith rest "/" = true).

Definition confined (root p : string) : Prop :=
  p = root \/ nested_under root p.

(** A plain relative path: segments separated by single separators,
    none of them empty, [.] or [..], and no null byte. *)
Definition plain_relative (inputPath : string) : Prop :=
  Forall (fun seg => Path.normal_segment seg = true) (Js.split "/" inputPath)
  /\ Js.includes inputPath Js.NUL = false.

(** The four kinds of input the confinement property names. *)
Definition hostile (inputPath : string) : Prop :=
  Js.includes inputPath "../" = true \/
  Path.isAbsolute inputPath = true \/
  Js.includes inputPath Js.NUL = true \/
  Js.startsWith inputPath "~" = true.

End Filesystem.

(* ================================================================== *)
(** ** tools/command.js                                               *)
(* ================================================================== *)

Module Command.

Definition COMMAND_WHITELIST : Js.flag_object :=
  [ ("node", true); ("npm", true); ("npx", true);
    ("git", true);
    ("ls", true); ("cat", true); ("head", true); ("tail", true);
    ("wc", true); ("find", true); ("grep", true);
    ("echo", true); ("pwd", true); ("which", true); ("env", true) ].

Definition COMMAND_BLOCKLIST : list string :=
  [ "rm"; "rmdir"; "mv"; "cp"; "chmod"; "chown"; "sudo"; "su"; "curl";
    "wget"; "ssh"; "scp"; "eval"; "exec"; "kill"; "killall"; "shutdown";
    "reboot" ].

Inductive Verdict : Type :=
| Allowed
| Blocked (reason : string).

Definition allowed (v : Verdict) : bool :=
  match v with Allowed => true | Blocked _ => false end.

(** [command.toLowerCase().trim()] *)
Definition normalize (command : string) : string :=
  Js.trim (Js.toLowerCase command).

Definition isCommandAllowed (command : string) : Verdict :=
  let cmd := normalize command in
  if Js.array_includes COMMAND_BLOCKLIST cmd then
    Blocked ("Command '" ++ cmd ++ "' is blocked for security")
  else if negb (Js.property_truthy COMMAND_WHITELIST cmd) then
    Blocked ("Command '" ++ cmd ++ "' is not in whitelist")
  else Allowed.

(** The names written in the allow-list. *)
Definition allow_list : list string := map fst COMMAND_WHITELIST.

(** No code unit of [s] is one that [toLowerCase] changes. *)
Definition lower_case (s : string) : Prop :=
  forallb (fun c => Ascii.eqb (Js.lower_unit c) c) (list_ascii_of_string s) = true.

End Command.

(* ================================================================== *)
(** ** The result every tool returns                                  *)
(* ================================================================== *)

(** [{ success, data, error }]; an absent field is [VUndefined]. *)
Record ToolResult : Type := mkResult {
  success : bool;
  data : Js.value;
  error : Js.value
}.

(* ================================================================== *)
(** ** tools/git.js                                                   *)
(* ================================================================== *)

Module Git.

(** What [execGit] returns. *)
Record ExecResult : Type := mkExec {
  exitCode : Z;
  stdout : string;
  stderr : string
}.

Section WithGit.

(** The machine outside the process: [spawn w argv] is what
    [spawnSync("git", argv, ...)] does to it and what [execGit] makes of
    the outcome. *)
Variable World : Type.
Variable spawn : World -> list string -> World * ExecResult.

(** [process.env.GITHUB_TOKEN] *)
Variable GITHUB_TOKEN : option string.

(** The module variables, the outside world, and the argument lists of
    all git invocations so far, oldest first. *)
Record Env : Type := mkEnv {
  world : World;
  issued : list (list string);
  PROJECT_ROOT : string;
  BACKUP_STASH_REF : option string
}.

Definition execGit (args : list string) (e : Env) : ExecResult * Env :=
  let '(w, r) := spawn (world e) args in
  (r, mkEnv w (issued e ++ [args])%list (PROJECT_ROOT e) (BACKUP_STASH_REF e)).

Definition set_backup_ref (ref : option string) (e : Env) : Env :=
  mkEnv (world e) (issued e) (PROJECT_ROOT e) ref.

(** [url.replace("https://github.com/", "")] on a URL that starts with
    that text. *)
Definition strip_github (url : string) : string :=
  String.substring (String.length "https://github.com/")
    (String.length url - String.length "https://github.com/") url.

(** The branch [git_push] works on: [timestamp] is [Date.now()]. *)
Definition featureBranch (branch : string) (timestamp : Z) : string :=
  if branch =? "main" then "agent/changes-" ++ Js.string_of_Z timestamp
  else branch.

(** [git_push(branch = "main")] *)
Definition git_push (branch_arg : option string) (timestamp : Z) (e0 : Env)
    : ToolResult * Env :=
  let branch := match branch_arg with Some b => b | None => "main" end in
  let featureBranch := featureBranch branch timestamp in
  let githubToken := GITHUB_TOKEN in
  let '(checkoutResult, e1) := execGit ["checkout"; "-b"; featureBranch] e0 in
  let e2 :=
    if negb (exitCode checkoutResult =? 0)%Z
       && negb (Js.includes (stderr checkoutResult) "already exists")
    then snd (execGit ["checkout"; featureBranch] e1)
    else e1 in
  let e3 :=
    if Js.truthy githubToken then
      let '(remoteResult, e21) := execGit ["remote"; "get-url"; "origin"] e2 in
      if (exitCode remoteResult =? 0)%Z then
        let currentUrl := Js.trim (stdout remoteResult) in
        if Js.startsWith currentUrl "https://github.com/" then
          let repoPath := strip_github currentUrl in
          let authUrl :=
            "https://x-access-token:"
            ++ match githubToken with Some t => t | None => "" end
            ++ "@github.com/" ++ repoPath in
          snd (execGit ["remote"; "set-url"; "origin"; authUrl] e21)
        else e21
      else e21
    else e2 in
  let '(result, e4) := execGit ["push"; "-u"; "origin"; featureBranch] e3 in
  if negb (exitCode result =? 0)%Z then
    (mkResult false
       (Js.VObj [("exitCode", Js.VNum (exitCode result))])
       (Js.VStr ("git push failed: " ++ stderr result)),
     e4)
  else
    (mkResult true
       (Js.VObj
          [ ("branch", Js.VStr featureBranch);
            ("originalRequest", Js.VStr branch);
            ("pushed", Js.VBool true);
            ("stdout", Js.VStr (stdout result));
            ("note",
             Js.VStr
               (if branch =? "main"
                then "Pushed to feature branch instead of main for safety. Use git_create_pr to create a pull request."
                else "Pushed successfully")) ])
       Js.VUndefined,
     e4).

Definition git_stash_backup (e0 : Env) : ToolResult * Env :=
  let '(statusResult, e1) := execGit ["status"; "--porcelain"] e0 in
  let hasChanges := negb (Js.trim (stdout statusResult) =? "") in
  let continue (e : Env) : ToolResult * Env :=
    let '(headResult, e') := execGit ["rev-parse"; "HEAD"] e in
    let headSha := Js.trim (stdout headResult) in
    (mkResult true
       (Js.VObj
          [ ("backup_created", Js.VBool true);
            ("stashed_changes", Js.VBool hasChanges);
            ("head_sha", Js.VStr headSha);
            ("message",
             Js.VStr "Backup created. If build fails, call git_restore_backup to rollback.") ])
       Js.VUndefined,
     e') in
  if hasChanges then
    let '(stashResult, e2) :=
      execGit ["stash"; "push"; "-m"; "AGENT_BACKUP_PRE_MODIFICATION"] e1 in
    if negb (exitCode stashResult =? 0)%Z then
      (mkResult false Js.VUndefined
         (Js.VStr ("Stash failed: " ++ stderr stashResult)),
       e2)
    else continue (set_backup_ref (Some "stash@{0}") e2)
  else continue e1.

Definition git_restore_backup (e0 : Env) : ToolResult * Env :=
  let e1 := snd (execGit ["checkout"; "."] e0) in
  let e2 := snd (execGit ["clean"; "-fd"] e1) in
  let e3 := snd (execGit ["reset"; "HEAD"] e2) in
  let e4 :=
    if Js.truthy (BACKUP_STASH_REF e3) then
      let '(stashListResult, e31) := execGit ["stash"; "list"] e3 in
      let e32 :=
        if Js.includes (stdout stashListResult) "AGENT_BACKUP_PRE_MODIFICATION"
        then snd (execGit ["stash"; "pop"] e31)
        else e31 in
      set_backup_ref None e32
    else e3 in
  (mkResult true
     (Js.VObj
        [ ("restored", Js.VBool true);
          ("message",
           Js.VStr "All changes reverted. Repository is back to pre-modification state.") ])
     Js.VUndefined,
   e4).

Definition git_clear_backup (e0 : Env) : ToolResult * Env :=
  let e1 :=
    if Js.truthy (BACKUP_STASH_REF e0) then
      let '(stashListResult, e01) := execGit ["stash"; "list"] e0 in
      (* both branches of the test on the list only log *)
      set_backup_ref None e01
    else e0 in
  (mkResult true
     (Js.VObj
        [ ("cleared", Js.VBool true);
          ("message", Js.VStr "Backup cleared. Changes are now permanent.") ])
     Js.VUndefined,
   e1).

(** Whether an argument list is a [git push] invocation. *)
Definition is_push (argv : list string) : bool :=
  match argv with
  | sub :: _ => sub =? "push"
  | [] => false
  end.

(** Whether an argument list starts a git subcommand that rewrites the
    working tree or the stash. *)
Definition mutating (argv : list string) : bool :=
  match argv with
  | sub :: rest =>
      (sub =? "checkout") || (sub =? "reset") || (sub =? "clean") ||
      ((sub =? "stash") &&
       match rest with
       | op :: _ => negb (op =? "list")
       | [] => true
       end)
  | [] => false
  end.

End WithGit.

Arguments world {World} _.
Arguments issued {World} _.
Arguments PROJECT_ROOT {World} _.
Arguments BACKUP_STASH_REF {World} _.
Arguments mkEnv {World} _ _ _ _.
Arguments execGit {World} spawn args e.
Arguments set_backup_ref {World} ref e.
Arguments git_push {World} spawn GITHUB_TOKEN branch_arg timestamp e0.
Arguments git_stash_backup {World} spawn e0.
Arguments git_restore_backup {World} spawn e0.
Arguments git_clear_backup {World} spawn e0.

(** The module variable is [null] or the one reference the module ever
    stores. *)
Definition ref_ok {World : Type} (e : Env World) : Prop :=
  BACKUP_STASH_REF e = None \/ BACKUP_STASH_REF e = Some "stash@{0}".

(** [agent/changes-<digits>] *)
Definition all_digits (s : string) : bool :=
  negb (s =? "") &&
  forallb (fun c => (48 <=? Ascii.nat_of_ascii c)%nat && (Ascii.nat_of_ascii c <=? 57)%nat)
    (list_ascii_of_string s).

Definition agent_branch_pattern (b : string) : Prop :=
  exists digits, b = "agent/changes-" ++ digits /\ all_digits digits = true.

(** How git reads the last argument of [git push -u origin <refspec>]
    (git-push(1)): an optional [+], then [<src>] or [<src>:<dst>], the
    destination being the source when none is written, and a branch
    being named with or without [refs/heads/].  [updates_main] is a
    sufficient test: when it holds, the destination of the push is the
    branch [main] of [origin].  This is the behaviour of git, which the
    tool hands its argument to; [git_push] itself only compares the
    argument with the text [main]. *)
Definition updates_main (refspec : string) : bool :=
  let spec :=
    if Js.startsWith refspec "+" then Js.substring_from 1 refspec
    else refspec in
  let dst :=
    match Js.split ":" spec with
    | [_; dst] => dst
    | _ => spec
    end in
  (dst =? "main") || (dst =? "refs/heads/main").

(** [/\[[\w-]+ ([a-f0-9]+)\]/] tried at the start of [s]: the bracket,
    the longest run of word characters and hyphens, one space, the
    longest run of lower-case hexadecimal digits, the closing bracket.
    Neither class holds the character that must follow it, so a shorter
    run never matches where the longest one does not. *)
Definition hash_match_at (s : string) : option string :=
  match s with
  | String "["%char r =>
      let '(name, r1) :=
        Js.span (fun c => Js.is_word c || Ascii.eqb c "-"%char) r in
      if name =? "" then None
      else
        match r1 with
        | String " "%char r2 =>
            let '(hash, r3) := Js.span Js.is_lower_hex r2 in
            if hash =? "" then None
            else
              match r3 with
              | String "]"%char _ => Some hash
              | _ => None
              end
        | _ => None
        end
  | _ => None
  end.

(** [stdout.match(/\[[\w-]+ ([a-f0-9]+)\]/)]: the first group of the
    leftmost match. *)
Fixpoint hashMatch (s : string) : option string :=
  match hash_match_at s with
  | Some hash => Some hash
  | None =>
      match s with
      | EmptyString => None
      | String _ r => hashMatch r
      end
  end.

(** [/github\.com[/:]([^/]+)\/([^/.]+)/] tried at the start of [s]. *)
Definition repo_match_at (s : string) : option (string * string) :=
  if Js.startsWith s "github.com" then
    match Js.substring_from (String.length "github.com") s with
    | String c r =>
        if Ascii.eqb c "/"%char || Ascii.eqb c ":"%char then
          let '(owner, r1) := Js.span (fun c => negb (Ascii.eqb c "/"%char)) r in
          if owner =? "" then None
          else
            match r1 with
            | String _ r2 =>
                let '(repo, _) :=
                  Js.span (fun c => negb (Ascii.eqb c "/"%char)
                                    && negb (Ascii.eqb c "."%char)) r2 in
                if repo =? "" then None else Some (owner, repo)
            | EmptyString => None
            end
        else None
    | EmptyString => None
    end
  else None.

(** [remoteUrl.match(...)]: the two groups of the leftmost match. *)
Fixpoint repoMatch (s : string) : option (string * string) :=
  match repo_match_at s with
  | Some groups => Some groups
  | None =>
      match s with
      | EmptyString => None
      | String _ r => repoMatch r
      end
  end.

(** [repo.replace(/\.git$/, "")] *)
Definition strip_git_suffix (repo : string) : string :=
  if Js.endsWith repo ".git"
  then Js.substring0 (String.length repo - 4) repo
  else repo.

(** One line of [git status --porcelain] as [git_status] reads it. *)
Definition parse_status_line (line : string) : Js.value :=
  Js.VObj [ ("status", Js.VStr (Js.trim (Js.substring0 2 line)));
            ("file", Js.VStr (Js.substring_from 3 line)) ].

(** One line of [git log --oneline] as [git_log] reads it:
    [const [hash, ...messageParts] = line.split(" ")]. *)
Definition parse_log_line (line : string) : Js.value :=
  match Js.split Js.SP_unit line with
  | hash :: messageParts =>
      Js.VObj [ ("hash", Js.VStr hash);
                ("message", Js.VStr (String.concat " " messageParts)) ]
  | [] => Js.VObj [ ("hash", Js.VUndefined); ("message", Js.VStr "") ]
  end.

(** How the [fetch] of the pull-request endpoint ends: it (or reading
    the body) threw, the status is outside 200..299, or the response
    parsed to [prData]. *)
Inductive PostOutcome : Type :=
| PostRejected (message : string)
| PostNotOk (status : Z) (errorData : string)
| PostCreated (prData : Js.value).

(** The request [git_create_pr] sends. *)
Record PullRequest : Type := mkPullRequest {
  endpoint : string;
  bearer : string;
  pr_title : string;
  pr_body : string;
  pr_head : string;
  pr_base : string
}.

Section OtherTools.

Variable World : Type.
Variable spawn : World -> list string -> World * ExecResult.

(** [process.cwd()] and [process.env.GITHUB_TOKEN] *)
Variable cwd : string.
Variable GITHUB_TOKEN : option string.

(** [fetch(url, { method: "POST", ... })] on the GitHub API. *)
Variable post_pulls : World -> PullRequest -> World * PostOutcome.

(** [initialize(root)] *)
Definition initialize (root : string) (e : Env World) : Env World :=
  mkEnv (world e) (issued e) root None.

(** [git_clone(repoUrl, targetDir = ".")] *)
Definition git_clone (repoUrl targetDir : string) (e0 : Env World)
    : ToolResult * Env World :=
  if negb (Js.startsWith repoUrl "https://")
     && negb (Js.startsWith repoUrl "git@") then
    (mkResult false Js.VUndefined (Js.VStr "Invalid repository URL"), e0)
  else
    let targetPath := Path.resolve cwd [PROJECT_ROOT e0; targetDir] in
    let '(result, e1) :=
      execGit spawn ["clone"; "--depth"; "1"; repoUrl; targetPath] e0 in
    if negb (exitCode result =? 0)%Z then
      (mkResult false
         (Js.VObj [ ("exitCode", Js.VNum (exitCode result));
                    ("stderr", Js.VStr (stderr result)) ])
         (Js.VStr ("Clone failed: " ++ stderr result)),
       e1)
    else
      (mkResult true
         (Js.VObj [ ("cloned_to", Js.VStr targetPath);
                    ("stdout", Js.VStr (stdout result)) ])
         Js.VUndefined,
       mkEnv (world e1) (issued e1) targetPath (BACKUP_STASH_REF e1)).

Definition git_status (e0 : Env World) : ToolResult * Env World :=
  let '(result, e1) := execGit spawn ["status"; "--porcelain"] e0 in
  if negb (exitCode result =? 0)%Z then
    (mkResult false Js.VUndefined
       (Js.VStr ("git status failed: " ++ stderr result)),
     e1)
  else
    let lines := Js.output_lines (stdout result) in
    let changes := map parse_status_line lines in
    (mkResult true
       (Js.VObj
          [ ("clean", Js.VBool (length changes =? 0)%nat);
            ("changes", Js.VArr changes);
            ("summary",
             Js.VStr
               (if (length changes =? 0)%nat then "Working directory clean"
                else Js.string_of_Z (Z.of_nat (length changes))
                     ++ " file(s) changed")) ])
       Js.VUndefined,
     e1).

(** [git_diff(file = null)] *)
Definition git_diff (file : option string) (e0 : Env World)
    : ToolResult * Env World :=
  let args :=
    match file with
    | Some f => if Js.truthy file then ["diff"; f] else ["diff"]
    | None => ["diff"]
    end in
  let '(result, e1) := execGit spawn args e0 in
  (mkResult true
     (Js.VObj
        [ ("diff",
           Js.VStr (if stdout result =? "" then "(no changes)"
                    else stdout result)) ])
     Js.VUndefined,
   e1).

Definition git_commit (message : string) (e0 : Env World)
    : ToolResult * Env World :=
  if (message =? "") || (String.length (Js.trim message) =? 0)%nat then
    (mkResult false Js.VUndefined (Js.VStr "Commit message required"), e0)
  else
    let e1 :=
      snd (execGit spawn
             ["config"; "user.email"; "ashwinramesh022@users.noreply.github.com"]
             e0) in
    let e2 := snd (execGit spawn ["config"; "user.name"; "ashwinramesh022"] e1) in
    let '(result, e3) := execGit spawn ["commit"; "-m"; message] e2 in
    if negb (exitCode result =? 0)%Z then
      if Js.includes (stdout result) "nothing to commit" then
        (mkResult true
           (Js.VObj [ ("message", Js.VStr "Nothing to commit");
                      ("commit_hash", Js.VNull) ])
           Js.VUndefined,
         e3)
      else
        (mkResult false Js.VUndefined
           (Js.VStr ("git commit failed: "
                     ++ (if stderr result =? "" then stdout result
                         else stderr result))),
         e3)
    else
      let commitHash :=
        match hashMatch (stdout result) with
        | Some hash => Js.VStr hash
        | None => Js.VNull
        end in
      (mkResult true
         (Js.VObj [ ("message", Js.VStr message);
                    ("commit_hash", commitHash);
                    ("stdout", Js.VStr (stdout result)) ])
         Js.VUndefined,
       e3).

(** [git_log(count = 5)] *)
Definition git_log (count : Js.value) (e0 : Env World)
    : ToolResult * Env World :=
  let '(result, e1) :=
    execGit spawn ["log"; "--oneline"; "-n"; Js.to_string count] e0 in
  if negb (exitCode result =? 0)%Z then
    (mkResult false Js.VUndefined
       (Js.VStr ("git log failed: " ++ stderr result)),
     e1)
  else
    (mkResult true
       (Js.VObj
          [ ("commits",
             Js.VArr (map parse_log_line (Js.output_lines (stdout result)))) ])
       Js.VUndefined,
     e1).

(** [git_create_pr(title, body = "")]; the second component tells which
    request was sent, if any. *)
Definition git_create_pr (title body : string) (e0 : Env World)
    : ToolResult * Env World * option PullRequest :=
  let fail (error : string) (e : Env World) :=
    (mkResult false Js.VUndefined (Js.VStr error), e, @None PullRequest) in
  match GITHUB_TOKEN with
  | None => fail "GITHUB_TOKEN not available for PR creation" e0
  | Some githubToken =>
      if githubToken =? "" then
        fail "GITHUB_TOKEN not available for PR creation" e0
      else
        let '(branchResult, e1) :=
          execGit spawn ["rev-parse"; "--abbrev-ref"; "HEAD"] e0 in
        if negb (exitCode branchResult =? 0)%Z then
          fail "Could not determine current branch" e1
        else
          let currentBranch := Js.trim (stdout branchResult) in
          if currentBranch =? "main" then
            fail "Cannot create PR from main branch. Push to a feature branch first." e1
          else
            let '(remoteResult, e2) :=
              execGit spawn ["remote"; "get-url"; "origin"] e1 in
            if negb (exitCode remoteResult =? 0)%Z then
              fail "Could not get remote URL" e2
            else
              let remoteUrl := Js.trim (stdout remoteResult) in
              match repoMatch remoteUrl with
              | None => fail ("Could not parse repo from URL: " ++ remoteUrl) e2
              | Some (owner, repo) =>
                  let repoName := strip_git_suffix repo in
                  let request :=
                    mkPullRequest
                      ("https://api.github.com/repos/" ++ owner ++ "/"
                       ++ repoName ++ "/pulls")
                      githubToken title
                      (if body =? "" then
                         "Automated changes by Portfolio Agent" ++ Js.LF
                         ++ Js.LF ++ "Branch: " ++ currentBranch
                       else body)
                      currentBranch "main" in
                  let '(w, outcome) := post_pulls (world e2) request in
                  let e3 :=
                    mkEnv w (issued e2) (PROJECT_ROOT e2) (BACKUP_STASH_REF e2) in
                  match outcome with
                  | PostRejected message =>
                      (mkResult false Js.VUndefined (Js.VStr message), e3,
                       Some request)
                  | PostNotOk status errorData =>
                      (mkResult false
                         (Js.VObj [ ("response", Js.VStr errorData) ])
                         (Js.VStr ("GitHub API error: " ++ Js.string_of_Z status)),
                       e3, Some request)
                  | PostCreated prData =>
                      (mkResult true
                         (Js.VObj
                            [ ("pr_number", Js.get prData "number");
                              ("pr_url", Js.get prData "html_url");
                              ("title", Js.get prData "title");
                              ("branch", Js.VStr currentBranch);
                              ("base", Js.VStr "main") ])
                         Js.VUndefined,
                       e3, Some request)
                  end
              end
  end.

End OtherTools.

Arguments initialize {World} root e.
Arguments git_clone {World} spawn cwd repoUrl targetDir e0.
Arguments git_status {World} spawn e0.
Arguments git_diff {World} spawn file e0.
Arguments git_commit {World} spawn message e0.
Arguments git_log {World} spawn count e0.
Arguments git_create_pr {World} spawn GITHUB_TOKEN post_pulls title body e0.

(** The three backup tools, and a run of calls of them in any order. *)
Inductive BackupOp : Type :=
| CallStashBackup
| CallRestoreBackup
| CallClearBackup.

Definition run_backup_op {World : Type}
    (spawn : World -> list string -> World * ExecResult)
    (e : Env World) (op : BackupOp) : Env World :=
  match op with
  | CallStashBackup => snd (git_stash_backup spawn e)
  | CallRestoreBackup => snd (git_restore_backup spawn e)
  | CallClearBackup => snd (git_clear_backup spawn e)
  end.

Definition run_backup_ops {World : Type}
    (spawn : World -> list string -> World * ExecResult)
    (ops : list BackupOp) (e : Env World) : Env World :=
  fold_left (run_backup_op spawn) ops e.

Definition is_stash_push (argv : list string) : bool :=
  match argv with
  | sub :: op :: _ => (sub =? "stash") && (op =? "push")
  | _ => false
  end.

Definition is_stash_pop (argv : list string) : bool :=
  match argv with
  | sub :: op :: _ => (sub =? "stash") && (op =? "pop")
  | _ => false
  end.

(** How many [git stash pop] and [git stash push] were issued so far,
    and whether the module holds a backup reference (1) or not (0). *)
Definition pops {World : Type} (e : Env World) : nat :=
  length (filter is_stash_pop (issued e)).

Definition pushes {World : Type} (e : Env World) : nat :=
  length (filter is_stash_push (issued e)).

Definition outstanding {World : Type} (e : Env World) : nat :=
  if Js.truthy (BACKUP_STASH_REF e) then 1 else 0.

(** A non-empty string of lower-case hexadecimal digits, and a non-empty
    string of word characters and hyphens. *)
Definition hex_string (h : string) : Prop :=
  h <> "" /\ forallb Js.is_lower_hex (list_ascii_of_string h) = true.

Definition simple_name (name : string) : Prop :=
  name <> "" /\
  forallb (fun c => Js.is_word c || Ascii.eqb c "-"%char)
    (list_ascii_of_string name) = true.

(** No code unit of [s] is [c]. *)
Definition free_of (c : ascii) (s : string) : Prop :=
  forallb (fun x => negb (Ascii.eqb x c)) (list_ascii_of_string s) = true.

End Git.

(* ================================================================== *)
(** ** tools/browser.js                                               *)
(* ================================================================== *)

Module Browser.

(** How the promise around [http.get] settles.  [http.get] is called
    inside the promise's executor, so when it throws on its arguments
    (an invalid URL, a protocol that is not the module's, a timeout out
    of range) the promise is rejected with what it threw and no request
    was ever made; otherwise a request is under way, and the response
    ended, or the request emitted [error], or it emitted [timeout]. *)
Inductive HttpOutcome : Type :=
| GetThrew (message : string)
| Response (statusCode : Z) (body : string)
| RequestError (message : string)
| RequestTimeout.

(** The argument object [{ url, expectedContent, timeout = 10000 }]. *)
Record VerifyArgs : Type := mkVerifyArgs {
  url : option string;
  expectedContent : option string;
  timeout : option Z
}.

Section WithHttp.

(** [http.get(url, { timeout }, ...)] as seen by the promise. *)
Variable http_get : string -> Z -> HttpOutcome.

Definition verify_url (args : VerifyArgs) : ToolResult :=
  let timeout := match timeout args with Some t => t | None => 10000%Z end in
  match url args with
  | None => mkResult false Js.VUndefined (Js.VStr "url is required")
  | Some url =>
      if url =? "" then
        mkResult false Js.VUndefined (Js.VStr "url is required")
      else
        match http_get url timeout with
        | Response statusCode body =>
            let contentMatch :=
              if Js.truthy (expectedContent args) then
                Js.includes body
                  (match expectedContent args with Some x => x | None => "" end)
              else true in
            mkResult true
              (Js.VObj
                 [ ("url", Js.VStr url);
                   ("statusCode", Js.VNum statusCode);
                   ("accessible",
                    Js.VBool ((200 <=? statusCode)%Z && (statusCode <? 400)%Z));
                   ("contentMatch", Js.VBool contentMatch);
                   ("bodyLength", Js.VNum (Z.of_nat (String.length body)));
                   ("hasExpectedContent",
                    if Js.truthy (expectedContent args)
                    then Js.VBool contentMatch
                    else Js.VStr "not checked") ])
              Js.VUndefined
        | GetThrew message | RequestError message =>
            mkResult false Js.VUndefined (Js.VStr message)
        | RequestTimeout =>
            mkResult false Js.VUndefined (Js.VStr "Request timeout")
        end
  end.

(** What [http.get] makes of the arguments the call hands it. *)
Definition outcome_of (args : VerifyArgs) : HttpOutcome :=
  http_get (match url args with Some u => u | None => "" end)
           (match timeout args with Some t => t | None => 10000%Z end).

(** Whether [http.get] threw instead of returning a request. *)
Definition get_threw (o : HttpOutcome) : bool :=
  match o with
  | GetThrew _ => true
  | Response _ _ | RequestError _ | RequestTimeout => false
  end.

(** Whether the call got as far as issuing its request: it passed the
    [!url] guard and [http.get] returned a request. *)
Definition request_issued (args : VerifyArgs) : bool :=
  Js.truthy (url args) && negb (get_threw (outcome_of args)).

(** Whether a request that was issued emitted [error] or [timeout]. *)
Definition request_failed (o : HttpOutcome) : bool :=
  match o with
  | GetThrew _ | Response _ _ => false
  | RequestError _ | RequestTimeout => true
  end.

End WithHttp.

End Browser.

(* ================================================================== *)
(** ** tools/command.js: [run_command]                                *)
(* ================================================================== *)

Module CommandTool.

(** What [spawnSync] returns, as far as [run_command] reads it:
    [status] is [null] when the process was killed or never started,
    and the two outputs may be missing then. *)
Record SpawnResult : Type := mkSpawn {
  status : option Z;
  spawn_stdout : option string;
  spawn_stderr : option string
}.

(** A process that was started: the command and its arguments. *)
Definition Started : Type := (string * list string)%type.

Section WithSpawn.

Variable World : Type.

(** [spawnSync(command, args, { cwd, encoding, timeout, maxBuffer })] *)
Variable spawnSync : World -> string -> list string -> World * SpawnResult.

(** [run_command(command, args = [])]; the third component is the
    process that was started, if any. *)
Definition run_command (command : string) (args : list string) (w : World)
    : ToolResult * World * option Started :=
  let fullCommand :=
    if (0 <? length args)%nat then command ++ " " ++ String.concat " " args
    else command in
  match Command.isCommandAllowed command with
  | Command.Blocked reason =>
      (mkResult false
         (Js.VObj [ ("command", Js.VStr command); ("blocked", Js.VBool true) ])
         (Js.VStr reason),
       w, None)
  | Command.Allowed =>
      let '(w', result) := spawnSync w command args in
      let exitCode := match status result with Some n => n | None => (-1)%Z end in
      let stdout :=
        match Js.or_else (spawn_stdout result) (Some "") with
        | Some s => s
        | None => ""
        end in
      let stderr :=
        match Js.or_else (spawn_stderr result) (Some "") with
        | Some s => s
        | None => ""
        end in
      (mkResult (exitCode =? 0)%Z
         (Js.VObj [ ("command", Js.VStr fullCommand);
                    ("exitCode", Js.VNum exitCode);
                    ("stdout", Js.VStr stdout);
                    ("stderr", Js.VStr stderr) ])
         Js.VUndefined,
       w', Some (command, args))
  end.

End WithSpawn.

Arguments run_command {World} spawnSync command args w.

End CommandTool.

(* ================================================================== *)
(** ** tools/build.js                                                 *)
(* ================================================================== *)

Module Build.

(** What [execNpm] returns. *)
Record ExecResult : Type := mkExec {
  exitCode : Z;
  stdout : string;
  stderr : string
}.

(** The directories [check_build_output] looks for, in its order. *)
Definition buildDirs : list string := [".next"; "dist"; "build"; "out"].

(** The test [run_build] applies to a line of the output. *)
Definition error_line (line : string) : bool :=
  Js.includes line "Error:" || Js.includes line "error "
  || Js.includes line "failed".

(** How a directory answers [existsSync], [statSync] and [readdirSync]:
    it is not there, it is there and not a directory, it is a directory
    with these names, or one of the calls throws. *)
Inductive DirAnswer : Type :=
| Missing
| NotDirectory
| Directory (files : list string)
| FsThrows (message : string).

Section WithNpm.

Variable World : Type.

(** [spawnSync("npm", args, ...)] as [execNpm] reads it. *)
Variable spawn_npm : World -> list string -> World * ExecResult.

(** [fs.existsSync(path.join(PROJECT_ROOT, name))] and what the three
    calls of [check_build_output] find at [path.join(PROJECT_ROOT,
    dir)]. *)
Variable exists_in_root : World -> string -> bool.
Variable dir_in_root : World -> string -> DirAnswer.

Definition execNpm (args : list string) (w : World) : World * ExecResult :=
  spawn_npm w args.

(** The second component is the argument list [npm] was started with. *)
Definition npm_install (w : World) : ToolResult * World * list string :=
  let hasLockFile := exists_in_root w "package-lock.json" in
  let args :=
    if hasLockFile then ["ci"; "--no-audit"; "--no-fund"; "--prefer-offline"]
    else ["install"; "--no-audit"; "--no-fund"; "--prefer-offline"] in
  let '(w', result) := execNpm args w in
  if negb (exitCode result =? 0)%Z then
    (mkResult false
       (Js.VObj [ ("exitCode", Js.VNum (exitCode result));
                  ("stderr", Js.VStr (stderr result));
                  ("stdout", Js.VStr (stdout result)) ])
       (Js.VStr "npm install failed"),
     w', args)
  else
    (mkResult true
       (Js.VObj [ ("message", Js.VStr "Dependencies installed successfully");
                  ("stdout", Js.VStr (Js.substring0 1000 (stdout result))) ])
       Js.VUndefined,
     w', args).

Definition run_build (w : World) : ToolResult * World :=
  let '(w', result) := execNpm ["run"; "build"] w in
  let success := (exitCode result =? 0)%Z in
  let errors :=
    if negb success then
      let errorLines :=
        filter error_line (Js.split Js.LF_unit (stderr result ++ stdout result)) in
      Js.slice0 10 errorLines
    else [] in
  (mkResult success
     (Js.VObj [ ("exitCode", Js.VNum (exitCode result));
                ("stdout", Js.VStr (Js.substring0 2000 (stdout result)));
                ("stderr", Js.VStr (Js.substring0 2000 (stderr result)));
                ("errors", Js.VArr (map Js.VStr errors));
                ("summary",
                 Js.VStr (if success then "Build succeeded" else "Build failed")) ])
     Js.VUndefined,
   w').

Definition run_lint (w : World) : ToolResult * World :=
  let '(w', result) := execNpm ["run"; "lint"] w in
  (mkResult (exitCode result =? 0)%Z
     (Js.VObj [ ("exitCode", Js.VNum (exitCode result));
                ("stdout", Js.VStr (Js.substring0 2000 (stdout result)));
                ("stderr", Js.VStr (Js.substring0 2000 (stderr result)));
                ("summary",
                 Js.VStr (if (exitCode result =? 0)%Z then "Lint passed"
                          else "Lint failed")) ])
     Js.VUndefined,
   w').

(** The [for (const dir of buildDirs)] loop of [check_build_output]. *)
Fixpoint check_dirs (w : World) (dirs : list string) : ToolResult :=
  match dirs with
  | [] =>
      mkResult false
        (Js.VObj [ ("checked", Js.VArr (map Js.VStr buildDirs)) ])
        (Js.VStr "No build output directory found")
  | dir :: rest =>
      match dir_in_root w dir with
      | Missing | NotDirectory => check_dirs w rest
      | FsThrows message => mkResult false Js.VUndefined (Js.VStr message)
      | Directory files =>
          mkResult true
            (Js.VObj [ ("build_dir", Js.VStr dir);
                       ("file_count", Js.VNum (Z.of_nat (length files)));
                       ("files", Js.VArr (map Js.VStr (Js.slice0 10 files))) ])
            Js.VUndefined
      end
  end.

Definition check_build_output (w : World) : ToolResult := check_dirs w buildDirs.

(** A candidate the loop passes over: it is not there, or it is not a
    directory. *)
Definition absent (w : World) (dir : string) : Prop :=
  dir_in_root w dir = Missing \/ dir_in_root w dir = NotDirectory.

End WithNpm.

Arguments npm_install {World} spawn_npm exists_in_root w.
Arguments run_build {World} spawn_npm w.
Arguments run_lint {World} spawn_npm w.
Arguments check_dirs {World} dir_in_root w dirs.
Arguments check_build_output {World} dir_in_root w.
Arguments absent {World} dir_in_root w dir.

End Build.

(* ================================================================== *)
(** ** tools/filesystem.js: the four tools                            *)
(* ================================================================== *)

Module FileTools.

(** The calls of Node's [fs] module the tools make, each with the path
    it is made on. *)
Inductive FsCall : Type :=
| ExistsSync (path : string)
| MkdirSync (path : string)
| WriteFileSync (path content : string)
| StatSync (path : string)
| ReadFileSync (path : string)
| ReaddirSync (path : string).

Definition call_path (c : FsCall) : string :=
  match c with
  | ExistsSync p | MkdirSync p | WriteFileSync p _ | StatSync p
  | ReadFileSync p | ReaddirSync p => p
  end.

(** [fs.Stats], as far as the tools read it. *)
Record Stats : Type := mkStats {
  size : Z;
  isDirectory : bool
}.

(** A directory entry: a regular file with its text ([None] when
    [readFileSync] throws on it), a directory with its entries ([inr]
    when [readdirSync] throws on it), or something that is neither, such
    as a symbolic link. *)
#[warnings="-register-all"]
Inductive Entry : Type :=
| FileEntry (name : string) (content : option string)
| DirEntry (name : string) (listing : list Entry + string)
| OtherEntry (name : string).

Definition entry_name (e : Entry) : string :=
  match e with
  | FileEntry name _ | DirEntry name _ | OtherEntry name => name
  end.

(** Induction on a directory tree, with the entries of a directory as
    an induction hypothesis. *)
Fixpoint Entry_tree_ind (P : Entry -> Prop)
    (Hfile : forall name content, P (FileEntry name content))
    (Hdir : forall name entries, Forall P entries -> P (DirEntry name (inl entries)))
    (Hthrows : forall name message, P (DirEntry name (inr message)))
    (Hother : forall name, P (OtherEntry name))
    (e : Entry) : P e :=
  match e with
  | FileEntry name content => Hfile name content
  | DirEntry name (inl entries) =>
      Hdir name entries
        ((fix all (es : list Entry) : Forall P es :=
            match es with
            | [] => Forall_nil P
            | x :: rest =>
                Forall_cons x (Entry_tree_ind P Hfile Hdir Hthrows Hother x)
                  (all rest)
            end) entries)
  | DirEntry name (inr message) => Hthrows name message
  | OtherEntry name => Hother name
  end.

(** One element of [results]. *)
Record Match : Type := mkMatch {
  match_path : string;
  match_kind : string
}.

(** What [searchDir(safe.path)] finds at its starting point: nothing,
    a directory, or a [readdirSync] that throws. *)
Inductive Start : Type :=
| StartMissing
| StartListing (entries : list Entry)
| StartThrows (message : string).

Section WithFs.

Variable FS : Type.

(** The file system calls.  A call that reads answers [inr message]
    when it throws; a call that writes returns the file system it
    leaves and, when it throws, the message. *)
Variable existsSync : FS -> string -> bool.
Variable mkdirSync : FS -> string -> FS * option string.
Variable writeFileSync : FS -> string -> string -> FS * option string.
Variable statSync : FS -> string -> Stats + string.
Variable readFileSync : FS -> string -> string + string.
Variable readdirSync : FS -> string -> list Entry + string.

(** [process.cwd()], and the functions of Node's [path] module whose
    results the tools only pass on. *)
Variable cwd : string.
Variable path_dirname : string -> string.
Variable path_relative : string -> string -> string.
Variable path_join : string -> string -> string.

Definition failed (message : string) : ToolResult :=
  mkResult false Js.VUndefined (Js.VStr message).

Definition write_file (PROJECT_ROOT filePath content : string) (fs : FS)
    : ToolResult * FS * list FsCall :=
  match Filesystem.safePath cwd PROJECT_ROOT filePath with
  | Filesystem.Invalid error => (failed error, fs, [])
  | Filesystem.Valid path =>
      let dir := path_dirname path in
      let '(fs1, thrown, calls) :=
        if negb (existsSync fs dir) then
          let '(fs', thrown) := mkdirSync fs dir in
          (fs', thrown, [ExistsSync dir; MkdirSync dir])
        else (fs, None, [ExistsSync dir]) in
      match thrown with
      | Some message => (failed message, fs1, calls)
      | None =>
          match writeFileSync fs1 path content with
          | (fs2, Some message) =>
              (failed message, fs2, calls ++ [WriteFileSync path content])%list
          | (fs2, None) =>
              let calls2 :=
                (calls ++ [WriteFileSync path content; StatSync path])%list in
              match statSync fs2 path with
              | inr message => (failed message, fs2, calls2)
              | inl stats =>
                  (mkResult true
                     (Js.VObj
                        [ ("path", Js.VStr path);
                          ("relativePath",
                           Js.VStr (path_relative PROJECT_ROOT path));
                          ("bytes_written", Js.VNum (size stats)) ])
                     Js.VUndefined,
                   fs2, calls2)
              end
          end
      end
  end.

Definition read_file (PROJECT_ROOT filePath : string) (fs : FS)
    : ToolResult * list FsCall :=
  match Filesystem.safePath cwd PROJECT_ROOT filePath with
  | Filesystem.Invalid error => (failed error, [])
  | Filesystem.Valid path =>
      if negb (existsSync fs path) then
        (failed ("File not found: " ++ filePath), [ExistsSync path])
      else
        match readFileSync fs path with
        | inr message => (failed message, [ExistsSync path; ReadFileSync path])
        | inl content =>
            let calls := [ExistsSync path; ReadFileSync path; StatSync path] in
            match statSync fs path with
            | inr message => (failed message, calls)
            | inl stats =>
                (mkResult true
                   (Js.VObj
                      [ ("path", Js.VStr path);
                        ("relativePath",
                         Js.VStr (path_relative PROJECT_ROOT path));
                        ("content", Js.VStr content);
                        ("size", Js.VNum (size stats)) ])
                   Js.VUndefined,
                 calls)
            end
        end
  end.

(** One element of [files] in [list_files]. *)
Definition list_entry (PROJECT_ROOT path : string) (entry : Entry) : Js.value :=
  Js.VObj
    [ ("name", Js.VStr (entry_name entry));
      ("type",
       Js.VStr (match entry with
                | DirEntry _ _ => "directory"
                | _ => "file"
                end));
      ("path",
       Js.VStr (path_relative PROJECT_ROOT (path_join path (entry_name entry)))) ].

(** [list_files(dirPath = ".")] *)
Definition list_files (PROJECT_ROOT dirPath : string) (fs : FS)
    : ToolResult * list FsCall :=
  match Filesystem.safePath cwd PROJECT_ROOT dirPath with
  | Filesystem.Invalid error => (failed error, [])
  | Filesystem.Valid path =>
      if negb (existsSync fs path) then
        (failed ("Directory not found: " ++ dirPath), [ExistsSync path])
      else
        match statSync fs path with
        | inr message => (failed message, [ExistsSync path; StatSync path])
        | inl stats =>
            if negb (isDirectory stats) then
              (failed ("Not a directory: " ++ dirPath),
               [ExistsSync path; StatSync path])
            else
              let calls := [ExistsSync path; StatSync path; ReaddirSync path] in
              match readdirSync fs path with
              | inr message => (failed message, calls)
              | inl entries =>
                  let files := map (list_entry PROJECT_ROOT path) entries in
                  (mkResult true
                     (Js.VObj
                        [ ("directory",
                           Js.VStr
                             (if path_relative PROJECT_ROOT path =? "" then "."
                              else path_relative PROJECT_ROOT path));
                          ("entries", Js.VArr files);
                          ("count", Js.VNum (Z.of_nat (length files))) ])
                     Js.VUndefined,
                   calls)
              end
        end
  end.

(** The names [searchDir] steps over. *)
Definition skipped (name : string) : bool :=
  (name =? "node_modules") || (name =? ".git").

(** [searchDir(dir)] on the entries [readdirSync] returned, with the
    results pushed so far; [inr message] when a nested [readdirSync]
    throws, which nothing inside [searchDir] catches. *)
Fixpoint search_entry (PROJECT_ROOT query dir : string) (entry : Entry)
    (results : list Match) : list Match + string :=
  let fullPath := path_join dir (entry_name entry) in
  if skipped (entry_name entry) then inl results
  else
    match entry with
    | DirEntry _ (inr message) => inr message
    | DirEntry _ (inl entries) =>
        (fix search_entries (es : list Entry) (acc : list Match)
           : list Match + string :=
           match es with
           | [] => inl acc
           | e :: rest =>
               match search_entry PROJECT_ROOT query fullPath e acc with
               | inl acc' => search_entries rest acc'
               | inr message => inr message
               end
           end) entries results
    | FileEntry name content =>
        if Js.includes (Js.toLowerCase name) (Js.toLowerCase query) then
          inl (results
               ++ [mkMatch (path_relative PROJECT_ROOT fullPath) "filename"])%list
        else
          match content with
          | Some text =>
              if Js.includes (Js.toLowerCase text) (Js.toLowerCase query) then
                inl (results
                     ++ [mkMatch (path_relative PROJECT_ROOT fullPath) "content"])%list
              else inl results
          | None => inl results
          end
    | OtherEntry _ => inl results
    end.

(** The [for (const entry of entries)] loop of [searchDir]. *)
Fixpoint searchDir (PROJECT_ROOT query dir : string) (entries : list Entry)
    (results : list Match) : list Match + string :=
  match entries with
  | [] => inl results
  | e :: rest =>
      match search_entry PROJECT_ROOT query dir e results with
      | inl results' => searchDir PROJECT_ROOT query dir rest results'
      | inr message => inr message
      end
  end.

(** What [searchDir(safe.path)] starts from. *)
Definition start_of (fs : FS) (path : string) : Start :=
  if negb (existsSync fs path) then StartMissing
  else
    match readdirSync fs path with
    | inl entries => StartListing entries
    | inr message => StartThrows message
    end.

Definition match_value (m : Match) : Js.value :=
  Js.VObj [ ("path", Js.VStr (match_path m)); ("match", Js.VStr (match_kind m)) ].

(** [search_files(query, searchPath = ".")] *)
Definition search_files (PROJECT_ROOT query searchPath : string) (fs : FS)
    : ToolResult :=
  match Filesystem.safePath cwd PROJECT_ROOT searchPath with
  | Filesystem.Invalid error => failed error
  | Filesystem.Valid path =>
      let found :=
        match start_of fs path with
        | StartMissing => inl []
        | StartListing entries => searchDir PROJECT_ROOT query path entries []
        | StartThrows message => inr message
        end in
      match found with
      | inr message => failed message
      | inl results =>
          mkResult true
            (Js.VObj
               [ ("query", Js.VStr query);
                 ("results", Js.VArr (map match_value (Js.slice0 20 results)));
                 ("count", Js.VNum (Z.of_nat (length results))) ])
            Js.VUndefined
      end
  end.

End WithFs.

(** An entry without what [searchDir] steps over: the entries named
    [node_modules] or [.git] are removed at every depth. *)
Fixpoint prune (entry : Entry) : list Entry :=
  if skipped (entry_name entry) then []
  else
    match entry with
    | DirEntry name (inl entries) =>
        [DirEntry name (inl (flat_map prune entries))]
    | _ => [entry]
    end.

Definition prune_entries (entries : list Entry) : list Entry :=
  flat_map prune entries.

(** Every result is a file-name match or a content match. *)
Definition kinds_ok (results : list Match) : Prop :=
  Forall (fun m => match_kind m = "filename" \/ match_kind m = "content") results.

End FileTools.

(* ================================================================== *)
(** ** agent/state.js                                                 *)
(* ================================================================== *)

Module State.

Record Build : Type := mkBuild {
  build_ran : bool;
  build_success : Js.value;
  build_errors : Js.value;
  build_output : Js.value
}.

Record DevServer : Type := mkDevServer {
  running : bool;
  port : Js.value;
  pid : Js.value
}.

Record Verification : Type := mkVerification {
  verification_ran : bool;
  verification_success : Js.value;
  checks : list (Js.value * bool)
}.

Record GitStatus : Type := mkGit {
  committed : bool;
  pushed : bool;
  commit_hash : Js.value;
  branch : Js.value;
  pr_url : Js.value
}.

Record Iteration : Type := mkIteration {
  count : nat;
  max : nat;
  errors : list Js.value;
  repairs : nat
}.

Record Plan : Type := mkPlan {
  steps : Js.value;
  current_step : nat
}.

Record t : Type := mkState {
  goal : Js.value;
  changed_files : list Js.value;
  build : Build;
  dev_server : DevServer;
  verification : Verification;
  git : GitStatus;
  iteration : Iteration;
  plan : Plan
}.

Definition initialState : t :=
  mkState Js.VNull []
    (mkBuild false Js.VNull (Js.VArr []) Js.VNull)
    (mkDevServer false Js.VNull Js.VNull)
    (mkVerification false Js.VNull [])
    (mkGit false false Js.VNull Js.VNull Js.VNull)
    (mkIteration 0 10 [] 0)
    (mkPlan (Js.VArr []) 0).

Definition reset : t := initialState.

(** [update({ iteration: { max } })], the one use of [update]. *)
Definition update_iteration_max (m : nat) (s : t) : t :=
  mkState (goal s) (changed_files s) (build s) (dev_server s)
    (verification s) (git s)
    (mkIteration (count (iteration s)) m (errors (iteration s))
       (repairs (iteration s)))
    (plan s).

Definition setGoal (g : string) (s : t) : t :=
  mkState (Js.VStr g) (changed_files s) (build s) (dev_server s)
    (verification s) (git s) (iteration s) (plan s).

(** [Array.prototype.includes] compares primitives by value and objects
    by identity; two values that come from different parses are never
    the same object. *)
Definition same_value (a b : Js.value) : bool :=
  match a, b with
  | Js.VUndefined, Js.VUndefined => true
  | Js.VNull, Js.VNull => true
  | Js.VBool x, Js.VBool y => Bool.eqb x y
  | Js.VNum x, Js.VNum y => (x =? y)%Z
  | Js.VStr x, Js.VStr y => (x =? y)
  | _, _ => false
  end.

Definition addChangedFile (filePath : Js.value) (s : t) : t :=
  if existsb (same_value filePath) (changed_files s) then s
  else
    mkState (goal s) (changed_files s ++ [filePath])%list (build s)
      (dev_server s) (verification s) (git s) (iteration s) (plan s).

Definition setBuildStatus (success : bool) (errors output : Js.value) (s : t) : t :=
  mkState (goal s) (changed_files s)
    (mkBuild true (Js.VBool success) errors (Js.default_null output))
    (dev_server s) (verification s) (git s) (iteration s) (plan s).

Definition setDevServerStatus (running : bool) (port pid : Js.value) (s : t) : t :=
  mkState (goal s) (changed_files s) (build s)
    (mkDevServer running (Js.default_null port) (Js.default_null pid))
    (verification s) (git s) (iteration s) (plan s).

Definition setVerificationStatus (success : bool)
    (checks : list (Js.value * bool)) (s : t) : t :=
  mkState (goal s) (changed_files s) (build s) (dev_server s)
    (mkVerification true (Js.VBool success) checks)
    (git s) (iteration s) (plan s).

(** [setGitStatus(committed, pushed, commitHash = null, branch = null,
    prUrl = null)] *)
Definition setGitStatus (committed pushed : bool)
    (commitHash branch prUrl : Js.value) (s : t) : t :=
  mkState (goal s) (changed_files s) (build s) (dev_server s)
    (verification s)
    (mkGit committed pushed
       (Js.default_null commitHash)
       (Js.or_value (Js.default_null branch) (State.branch (git s)))
       (Js.or_value (Js.default_null prUrl) (State.pr_url (git s))))
    (iteration s) (plan s).

Definition incrementIteration (s : t) : t :=
  mkState (goal s) (changed_files s) (build s) (dev_server s)
    (verification s) (git s)
    (mkIteration (S (count (iteration s))) (max (iteration s))
       (errors (iteration s)) (repairs (iteration s)))
    (plan s).

Definition addIterationError (error : Js.value) (s : t) : t :=
  mkState (goal s) (changed_files s) (build s) (dev_server s)
    (verification s) (git s)
    (mkIteration (count (iteration s)) (max (iteration s))
       (errors (iteration s) ++ [error])%list (S (repairs (iteration s))))
    (plan s).

Definition setPlan (steps : Js.value) (s : t) : t :=
  mkState (goal s) (changed_files s) (build s) (dev_server s)
    (verification s) (git s) (iteration s) (mkPlan steps 0).

Definition advancePlanStep (s : t) : t :=
  mkState (goal s) (changed_files s) (build s) (dev_server s)
    (verification s) (git s) (iteration s)
    (mkPlan (steps (plan s)) (S (current_step (plan s)))).

(** What [shouldTerminate] returns: [{ terminate, reason }]. *)
Record Termination : Type := mkTermination {
  terminate : bool;
  reason : option string
}.

Definition shouldTerminate (s : t) : Termination :=
  if (max (iteration s) <=? count (iteration s))%nat then
    mkTermination true (Some "Max iterations reached")
  else if Js.truthy_value (build_success (build s))
          && Js.truthy_value (verification_success (verification s)) then
    mkTermination true (Some "Task completed successfully")
  else mkTermination false None.

(** The [git] entry of [getSummary]:
    [committed ? (pushed ? "pushed" : "committed") : "uncommitted"]. *)
Definition summary_git (s : t) : string :=
  if committed (git s) then (if pushed (git s) then "pushed" else "committed")
  else "uncommitted".

(** The state after [addChangedFile] was called on each of [paths] in
    turn. *)
Definition addChangedFiles (paths : list string) (s : t) : t :=
  fold_left (fun st p => addChangedFile (Js.VStr p) st) paths s.

End State.

(* ================================================================== *)
(** ** agent/llm.js                                                   *)
(* ================================================================== *)

Module Llm.

Record Message : Type := mkMessage {
  role : string;
  content : string
}.

(** What [callLLM] and [tryModel] return:
    [{ success, data, error, modelNotFound }]. *)
Record LlmResult : Type := mkLlm {
  llm_success : bool;
  llm_data : Js.value;
  llm_error : Js.value;
  modelNotFound : bool
}.

Definition failure (error : string) : LlmResult :=
  mkLlm false Js.VUndefined (Js.VStr error) false.

(** How one [fetch] of the completions endpoint ends.  [Rejected]: the
    [fetch], [response.text()] or [response.json()] threw.  [NotOk]: a
    status outside 200..299, with the body text.  [Completion]: status
    200..299, with [data.choices?.[0]?.message?.content], the finish
    reason, and what [JSON.parse(content)] returns ([None] when it
    throws). *)
Inductive FetchOutcome : Type :=
| Rejected (message : string)
| NotOk (status : Z) (errorText : string)
| Completion (content : option string) (finishReason : option string)
    (parsed : option Js.value).

(** The warning sign and its variation selector, as UTF-8 bytes. *)
Definition WARNING : string :=
  String (Ascii.ascii_of_nat 226) (String (Ascii.ascii_of_nat 154)
  (String (Ascii.ascii_of_nat 160) (String (Ascii.ascii_of_nat 239)
  (String (Ascii.ascii_of_nat 184) (String (Ascii.ascii_of_nat 143)
  EmptyString))))).

(** The message of the [TypeError] a second [response.text()] throws. *)
Definition BODY_USED : string := "Body is unusable: Body has already been read".

(** The message of the [TypeError] that reading a property of [null]
    throws. *)
Definition NULL_PROPERTY : string := "Cannot read properties of null (reading 'done')".

Definition DEFAULT_MODEL (OPENAI_MODEL : option string) : string :=
  match Js.or_else OPENAI_MODEL (Some "gpt-4o") with
  | Some m => m
  | None => "gpt-4o"
  end.

Definition FALLBACK_MODEL : string := "gpt-4o-mini".

(** Lines 425-457 of [tryModel]: from the content and its parse to the
    result.  [inr message] stands for an exception thrown inside the
    [try] of the retry loop. *)
Definition decode (content : string) (parsed : option Js.value)
    : LlmResult + string :=
  match parsed with
  | None =>
      if (1000 <? String.length content)%nat
         && negb (Js.endsWith (Js.trim content) "}")
      then inl (failure "Response appears truncated - file content too large. Try making smaller changes.")
      else inl (failure ("Failed to parse LLM response as JSON: "
                         ++ Js.substring0 500 content ++ "..."))
  | Some Js.VNull => inr NULL_PROPERTY
  | Some parsed =>
      if negb (Js.is_undefined (Js.get parsed "done")) then
        inl (mkLlm true
               (Js.VObj [ ("done", Js.VBool true);
                          ("result", Js.get parsed "result");
                          ("summary", Js.get parsed "summary") ])
               Js.VUndefined false)
      else if Js.truthy_value (Js.get parsed "plan") then
        inl (mkLlm true
               (Js.VObj [ ("plan", Js.get parsed "plan") ])
               Js.VUndefined false)
      else if Js.truthy_value (Js.get parsed "tool")
              && negb (Js.is_undefined (Js.get parsed "args")) then
        inl (mkLlm true
               (Js.VObj [ ("tool", Js.get parsed "tool");
                          ("args", Js.get parsed "args") ])
               Js.VUndefined false)
      else
        inl (failure ("Invalid response structure: " ++ content))
  end.

(** The test [decode] applies to a parsed value before it returns
    success. *)
Definition accepts (parsed : Js.value) : bool :=
  Js.has parsed "done"
  || Js.truthy_value (Js.get parsed "plan")
  || (Js.truthy_value (Js.get parsed "tool") && Js.has parsed "args").

(** The action [decode] builds from a value it accepts: a [done] action
    when the value has a [done] property, else a plan when its [plan]
    is truthy, else a tool call. *)
Definition decoded_from (p action : Js.value) : Prop :=
  (Js.has p "done" = true /\
   action = Js.VObj [ ("done", Js.VBool true);
                      ("result", Js.get p "result");
                      ("summary", Js.get p "summary") ])
  \/ (Js.has p "done" = false /\
      Js.truthy_value (Js.get p "plan") = true /\
      action = Js.VObj [ ("plan", Js.get p "plan") ])
  \/ (Js.has p "done" = false /\
      Js.truthy_value (Js.get p "plan") = false /\
      Js.truthy_value (Js.get p "tool") = true /\
      Js.has p "args" = true /\
      action = Js.VObj [ ("tool", Js.get p "tool");
                         ("args", Js.get p "args") ]).

(** The three valid shapes, in the specification's words: [{plan:
    [steps]}], [{tool: name, args: map}], [{done: true, result:
    string}], and an object of one shape carries no key of another. *)
Definition plan_shape (v : Js.value) : bool :=
  Js.is_array (Js.get v "plan")
  && negb (Js.has v "tool") && negb (Js.has v "done").

Definition tool_shape (v : Js.value) : bool :=
  match Js.get v "tool", Js.get v "args" with
  | Js.VStr _, Js.VObj _ => negb (Js.has v "plan") && negb (Js.has v "done")
  | _, _ => false
  end.

Definition done_shape (v : Js.value) : bool :=
  match Js.get v "done", Js.get v "result" with
  | Js.VBool true, Js.VStr _ => negb (Js.has v "plan") && negb (Js.has v "tool")
  | _, _ => false
  end.

Definition valid_shape (v : Js.value) : bool :=
  plan_shape v || tool_shape v || done_shape v.

Section WithEndpoint.

(** The endpoint: [fetch_completion w model messages] is one [fetch] of
    [OPENAI_API_URL] with the request body built from the model name and
    the messages. *)
Variable World : Type.
Variable fetch_completion : World -> string -> list Message -> World * FetchOutcome.

(** [JSON.stringify(v, null, 2)] *)
Variable JSON_stringify_pretty : Js.value -> string.

(** One pass of the body of the retry loop: [inl] is a [return], [inr]
    asks for the next attempt ([continue], or the [catch] that sleeps). *)
Definition attempt_once (model : string) (messages : list Message)
    (attempt maxRetries : nat) (w : World) : World * (LlmResult + unit) :=
  let '(w', outcome) := fetch_completion w model messages in
  let on_throw (message : string) : LlmResult + unit :=
    if (attempt =? maxRetries)%nat then inl (failure message) else inr tt in
  match outcome with
  | Rejected message => (w', on_throw message)
  | NotOk status errorText =>
      if (status =? 404)%Z then
        (w', inl (mkLlm false Js.VUndefined
                    (Js.VStr ("Model " ++ model ++ " not found")) true))
      else if (status =? 429)%Z then
        if (attempt <? maxRetries)%nat then (w', inr tt)
        else (w', on_throw BODY_USED)
      else if Js.includes errorText "does not exist"
              || Js.includes errorText "model_not_found" then
        (w', inl (mkLlm false Js.VUndefined
                    (Js.VStr ("Model " ++ model ++ " not available")) true))
      else
        (w', inl (failure ("OpenAI API error: " ++ Js.string_of_Z status
                           ++ " - " ++ errorText)))
  | Completion content finishReason parsed =>
      if negb (Js.truthy content) then
        (w', inl (failure "No content in OpenAI response"))
      else if match finishReason with
              | Some r => r =? "length"
              | None => false
              end then
        (w', inl (failure "Response truncated - file content too large. Try making smaller, targeted changes."))
      else
        match decode (match content with Some c => c | None => "" end) parsed with
        | inl r => (w', inl r)
        | inr message => (w', on_throw message)
        end
  end.

(** [for (let attempt = 1; attempt <= maxRetries; attempt++)], with
    [remaining] the number of passes left. *)
Fixpoint retry_loop (remaining : nat) (model : string)
    (messages : list Message) (attempt maxRetries : nat) (w : World)
    : World * LlmResult :=
  match remaining with
  | O => (w, failure "Max retries exceeded")
  | S remaining' =>
      match attempt_once model messages attempt maxRetries w with
      | (w', inl r) => (w', r)
      | (w', inr _) =>
          retry_loop remaining' model messages (S attempt) maxRetries w'
      end
  end.

Definition tryModel (messages : list Message) (model : string)
    (maxRetries : nat) (w : World) : World * LlmResult :=
  retry_loop maxRetries model messages 1 maxRetries w.

(** The [for (const currentModel of modelsToTry)] loop of [callLLM]. *)
Fixpoint try_models (modelsToTry : list string) (messages : list Message)
    (maxRetries : nat) (w : World) : World * LlmResult :=
  match modelsToTry with
  | [] => (w, failure "All models failed")
  | currentModel :: rest =>
      let '(w', result) := tryModel messages currentModel maxRetries w in
      if llm_success result || negb (modelNotFound result) then (w', result)
      else try_models rest messages maxRetries w'
  end.

(** [callLLM(apiKey, messages, model = DEFAULT_MODEL, maxRetries = 3)] *)
Definition callLLM (apiKey : option string) (messages : list Message)
    (model : string) (maxRetries : nat) (w : World) : World * LlmResult :=
  if negb (Js.truthy apiKey) then (w, failure "OPENAI_API_KEY not provided")
  else
    let modelsToTry :=
      if model =? FALLBACK_MODEL then [model] else [model; FALLBACK_MODEL] in
    try_models modelsToTry messages maxRetries w.

(** The endpoint with a counter beside the world: every [fetch] adds
    one. *)
Definition counted_fetch (w : World * nat) (model : string)
    (messages : list Message) : (World * nat) * FetchOutcome :=
  let '(w', outcome) := fetch_completion (fst w) model messages in
  ((w', S (snd w)), outcome).

(** The test both [formatToolResult] and the loop apply to a result. *)
Definition isError (result : ToolResult) : bool :=
  negb (success result) ||
  (negb (Js.is_undefined (Js.get (data result) "exitCode"))
   && negb (Js.strict_eq_num (Js.get (data result) "exitCode") 0)).

Definition formatToolResult (toolName : Js.value) (result : ToolResult) : Message :=
  let content :=
    if isError result
       && negb (Js.is_undefined (Js.get (data result) "exitCode")) then
      WARNING ++ " COMMAND FAILED (exitCode="
      ++ Js.to_string (Js.get (data result) "exitCode") ++ ")" ++ Js.LF
      ++ "Command: "
      ++ Js.to_string (Js.or_value (Js.get (data result) "command") toolName)
      ++ Js.LF
      ++ "Stdout: "
      ++ Js.to_string (Js.or_value (Js.get (data result) "stdout") (Js.VStr "(empty)"))
      ++ Js.LF
      ++ "Stderr: "
      ++ Js.to_string (Js.or_value (Js.get (data result) "stderr") (Js.VStr "(empty)"))
      ++ Js.LF ++ Js.LF
      ++ "You MUST fix the error before marking done."
    else if negb (success result) then
      WARNING ++ " TOOL ERROR: " ++ Js.to_string (error result) ++ Js.LF
      ++ "You may need to try a different approach."
    else
      "Tool " ++ Js.quote (Js.to_string toolName)
      ++ " succeeded:" ++ Js.LF ++ JSON_stringify_pretty (data result) in
  mkMessage "user" content.

End WithEndpoint.

Definition formatGoal (goal : string) : Message :=
  mkMessage "user"
    ("GOAL: " ++ goal ++ Js.LF ++ Js.LF
     ++ "First, provide a plan with concrete steps. Then execute each step.").

(** [x === null ? "not run" : x ? "passed" : "failed"] *)
Definition tri_state (v : Js.value) : string :=
  match v with
  | Js.VNull => "not run"
  | _ => if Js.truthy_value v then "passed" else "failed"
  end.

Definition formatStateSummary (state : State.t) : Message :=
  mkMessage "user"
    ("CURRENT STATE:" ++ Js.LF
     ++ "- Files changed: "
     ++ (let joined := Js.join ", " (State.changed_files state) in
         if joined =? "" then "none" else joined)
     ++ Js.LF
     ++ "- Build: " ++ tri_state (State.build_success (State.build state)) ++ Js.LF
     ++ "- Verification: "
     ++ tri_state (State.verification_success (State.verification state)) ++ Js.LF
     ++ "- Iteration: "
     ++ Js.string_of_Z (Z.of_nat (State.count (State.iteration state)))
     ++ "/" ++ Js.string_of_Z (Z.of_nat (State.max (State.iteration state)))
     ++ Js.LF
     ++ "- Repairs: "
     ++ Js.string_of_Z (Z.of_nat (State.repairs (State.iteration state)))).

End Llm.

(* ================================================================== *)
(** ** tools/index.js and agent/index.js                              *)
(* ================================================================== *)

Module Agent.

Definition MAX_STEPS : nat := 15.

(** The own property names of the object [getAllTools()] returns. *)
Definition allTools : Js.flag_object :=
  map (fun name => (name, true))
    [ "write_file"; "read_file"; "list_files"; "search_files";
      "git_clone"; "git_status"; "git_diff"; "git_add"; "git_commit";
      "git_push"; "git_create_pr"; "git_stash_backup";
      "git_restore_backup"; "git_clear_backup"; "git_log";
      "npm_install"; "run_build"; "run_lint"; "check_build_output";
      "run_command";
      "verify_url" ].

(** How a call of a tool function ends: it returns its result, or it
    throws (a statement outside the tool's own [try]). *)
Inductive ToolOutcome : Type :=
| Returned (result : ToolResult)
| Threw (message : string).

(** The [switch (toolName)] of [executeToolWithArgs]: the positional
    arguments of the call, [None] for the [default] branch. *)
Definition call_arguments (toolName : string) (args : Js.value)
    : option (list Js.value) :=
  let arg := Js.get args in
  let dflt (v d : Js.value) := Js.or_value v d in
  if toolName =? "write_file" then Some [arg "path"; arg "content"]
  else if toolName =? "read_file" then Some [arg "path"]
  else if toolName =? "list_files" then
    Some [dflt (arg "dir") (dflt (arg "path") (Js.VStr "."))]
  else if toolName =? "search_files" then
    Some [arg "query"; dflt (arg "path") (Js.VStr ".")]
  else if toolName =? "git_clone" then
    Some [arg "url"; dflt (arg "targetDir") (Js.VStr ".")]
  else if toolName =? "git_status" then Some []
  else if toolName =? "git_diff" then Some [arg "file"]
  else if toolName =? "git_add" then Some [dflt (arg "files") (Js.VStr ".")]
  else if toolName =? "git_commit" then Some [arg "message"]
  else if toolName =? "git_push" then Some [dflt (arg "branch") (Js.VStr "main")]
  else if toolName =? "git_create_pr" then
    Some [arg "title"; dflt (arg "body") (Js.VStr "")]
  else if toolName =? "git_stash_backup" then Some []
  else if toolName =? "git_restore_backup" then Some []
  else if toolName =? "git_clear_backup" then Some []
  else if toolName =? "git_log" then Some [dflt (arg "count") (Js.VNum 5)]
  else if toolName =? "npm_install" then Some []
  else if toolName =? "run_build" then Some []
  else if toolName =? "run_lint" then Some []
  else if toolName =? "start_dev_server" then
    Some [dflt (arg "port") (Js.VNum 3000)]
  else if toolName =? "stop_dev_server" then Some []
  else if toolName =? "check_dev_server" then
    Some [dflt (arg "path") (Js.VStr "/")]
  else if toolName =? "check_build_output" then Some []
  else if toolName =? "run_command" then
    Some [arg "command"; dflt (arg "args") (Js.VArr [])]
  else if toolName =? "take_screenshot" then Some [args]
  else if toolName =? "verify_deployment" then Some [args]
  else if toolName =? "wait_for_dev_server" then Some [args]
  else if toolName =? "extract_page_content" then Some [args]
  else None.

(** The state updates at the end of [executeToolWithArgs]. *)
Definition update_state (toolName : Js.value) (args : Js.value)
    (result : ToolResult) (st : State.t) : State.t :=
  let named name := Js.strict_eq_str toolName name in
  let d := data result in
  let st1 :=
    if named "run_build" then
      State.setBuildStatus (success result)
        (Js.or_value (Js.get d "errors") (Js.VArr []))
        (Js.get d "stdout") st
    else st in
  let st2 :=
    if named "start_dev_server" && success result then
      State.setDevServerStatus true (Js.get d "port") (Js.get d "pid") st1
    else st1 in
  let st3 :=
    if named "stop_dev_server" then
      State.setDevServerStatus false Js.VUndefined Js.VUndefined st2
    else st2 in
  let st4 :=
    if named "check_dev_server" then
      State.setVerificationStatus (success result)
        [(Js.or_value (Js.get args "path") (Js.VStr "/"), success result)] st3
    else st3 in
  let st5 :=
    if named "git_commit" && success result then
      State.setGitStatus true false (Js.get d "commit_hash")
        Js.VUndefined Js.VUndefined st4
    else st4 in
  let st6 :=
    if named "git_push" && success result then
      State.setGitStatus true true (State.commit_hash (State.git st5))
        (Js.get d "branch") Js.VUndefined st5
    else st5 in
  if named "git_create_pr" && success result then
    State.setGitStatus true true (State.commit_hash (State.git st6))
      (Js.get d "branch") (Js.get d "pr_url") st6
  else st6.

(** The [Git:] line of the summary [main] prints:
    [pushed ? "pushed" : committed ? "committed" : "uncommitted"]. *)
Definition final_git_line (st : State.t) : string :=
  if State.pushed (State.git st) then "pushed"
  else if State.committed (State.git st) then "committed"
  else "uncommitted".

(** A tool invocation as the state sees it: the tool's name, the
    arguments and the result. *)
Record Invocation : Type := mkInvocation {
  inv_tool : Js.value;
  inv_args : Js.value;
  inv_result : ToolResult
}.

(** The state after a sequence of tool invocations. *)
Definition run_updates (st : State.t) (calls : list Invocation) : State.t :=
  fold_left
    (fun st c => update_state (inv_tool c) (inv_args c) (inv_result c) st)
    calls st.

Section WithWorld.

Variable World : Type.

(** The LLM endpoint, see [Llm.fetch_completion]. *)
Variable fetch_completion :
  World -> string -> list Llm.Message -> World * Llm.FetchOutcome.

(** [allTools[toolName](...)]: the call of a tool function on its
    positional arguments. *)
Variable call_tool : World -> string -> list Js.value -> World * ToolOutcome.

(** [JSON.stringify(v)] and [JSON.stringify(v, null, 2)] *)
Variable JSON_stringify : Js.value -> string.
Variable JSON_stringify_pretty : Js.value -> string.

(** [process.env.OPENAI_API_KEY] and [process.env.OPENAI_MODEL] *)
Variable OPENAI_API_KEY : option string.
Variable OPENAI_MODEL : option string.

Definition executeToolWithArgs (toolName : Js.value) (args : Js.value)
    (w : World) (st : State.t) : World * State.t * ToolOutcome :=
  if negb (Js.property_truthy allTools (Js.to_string toolName)) then
    (w, st,
     Returned (mkResult false Js.VUndefined
                 (Js.VStr ("Unknown tool: " ++ Js.to_string toolName))))
  else
    let st0 :=
      if Js.strict_eq_str toolName "write_file"
         && Js.truthy_value (Js.get args "path")
      then State.addChangedFile (Js.get args "path") st
      else st in
    let '(w', outcome) :=
      match toolName with
      | Js.VStr name =>
          match call_arguments name args with
          | Some argv => call_tool w name argv
          | None =>
              (w, Returned (mkResult false Js.VUndefined
                              (Js.VStr ("Unhandled tool: " ++ name))))
          end
      | _ =>
          (w, Returned (mkResult false Js.VUndefined
                          (Js.VStr ("Unhandled tool: " ++ Js.to_string toolName))))
      end in
    match outcome with
    | Returned result => (w', update_state toolName args result st0, outcome)
    | Threw _ => (w', st0, outcome)
    end.

(** The tool functions beside a counter that they leave alone. *)
Definition uncounted_tool (w : World * nat) (name : string)
    (argv : list Js.value) : (World * nat) * ToolOutcome :=
  let '(w', outcome) := call_tool (fst w) name argv in
  ((w', snd w), outcome).

(** A value that some answer of the endpoint parsed to. *)
Definition fetched (p : Js.value) : Prop :=
  exists w model messages content finishReason,
    snd (fetch_completion w model messages)
    = Llm.Completion content finishReason (Some p).

(** Why the [while] loop of [main] was left. *)
Inductive Exit : Type :=
| ExitDone                 (* [action.done]: [done = true; break] *)
| ExitBudget               (* the loop condition failed *)
| ExitLlmFailure           (* [!response.success]: [break] *)
| ExitInvalidResponse      (* [!action.tool]: [break] *)
| ExitUncaught (message : string).  (* an exception left [main] *)

(** The variables of [main] that the loop changes, with the number of
    passes made so far. *)
Record Loop : Type := mkLoop {
  world : World;
  state : State.t;
  messages : list Llm.Message;
  done : bool;
  finalResult : Js.value;
  passes : nat
}.

(** One pass of the loop body: [inl] when the pass ends with [break] or
    with an exception, [inr] when control returns to the loop
    condition. *)
Definition loop_body (l : Loop) : (Exit * Loop) + Loop :=
  let st1 := State.incrementIteration (state l) in
  let step := State.count (State.iteration st1) in
  let n := S (passes l) in
  let '(w1, response) :=
    Llm.callLLM World fetch_completion OPENAI_API_KEY (messages l)
      (Llm.DEFAULT_MODEL OPENAI_MODEL) 3 (world l) in
  if negb (Llm.llm_success response) then
    inl (ExitLlmFailure,
         mkLoop w1 (State.addIterationError (Llm.llm_error response) st1)
           (messages l) (done l) (finalResult l) n)
  else
    let action := Llm.llm_data response in
    if Js.truthy_value (Js.get action "plan") then
      match Js.get action "plan" with
      | Js.VArr _ =>
          inr (mkLoop w1 (State.setPlan (Js.get action "plan") st1)
                 (messages l
                  ++ [ Llm.mkMessage "assistant" (JSON_stringify action);
                       Llm.mkMessage "user"
                         "Execute the plan step by step. Start with step 1." ])%list
                 (done l) (finalResult l) n)
      | _ =>
          inl (ExitUncaught "action.plan.forEach is not a function",
               mkLoop w1 st1 (messages l) (done l) (finalResult l) n)
      end
    else if Js.truthy_value (Js.get action "done") then
      inl (ExitDone,
           mkLoop w1 st1 (messages l) true (Js.get action "result") n)
    else if negb (Js.truthy_value (Js.get action "tool")) then
      inl (ExitInvalidResponse,
           mkLoop w1 (State.addIterationError (Js.VStr "Invalid LLM response") st1)
             (messages l) (done l) (finalResult l) n)
    else
      let toolName := Js.get action "tool" in
      let '(w2, st2, outcome) :=
        executeToolWithArgs toolName
          (Js.or_value (Js.get action "args") (Js.VObj [])) w1 st1 in
      match outcome with
      | Threw message =>
          inl (ExitUncaught message,
               mkLoop w2 st2 (messages l) (done l) (finalResult l) n)
      | Returned toolResult =>
          let st3 :=
            if Llm.isError toolResult then
              State.addIterationError
                (Js.or_value (error toolResult)
                   (Js.VStr (Js.to_string toolName ++ " failed")))
                st2
            else st2 in
          let messages1 :=
            (messages l
             ++ [ Llm.mkMessage "assistant" (JSON_stringify action);
                  Llm.formatToolResult JSON_stringify_pretty toolName toolResult ])%list in
          let messages2 :=
            if (step mod 3 =? 0)%nat
            then (messages1 ++ [Llm.formatStateSummary st3])%list
            else messages1 in
          inr (mkLoop w2 st3 messages2 (done l) (finalResult l) n)
      end.

(** The passes of the loop body, case by case: what [loop_body]
    returns, given the answer of [callLLM] and, for a tool call, the
    outcome of the tool. *)
Inductive pass_case (l : Loop) : (Exit * Loop) + Loop -> Prop :=
| pass_llm_failure w1 response :
    Llm.llm_success response = false ->
    pass_case l
      (inl (ExitLlmFailure,
            mkLoop w1
              (State.addIterationError (Llm.llm_error response)
                 (State.incrementIteration (state l)))
              (messages l) (done l) (finalResult l)
              (S (passes l))))
| pass_plan w1 p steps :
    fetched p ->
    Js.get p "plan" = Js.VArr steps ->
    pass_case l
      (inr (mkLoop w1
              (State.setPlan (Js.VArr steps)
                 (State.incrementIteration (state l)))
              (messages l
               ++ [ Llm.mkMessage "assistant"
                      (JSON_stringify (Js.VObj [("plan", Js.VArr steps)]));
                    Llm.mkMessage "user"
                      "Execute the plan step by step. Start with step 1." ])%list
              (done l) (finalResult l) (S (passes l))))
| pass_plan_not_array w1 p :
    fetched p ->
    Js.truthy_value (Js.get p "plan") = true ->
    Js.is_array (Js.get p "plan") = false ->
    pass_case l
      (inl (ExitUncaught "action.plan.forEach is not a function",
            mkLoop w1 (State.incrementIteration (state l))
              (messages l) (done l) (finalResult l)
              (S (passes l))))
| pass_done w1 result :
    pass_case l
      (inl (ExitDone,
            mkLoop w1 (State.incrementIteration (state l))
              (messages l) true result (S (passes l))))
| pass_tool_threw w2 st2 message :
    (exists w name argv, call_tool w name argv = (w2, Threw message)) ->
    State.iteration st2 = State.iteration (State.incrementIteration (state l)) ->
    pass_case l
      (inl (ExitUncaught message,
            mkLoop w2 st2 (messages l) (done l)
              (finalResult l) (S (passes l))))
| pass_tool_returned w2 st2 action toolName toolResult :
    State.iteration st2 = State.iteration (State.incrementIteration (state l)) ->
    pass_case l
      (inr (mkLoop w2
              (if Llm.isError toolResult then
                 State.addIterationError
                   (Js.or_value (error toolResult)
                      (Js.VStr (Js.to_string toolName ++ " failed")))
                   st2
               else st2)
              (let messages1 :=
                 (messages l
                  ++ [ Llm.mkMessage "assistant" (JSON_stringify action);
                       Llm.formatToolResult JSON_stringify_pretty toolName
                         toolResult ])%list in
               if (S (State.count (State.iteration (state l))) mod 3 =? 0)%nat
               then (messages1
                     ++ [Llm.formatStateSummary
                           (if Llm.isError toolResult then
                              State.addIterationError
                                (Js.or_value (error toolResult)
                                   (Js.VStr (Js.to_string toolName ++ " failed")))
                                st2
                            else st2)])%list
               else messages1)
              (done l) (finalResult l) (S (passes l)))).

(** [while (state.get().iteration.count < MAX_STEPS && !done) { ... }].
    [fuel] bounds the number of times the condition is evaluated;
    [None] only when it runs out. *)
Fixpoint agent_loop (fuel : nat) (l : Loop) : option (Exit * Loop) :=
  match fuel with
  | O => None
  | S fuel' =>
      if (State.count (State.iteration (state l)) <? MAX_STEPS)%nat
         && negb (done l)
      then
        match loop_body l with
        | inl stopped => Some stopped
        | inr l' => agent_loop fuel' l'
        end
      else Some (ExitBudget, l)
  end.

(** The start of [main] up to the loop: the state is reset, the
    budget and the goal are stored, and the history starts with the
    goal.  [w] is the world after the optional dependency install. *)
Definition initial_loop (goal : string) (w : World) : Loop :=
  mkLoop w
    (State.setGoal goal (State.update_iteration_max MAX_STEPS State.reset))
    [Llm.formatGoal goal] false Js.VNull 0.

End WithWorld.

Arguments pass_case {World} fetch_completion call_tool JSON_stringify
  JSON_stringify_pretty l _.

End Agent.

(* ================================================================== *)
(** ** Facts about strings and paths                                  *)
(* ================================================================== *)

Module StringFacts.

Lemma app_empty_r (s : string) : s ++ "" = s.
Proof. induction s as [|c s IH]; simpl; [reflexivity | now rewrite IH]. Qed.

Lemma app_assoc (a b c : string) : (a ++ b) ++ c = a ++ b ++ c.
Proof. induction a as [|x a IH]; simpl; [reflexivity | now rewrite IH]. Qed.

Lemma length_app (a b : string) :
  String.length (a ++ b) = String.length a + String.length b.
Proof. induction a as [|x a IH]; simpl; [reflexivity | now rewrite IH]. Qed.

Lemma length_repeat_unit (c : ascii) (n : nat) :
  String.length (Js.repeat (String c "") n) = n.
Proof. induction n as [|n IH]; simpl; [reflexivity | now rewrite IH]. Qed.

Lemma app_eq_empty (a b : string) : a ++ b = "" -> a = "" /\ b = "".
Proof. destruct a; simpl; [auto | discriminate]. Qed.

Lemma prefix_empty (b : string) : String.prefix "" b = true.
Proof. now destruct b. Qed.

Lemma prefix_cons (x y : ascii) (a b : string) :
  String.prefix (String x a) (String y b) =
  if Ascii.ascii_dec x y then String.prefix a b else false.
Proof. reflexivity. Qed.

Lemma prefix_exists (a b : string) :
  String.prefix a b = true <-> exists c, b = a ++ c.
Proof.
  revert b. induction a as [|x a IH]; intros b.
  - rewrite prefix_empty. split; [intros _; now exists b | reflexivity].
  - destruct b as [|y b].
    + split; [discriminate | intros [c Hc]; discriminate].
    + rewrite prefix_cons. destruct (Ascii.ascii_dec x y) as [->|Hxy].
      * rewrite IH. split; intros [c Hc]; exists c; [now rewrite Hc | now inversion Hc].
      * split; [discriminate | intros [c Hc]; simpl in Hc; congruence].
Qed.

Lemma prefix_app_cases (a b c : string) :
  String.prefix a (b ++ c) = true ->
  String.prefix a b = true \/ exists d, a = b ++ d /\ String.prefix d c = true.
Proof.
  revert a. induction b as [|y b IH]; intros a H.
  - right. now exists a.
  - destruct a as [|x a]; [now left|].
    change (String y b ++ c) with (String y (b ++ c)) in H.
    rewrite prefix_cons in *.
    destruct (Ascii.ascii_dec x y) as [->|Hxy]; [|discriminate].
    destruct (IH _ H) as [Hp | [d [Hd Hp]]]; [now left|].
    right. exists d. now rewrite Hd.
Qed.

Lemma snoc_inj (a b : string) (c : ascii) :
  a ++ String c "" = b ++ String c "" -> a = b.
Proof.
  revert b. induction a as [|x a IH]; intros [|y b] H; simpl in *.
  - reflexivity.
  - inversion H as [[Hc Hb]]. symmetry in Hb.
    apply app_eq_empty in Hb. destruct Hb; discriminate.
  - inversion H as [[Hc Ha]]. apply app_eq_empty in Ha. destruct Ha; discriminate.
  - inversion H. f_equal. now apply IH.
Qed.

Lemma endsWith_unfold (s t : string) :
  Js.endsWith s t =
  (s =? t) || match s with EmptyString => false | String _ r => Js.endsWith r t end.
Proof. now destruct s. Qed.

Lemma endsWith_refl (t : string) : Js.endsWith t t = true.
Proof. rewrite endsWith_unfold, String.eqb_refl. reflexivity. Qed.

Lemma endsWith_snoc (a t : string) : Js.endsWith (a ++ t) t = true.
Proof.
  induction a as [|x a IH].
  - apply endsWith_refl.
  - change (String x a ++ t) with (String x (a ++ t)).
    rewrite endsWith_unfold, IH. apply orb_true_r.
Qed.

Lemma endsWith_app_nonempty (a b : string) (c : ascii) :
  b <> "" -> Js.endsWith (a ++ b) (String c "") = Js.endsWith b (String c "").
Proof.
  intros Hb. induction a as [|x a IH]; [reflexivity|].
  change (String x a ++ b) with (String x (a ++ b)).
  rewrite endsWith_unfold, IH. destruct (a ++ b) as [|y r] eqn:E.
  - apply app_eq_empty in E. destruct E; contradiction.
  - replace (String x (String y r) =? String c "") with false; [reflexivity|].
    symmetry. apply String.eqb_neq. congruence.
Qed.

End StringFacts.

Module PathFacts.

Import StringFacts.

Lemma split_not_nil (c : ascii) (s : string) : Js.split c s <> [].
Proof.
  destruct s as [|x s]; simpl; [discriminate|].
  destruct (Ascii.eqb x c); [discriminate|].
  destruct (Js.split c s); discriminate.
Qed.

Lemma split_no_trailing_sep (s : string) :
  Forall (fun seg => Js.endsWith seg "/" = false) (Js.split "/" s).
Proof.
  induction s as [|x s IH]; simpl.
  - constructor; [reflexivity | constructor].
  - destruct (Ascii.eqb x "/") eqn:Ex.
    + constructor; [reflexivity | exact IH].
    + destruct (Js.split "/" s) as [|h t] eqn:Es.
      * exfalso. exact (split_not_nil _ _ Es).
      * inversion IH as [|? ? Hh Ht]; subst. constructor; [|exact Ht].
        rewrite endsWith_unfold, Hh, orb_false_r.
        apply String.eqb_neq. intros E. inversion E; subst.
        now rewrite Ascii.eqb_refl in Ex.
Qed.

Lemma normalize_step_clean (allow : bool) (stack : list string) (seg : string) :
  Forall Path.clean stack -> Js.endsWith seg "/" = false ->
  Forall Path.clean (Path.normalize_step allow stack seg).
Proof.
  intros Hs Hseg. unfold Path.normalize_step.
  destruct (seg =? "") eqn:E0; [exact Hs|].
  destruct (seg =? ".") eqn:E1; [exact Hs|]. simpl.
  assert (Hdd : Path.clean "..") by (split; [discriminate | reflexivity]).
  destruct (seg =? "..") eqn:E2.
  - destruct stack as [|top rest].
    + destruct allow; repeat constructor; auto; apply Hdd.
    + destruct (top =? ".."); [destruct allow; auto|].
      now inversion Hs.
  - constructor; [|exact Hs]. split; [|exact Hseg].
    now apply String.eqb_neq.
Qed.

Lemma fold_normalize_clean (allow : bool) (segs stack : list string) :
  Forall Path.clean stack ->
  Forall (fun seg => Js.endsWith seg "/" = false) segs ->
  Forall Path.clean (fold_left (Path.normalize_step allow) segs stack).
Proof.
  revert stack. induction segs as [|seg segs IH]; intros stack Hs Hsegs; simpl.
  - exact Hs.
  - inversion Hsegs; subst. apply IH; [|assumption].
    now apply normalize_step_clean.
Qed.

Lemma normalize_segments_clean (allow : bool) (path : string) :
  Forall Path.clean (Path.normalize_segments allow (Js.split "/" path)).
Proof.
  unfold Path.normalize_segments. apply Forall_rev.
  apply fold_normalize_clean; [constructor | apply split_no_trailing_sep].
Qed.

Lemma concat_clean (segs : list string) :
  Forall Path.clean segs -> segs <> [] ->
  String.concat "/" segs <> "" /\
  Js.endsWith (String.concat "/" segs) "/" = false.
Proof.
  induction segs as [|a segs IH]; intros Hc Hne; [contradiction|].
  inversion Hc as [|? ? [Ha1 Ha2] Hrest]; subst.
  destruct segs as [|b segs].
  - simpl. auto.
  - change (String.concat "/" (a :: b :: segs))
      with (a ++ "/" ++ String.concat "/" (b :: segs)).
    destruct (IH Hrest ltac:(discriminate)) as [IH1 IH2]. split.
    + intros E. apply app_eq_empty in E. destruct E; contradiction.
    + rewrite endsWith_app_nonempty by discriminate.
      change ("/" ++ String.concat "/" (b :: segs))
        with (String "/" (String.concat "/" (b :: segs))).
      rewrite endsWith_unfold, IH2, orb_false_r.
      apply String.eqb_neq. intros E. inversion E. contradiction.
Qed.

Lemma absolute_not_empty (p : string) : Path.isAbsolute p = true -> p <> "".
Proof. intros H E. subst. discriminate. Qed.

Lemma resolve_args_absolute (cwd : string) (args : list string) (acc : string) :
  Path.isAbsolute cwd = true ->
  snd (Path.resolve_args (args ++ [cwd])%list acc false) = true.
Proof.
  intros Hcwd. revert acc. induction args as [|p args IH]; intros acc; simpl.
  - destruct (cwd =? "") eqn:E.
    + apply String.eqb_eq in E. now apply absolute_not_empty in Hcwd.
    + rewrite Hcwd. reflexivity.
  - destruct (p =? ""); [apply IH|].
    destruct (Path.isAbsolute p) eqn:Ep; [|apply IH].
    now destruct (args ++ [cwd])%list.
Qed.

(** With an absolute working directory, [path.resolve] returns the
    separator followed by clean segments joined by the separator. *)
Lemma resolve_shape (cwd : string) (args : list string) :
  Path.isAbsolute cwd = true ->
  exists segs, Forall Path.clean segs /\
    Path.resolve cwd args = "/" ++ String.concat "/" segs.
Proof.
  intros Hcwd. unfold Path.resolve.
  pose proof (resolve_args_absolute cwd (rev args) "" Hcwd) as Habs.
  destruct (Path.resolve_args (rev args ++ [cwd])%list "" false) as [rp ra].
  simpl in Habs. subst ra. simpl.
  eexists. split; [apply normalize_segments_clean | reflexivity].
Qed.

Lemma resolve_starts_with_sep (cwd : string) (args : list string) :
  Path.isAbsolute cwd = true ->
  exists x, Path.resolve cwd args = String "/" x.
Proof.
  intros Hcwd. destruct (resolve_shape cwd args Hcwd) as [segs [_ ->]].
  now eexists.
Qed.

Lemma resolve_trailing_sep (cwd : string) (args : list string) :
  Path.isAbsolute cwd = true ->
  Js.endsWith (Path.resolve cwd args) "/" = true ->
  Path.resolve cwd args = "/".
Proof.
  intros Hcwd. destruct (resolve_shape cwd args Hcwd) as [segs [Hc ->]].
  destruct segs as [|a segs]; [reflexivity|].
  destruct (concat_clean (a :: segs) Hc ltac:(discriminate)) as [H1 H2].
  change ("/" ++ String.concat "/" (a :: segs))
    with (String "/" (String.concat "/" (a :: segs))).
  rewrite endsWith_unfold, H2, orb_false_r.
  intros E. apply String.eqb_eq in E. inversion E. contradiction.
Qed.

End PathFacts.

Module FilesystemFacts.

Import StringFacts PathFacts Filesystem.

(** What an accepted input has passed: the last test of [safePath]. *)
Lemma safePath_valid_inv (cwd root inputPath resolved : string) :
  safePath cwd root inputPath = Valid resolved ->
  resolved = Path.resolve cwd [root; inputPath] /\
  Js.includes inputPath Js.NUL = false /\
  ((resolved =? root) = true \/
   Js.startsWith
     (if Js.endsWith resolved "/" then resolved else resolved ++ "/")
     (if Js.endsWith root "/" then root else root ++ "/") = true).
Proof.
  unfold safePath. intros H.
  destruct (Js.includes inputPath Js.NUL); [discriminate|].
  destruct (suspicious_loop cwd root inputPath suspiciousPatterns); [discriminate|].
  cbv zeta in H. fold Path.sep in *.
  set (r := Path.resolve cwd [root; inputPath]) in *.
  destruct (r =? root) eqn:Eq; simpl in H.
  - inversion H; subst. rewrite Eq. auto.
  - unfold Path.sep in H.
    destruct (Js.startsWith (if Js.endsWith r "/" then r else r ++ "/")
                (if Js.endsWith root "/" then root else root ++ "/")) eqn:Ep;
      simpl in H; [|discriminate].
    inversion H; subst. auto.
Qed.

(** The last test of [safePath] implies confinement, for a root and a
    path that [path.resolve] produced. *)
Lemma boundary_test_confined (cwd root0 root resolved : string) (args : list string) :
  Path.isAbsolute cwd = true ->
  root = Path.resolve cwd [root0] ->
  resolved = Path.resolve cwd args ->
  (resolved =? root) = true \/
  Js.startsWith
    (if Js.endsWith resolved "/" then resolved else resolved ++ "/")
    (if Js.endsWith root "/" then root else root ++ "/") = true ->
  confined root resolved.
Proof.
  intros Hcwd Hroot Hres [Heq | Hpre].
  - left. now apply String.eqb_eq.
  - destruct (String.eqb_spec resolved root) as [E | Hne]; [now left | right].
    destruct (resolve_starts_with_sep cwd args Hcwd) as [x Hx].
    rewrite <- Hres in Hx.
    destruct (Js.endsWith root "/") eqn:Er.
    + (* the root is the file-system root *)
      assert (root = "/") as ->.
      { rewrite Hroot. apply resolve_trailing_sep; [assumption|]. now rewrite <- Hroot. }
      exists x. split; [exact Hx | split; [|left; reflexivity]].
      intros ->. apply Hne. exact Hx.
    + unfold Js.startsWith in Hpre.
      destruct (Js.endsWith resolved "/") eqn:Ee.
      * apply prefix_exists in Hpre. destruct Hpre as [y Hy].
        rewrite app_assoc in Hy. exists ("/" ++ y).
        split; [exact Hy | split; [discriminate | right]].
           apply prefix_exists. now exists y.
      * apply prefix_app_cases in Hpre.
        destruct Hpre as [Hp | [d [Hd Hp]]].
        -- apply prefix_exists in Hp. destruct Hp as [y Hy].
           rewrite app_assoc in Hy. exists ("/" ++ y).
           split; [exact Hy | split; [discriminate | right]].
           apply prefix_exists. now exists y.
        -- exfalso. destruct d as [|c d].
           ++ rewrite app_empty_r in Hd. rewrite <- Hd in Ee.
              now rewrite endsWith_snoc in Ee.
           ++ change "/" with (String "/" "") in Hp.
              rewrite prefix_cons in Hp.
              destruct (Ascii.ascii_dec c "/") as [->|]; [|discriminate].
              destruct d; [|discriminate].
              apply snoc_inj in Hd. apply Hne. now symmetry.
Qed.

(** Every path [safePath] accepts is the resolution of the input against
    the root and is confined to the root: no hypothesis on the input. *)
Lemma safePath_accepts_confined (cwd root0 inputPath resolved : string) :
  Path.isAbsolute cwd = true ->
  safePath cwd (initialize cwd root0) inputPath = Valid resolved ->
  resolved = Path.resolve cwd [initialize cwd root0; inputPath] /\
  confined (initialize cwd root0) resolved.
Proof.
  intros Hcwd H. apply safePath_valid_inv in H.
  destruct H as [Hr [_ Hcheck]]. split; [exact Hr|].
  eapply boundary_test_confined; eauto. reflexivity.
Qed.

(** The default root is one that [initialize] stores unchanged. *)
Lemma initialize_default_root (cwd : string) :
  initialize cwd default_root = default_root.
Proof. reflexivity. Qed.

Lemma safePath_null_byte (cwd root inputPath : string) :
  Js.includes inputPath Js.NUL = true ->
  safePath cwd root inputPath =
    Invalid "Path contains null bytes (security violation)".
Proof. intros H. unfold safePath. now rewrite H. Qed.

End FilesystemFacts.

(* ================================================================== *)
(** ** Plain relative paths                                           *)
(* ================================================================== *)

Module PlainPathFacts.

Import StringFacts PathFacts Filesystem.

Lemma concat_cons2 (sep a b : string) (l : list string) :
  String.concat sep (a :: b :: l) = a ++ sep ++ String.concat sep (b :: l).
Proof. reflexivity. Qed.

Lemma split_cons (c : ascii) (r : string) :
  Js.split "/" (String c r) =
  if Ascii.eqb c "/" then "" :: Js.split "/" r
  else match Js.split "/" r with
       | [] => [String c ""]
       | h :: t => String c h :: t
       end.
Proof. reflexivity. Qed.

Lemma split_app_sep (a b : string) :
  Js.split "/" (a ++ "/" ++ b) = (Js.split "/" a ++ Js.split "/" b)%list.
Proof.
  induction a as [|c a IH]; [reflexivity|].
  change (String c a ++ "/" ++ b) with (String c (a ++ "/" ++ b)).
  rewrite !split_cons, IH.
  destruct (Ascii.eqb c "/"); [reflexivity|].
  destruct (Js.split "/" a) as [|h t] eqn:E; [|reflexivity].
  exfalso. exact (split_not_nil _ _ E).
Qed.

Lemma concat_split (s : string) : String.concat "/" (Js.split "/" s) = s.
Proof.
  induction s as [|c s IH]; [reflexivity|]. rewrite split_cons.
  destruct (Js.split "/" s) as [|h t] eqn:E;
    [exfalso; exact (split_not_nil _ _ E)|].
  destruct (Ascii.eqb_spec c "/") as [->|Hc].
  - rewrite concat_cons2, IH. reflexivity.
  - destruct t as [|y l].
    + simpl in *. now rewrite IH.
    + rewrite concat_cons2 in *.
      change (String c (h ++ "/" ++ String.concat "/" (y :: l)) = String c s).
      now rewrite IH.
Qed.

Lemma includes_unfold (s t : string) :
  Js.includes s t =
  String.prefix t s
  || match s with EmptyString => false | String _ r => Js.includes r t end.
Proof. now destruct s. Qed.

Lemma split_sep_free (s : string) :
  Js.includes s "/" = false -> Js.split "/" s = [s].
Proof.
  induction s as [|c s IH]; [reflexivity|].
  rewrite includes_unfold. change "/" with (String "/" "") at 1.
  rewrite prefix_cons. intros H. apply orb_false_elim in H. destruct H as [H1 H2].
  simpl. destruct (Ascii.eqb_spec c "/") as [->|Hc].
  - destruct (Ascii.ascii_dec "/" "/"); [|contradiction].
    now rewrite prefix_empty in H1.
  - now rewrite (IH H2).
Qed.

Lemma normal_segment_inv (seg : string) :
  Path.normal_segment seg = true ->
  seg <> "" /\ seg <> "." /\ seg <> ".." /\ Js.includes seg "/" = false.
Proof.
  unfold Path.normal_segment. intros H.
  repeat (apply andb_prop in H; destruct H as [H ?]).
  repeat split;
    try (apply String.eqb_neq; now apply negb_true_iff);
    now apply negb_true_iff.
Qed.

Lemma split_concat (segs : list string) :
  Forall (fun seg => Path.normal_segment seg = true) segs -> segs <> [] ->
  Js.split "/" (String.concat "/" segs) = segs.
Proof.
  induction segs as [|a segs IH]; intros Hn Hne; [contradiction|].
  inversion Hn as [|? ? Ha Hrest]; subst.
  apply normal_segment_inv in Ha. destruct Ha as [_ [_ [_ Ha]]].
  destruct segs as [|b segs].
  - simpl. now apply split_sep_free.
  - rewrite concat_cons2, split_app_sep, (split_sep_free _ Ha).
    rewrite IH; [reflexivity | assumption | discriminate].
Qed.

Lemma split_pieces_sep_free (s : string) :
  Forall (fun seg => Js.includes seg "/" = false) (Js.split "/" s).
Proof.
  induction s as [|c s IH]; simpl.
  - repeat constructor.
  - destruct (Ascii.eqb_spec c "/") as [->|Hc].
    + constructor; [reflexivity | exact IH].
    + destruct (Js.split "/" s) as [|h t] eqn:E;
        [exfalso; exact (split_not_nil _ _ E)|].
      inversion IH as [|? ? Hh Ht]; subst. constructor; [|exact Ht].
      rewrite includes_unfold. change "/" with (String "/" "") at 1.
      rewrite prefix_cons. destruct (Ascii.ascii_dec "/" c) as [E'|_];
        [now subst | exact Hh].
Qed.

Lemma normalize_step_normal (stack : list string) (seg : string) :
  Forall (fun s => Path.normal_segment s = true) stack ->
  Js.includes seg "/" = false ->
  Forall (fun s => Path.normal_segment s = true)
    (Path.normalize_step false stack seg).
Proof.
  intros Hs Hseg. unfold Path.normalize_step.
  destruct (seg =? "") eqn:E0; [exact Hs|].
  destruct (seg =? ".") eqn:E1; [exact Hs|]. simpl.
  destruct (seg =? "..") eqn:E2.
  - destruct stack as [|top rest]; [constructor|].
    destruct (top =? ".."); [exact Hs | now inversion Hs].
  - constructor; [|exact Hs]. unfold Path.normal_segment.
    now rewrite E0, E1, E2, Hseg.
Qed.

Lemma fold_normalize_normal (segs stack : list string) :
  Forall (fun s => Path.normal_segment s = true) stack ->
  Forall (fun seg => Js.includes seg "/" = false) segs ->
  Forall (fun s => Path.normal_segment s = true)
    (fold_left (Path.normalize_step false) segs stack).
Proof.
  revert stack. induction segs as [|seg segs IH]; intros stack Hs Hsegs; simpl.
  - exact Hs.
  - inversion Hsegs; subst. apply IH; [|assumption].
    now apply normalize_step_normal.
Qed.

(** Normal segments are pushed as they come. *)
Lemma fold_normalize_push (segs stack : list string) :
  Forall (fun s => Path.normal_segment s = true) segs ->
  fold_left (Path.normalize_step false) segs stack = (rev segs ++ stack)%list.
Proof.
  revert stack. induction segs as [|seg segs IH]; intros stack Hn; simpl.
  - reflexivity.
  - inversion Hn as [|? ? Hs Hrest]; subst. rewrite (IH _ Hrest).
    apply normal_segment_inv in Hs. destruct Hs as [H0 [H1 [H2 _]]].
    unfold Path.normalize_step.
    apply String.eqb_neq in H0, H1, H2. rewrite H0, H1, H2. simpl.
    now rewrite <- List.app_assoc.
Qed.

(** With an absolute working directory, [path.resolve] returns the
    separator followed by normal segments joined by the separator. *)
Lemma resolve_normal_form (cwd : string) (args : list string) :
  Path.isAbsolute cwd = true ->
  exists segs,
    Forall (fun s => Path.normal_segment s = true) segs /\
    Path.resolve cwd args = "/" ++ String.concat "/" segs.
Proof.
  intros Hcwd. unfold Path.resolve.
  pose proof (resolve_args_absolute cwd (rev args) "" Hcwd) as Habs.
  destruct (Path.resolve_args (rev args ++ [cwd])%list "" false) as [rp ra].
  simpl in Habs. subst ra. simpl.
  eexists. split; [|reflexivity].
  unfold Path.normalize_segments. apply Forall_rev.
  apply fold_normalize_normal; [constructor | apply split_pieces_sep_free].
Qed.

Lemma plain_not_empty_not_absolute (p : string) :
  plain_relative p -> p <> "" /\ Path.isAbsolute p = false.
Proof.
  intros [Hn _]. destruct p as [|c p]; simpl in Hn.
  - inversion Hn as [|? ? H _]; discriminate.
  - split; [discriminate|]. unfold Path.isAbsolute, Js.startsWith.
    change "/" with (String "/" ""). rewrite prefix_cons.
    destruct (Ascii.ascii_dec "/" c) as [<-|]; [|reflexivity].
    simpl in Hn. inversion Hn as [|? ? H _]; discriminate.
Qed.

Lemma isAbsolute_sep (x : string) : Path.isAbsolute (String "/" x) = true.
Proof.
  unfold Path.isAbsolute, Js.startsWith. change "/" with (String "/" "").
  rewrite prefix_cons. destruct (Ascii.ascii_dec "/" "/"); [|contradiction].
  apply prefix_empty.
Qed.

Lemma resolve_args_relative (p x cwd : string) :
  p <> "" -> Path.isAbsolute p = false ->
  Path.resolve_args [p; String "/" x; cwd] "" false
  = (String "/" x ++ "/" ++ p ++ "/" ++ "", true).
Proof.
  intros Hne Hrel. apply String.eqb_neq in Hne.
  cbn [Path.resolve_args]. rewrite Hne, Hrel.
  replace (String "/" x =? "") with false by reflexivity.
  now rewrite isAbsolute_sep.
Qed.

Lemma concat_app (l1 l2 : list string) :
  l1 <> [] -> l2 <> [] ->
  String.concat "/" (l1 ++ l2)
  = String.concat "/" l1 ++ "/" ++ String.concat "/" l2.
Proof.
  induction l1 as [|x l1 IHl]; intros H1 H2; [contradiction|].
  destruct l1 as [|y l1].
  - destruct l2; [contradiction | reflexivity].
  - change ((x :: y :: l1) ++ l2)%list with (x :: y :: (l1 ++ l2))%list.
    rewrite !concat_cons2.
    change (y :: (l1 ++ l2))%list with ((y :: l1) ++ l2)%list.
    rewrite IHl by (try discriminate; assumption).
    now rewrite !app_assoc.
Qed.

(** Normalising the segments of a normalised root followed by those of
    a plain relative path keeps them all. *)
Lemma normalize_root_then_plain (rsegs psegs : list string) :
  Forall (fun s => Path.normal_segment s = true) rsegs ->
  Forall (fun s => Path.normal_segment s = true) psegs ->
  Path.normalize_segments false
    ("" :: (match rsegs with [] => [""] | _ => rsegs end) ++ psegs ++ [""])%list
  = (rsegs ++ psegs)%list.
Proof.
  intros Hr Hp. unfold Path.normalize_segments.
  assert (Hskip : forall stack, Path.normalize_step false stack "" = stack)
    by reflexivity.
  destruct rsegs as [|a rsegs].
  - cbn [app fold_left]. rewrite !Hskip, fold_left_app.
    rewrite (fold_normalize_push _ _ Hp). cbn [fold_left].
    rewrite Hskip, List.app_nil_r. apply rev_involutive.
  - cbn [fold_left]. rewrite Hskip, !fold_left_app.
    rewrite (fold_normalize_push _ _ Hr), (fold_normalize_push _ _ Hp).
    cbn [fold_left]. rewrite Hskip, List.app_nil_r.
    now rewrite <- rev_app_distr, rev_involutive.
Qed.

(** A plain relative path resolves to the root joined with it. *)
Lemma resolve_plain (cwd root0 p : string) :
  Path.isAbsolute cwd = true ->
  plain_relative p ->
  Path.resolve cwd [initialize cwd root0; p]
  = if initialize cwd root0 =? "/" then "/" ++ p
    else initialize cwd root0 ++ "/" ++ p.
Proof.
  intros Hcwd Hp.
  destruct (plain_not_empty_not_absolute p Hp) as [Hne Hrel].
  destruct Hp as [Hsegs _].
  unfold initialize.
  destruct (resolve_normal_form cwd [root0] Hcwd) as [rsegs [Hr Eroot]].
  rewrite Eroot.
  change ("/" ++ String.concat "/" rsegs)
    with (String "/" (String.concat "/" rsegs)).
  unfold Path.resolve. cbn [rev app].
  rewrite (resolve_args_relative _ _ _ Hne Hrel). cbn [negb].
  unfold Path.normalizeString.
  assert (Hsplit :
            Js.split "/" (String "/" (String.concat "/" rsegs)
                          ++ "/" ++ p ++ "/" ++ "")
            = ("" :: (match rsegs with [] => [""] | _ => rsegs end)
                  ++ Js.split "/" p ++ [""])%list).
  { rewrite !split_app_sep.
    change (String "/" (String.concat "/" rsegs))
      with ("" ++ "/" ++ String.concat "/" rsegs).
    rewrite split_app_sep. cbn [Js.split app].
    destruct rsegs as [|a rsegs]; [reflexivity|].
    rewrite split_concat; [reflexivity | assumption | discriminate]. }
  rewrite Hsplit, (normalize_root_then_plain _ _ Hr Hsegs).
  destruct rsegs as [|a rsegs].
  - cbn [app String.concat]. now rewrite concat_split.
  - assert (Hroot : (String "/" (String.concat "/" (a :: rsegs)) =? "/") = false).
    { apply String.eqb_neq. intros E. inversion E as [E'].
      destruct (concat_clean (a :: rsegs)) as [Hc _]; [|discriminate|contradiction].
      eapply Forall_impl; [|exact Hr]. intros s Hs.
      apply normal_segment_inv in Hs. destruct Hs as [H0 [_ [_ H3]]].
      split; [exact H0|].
      clear -H3. induction s as [|c s IH]; [reflexivity|].
      rewrite includes_unfold in H3. change "/" with (String "/" "") in H3 at 1.
      rewrite prefix_cons in H3. apply orb_false_elim in H3. destruct H3 as [H1 H2].
      rewrite endsWith_unfold, (IH H2), orb_false_r.
      apply String.eqb_neq. intros E. inversion E; subst.
      destruct (Ascii.ascii_dec "/" "/"); [|contradiction].
      now rewrite prefix_empty in H1. }
    rewrite Hroot. rewrite concat_app; [| discriminate | apply split_not_nil].
    rewrite concat_split.
    change (String "/" (String.concat "/" (a :: rsegs)) ++ "/" ++ p)
      with (String "/" (String.concat "/" (a :: rsegs) ++ "/" ++ p)).
    reflexivity.
Qed.

Lemma suspicious_loop_inside (cwd root inputPath : string)
    (patterns : list (string -> bool)) :
  Js.startsWith (Path.resolve cwd [root; inputPath]) (root ++ Path.sep) = true ->
  suspicious_loop cwd root inputPath patterns = false.
Proof.
  intros H. induction patterns as [|pattern rest IH]; [reflexivity|].
  simpl. rewrite H. simpl.
  now destruct (pattern inputPath && negb (Js.startsWith inputPath root)).
Qed.

Lemma startsWith_app (a b : string) : Js.startsWith (a ++ b) a = true.
Proof. unfold Js.startsWith. apply prefix_exists. now exists b. Qed.

(** Every plain relative path is accepted, as the root joined with it,
    under every root other than the file-system root. *)
Lemma safePath_accepts_plain (cwd root0 p : string) :
  Path.isAbsolute cwd = true ->
  plain_relative p ->
  initialize cwd root0 <> "/" ->
  safePath cwd (initialize cwd root0) p
  = Valid (initialize cwd root0 ++ "/" ++ p).
Proof.
  intros Hcwd Hp Hroot.
  pose proof (resolve_plain cwd root0 p Hcwd Hp) as Hres.
  apply String.eqb_neq in Hroot. rewrite Hroot in Hres.
  set (root := initialize cwd root0) in *.
  assert (Hend : Js.endsWith root "/" = false).
  { destruct (Js.endsWith root "/") eqn:E; [|reflexivity].
    apply String.eqb_neq in Hroot. exfalso. apply Hroot.
    now apply (resolve_trailing_sep cwd [root0] Hcwd). }
  assert (Hin : Js.startsWith (root ++ "/" ++ p) (root ++ "/") = true).
  { rewrite <- app_assoc. apply startsWith_app. }
  unfold safePath. destruct Hp as [_ Hnul]. rewrite Hnul.
  rewrite suspicious_loop_inside by (rewrite Hres; exact Hin).
  cbv zeta. rewrite Hres. unfold Path.sep. rewrite Hend.
  assert (Hin' : Js.startsWith
                   (if Js.endsWith (root ++ "/" ++ p) "/"
                    then root ++ "/" ++ p else (root ++ "/" ++ p) ++ "/")
                   (root ++ "/") = true).
  { destruct (Js.endsWith (root ++ "/" ++ p) "/"); [exact Hin|].
    rewrite <- (app_assoc root "/" p), app_assoc. apply startsWith_app. }
  rewrite Hin'. now rewrite andb_false_r.
Qed.

End PlainPathFacts.

Import Filesystem.

(** C1 (path confinement).  For every input that contains [../], is an
    absolute path, contains a null byte or starts with [~], [safePath]
    rejects unless the input resolved against the project root is the
    root or lies strictly under it at a separator boundary; an input
    with a null byte is rejected in any case.  A plain relative path is
    accepted and resolves to the root joined with it: [src/a.ts] under
    root [/proj] gives [/proj/src/a.ts].  The sibling [/proj-other/x]
    and the traversal [../../etc/passwd] are rejected.  The root is any
    value [initialize] can store, with an absolute working directory. *)
Theorem safePath_path_confinement :
  (forall cwd root0 inputPath,
      Path.isAbsolute cwd = true ->
      hostile inputPath ->
      ~ confined (initialize cwd root0)
          (Path.resolve cwd [initialize cwd root0; inputPath]) ->
      is_valid (safePath cwd (initialize cwd root0) inputPath) = false) /\
  (forall cwd root inputPath,
      Js.includes inputPath Js.NUL = true ->
      is_valid (safePath cwd root inputPath) = false) /\
  (forall cwd root0 inputPath,
      Path.isAbsolute cwd = true ->
      plain_relative inputPath ->
      initialize cwd root0 <> "/" ->
      safePath cwd (initialize cwd root0) inputPath
      = Valid (initialize cwd root0 ++ "/" ++ inputPath)) /\
  (forall cwd,
      initialize cwd "/proj" = "/proj" /\
      safePath cwd "/proj" "src/a.ts" = Valid "/proj/src/a.ts" /\
      is_valid (safePath cwd "/proj" "/proj-other/x") = false /\
      is_valid (safePath cwd "/proj" "../../etc/passwd") = false).
Proof.
  split; [|split; [|split]].
  - intros cwd root0 inputPath Hcwd _ Hout.
    destruct (safePath cwd (initialize cwd root0) inputPath) as [r|e] eqn:E;
      [|reflexivity].
    exfalso. apply Hout.
    destruct (FilesystemFacts.safePath_accepts_confined _ _ _ _ Hcwd E) as [-> Hc].
    exact Hc.
  - intros cwd root inputPath H.
    now rewrite FilesystemFacts.safePath_null_byte.
  - intros cwd root0 inputPath Hcwd Hp Hroot.
    now apply PlainPathFacts.safePath_accepts_plain.
  - intros cwd. repeat split; reflexivity.
Qed.

Lemma safePath_path_confinement_witness :
  (Path.isAbsolute "/home/agent" = true /\
   hostile "../../etc/passwd" /\
   ~ confined (initialize "/home/agent" "/proj")
       (Path.resolve "/home/agent"
          [initialize "/home/agent" "/proj"; "../../etc/passwd"]) /\
   is_valid (safePath "/home/agent" (initialize "/home/agent" "/proj")
               "../../etc/passwd") = false) /\
  (plain_relative "src/lib/constants.ts" /\
   initialize "/home/agent" "/proj" <> "/" /\
   safePath "/home/agent" (initialize "/home/agent" "/proj")
     "src/lib/constants.ts"
   = Valid "/proj/src/lib/constants.ts").
Proof.
  assert (Hout : ~ confined (initialize "/home/agent" "/proj")
      (Path.resolve "/home/agent"
         [initialize "/home/agent" "/proj"; "../../etc/passwd"])).
  { vm_compute. intros [H | [rest [H _]]]; discriminate H. }
  assert (Hk : hostile "../../etc/passwd") by (left; reflexivity).
  assert (Hp : plain_relative "src/lib/constants.ts")
    by (split; [repeat constructor | reflexivity]).
  assert (Hr : initialize "/home/agent" "/proj" <> "/") by discriminate.
  split.
  - split; [reflexivity | split; [exact Hk | split; [exact Hout|]]].
    exact (proj1 safePath_path_confinement "/home/agent" "/proj"
             "../../etc/passwd" eq_refl Hk Hout).
  - split; [exact Hp | split; [exact Hr|]].
    exact (proj1 (proj2 (proj2 safePath_path_confinement)) "/home/agent" "/proj"
             "src/lib/constants.ts" eq_refl Hp Hr).
Defined.

(* ================================================================== *)
(** ** The command gate                                               *)
(* ================================================================== *)

Module CommandFacts.

Import Command.

Lemma own_property_none (o : Js.flag_object) (key : string) :
  Js.own_property o key = None <-> ~ In key (map fst o).
Proof.
  induction o as [|[k v] o IH]; simpl.
  - tauto.
  - destruct (String.eqb_spec key k) as [->|Hne].
    + split; [discriminate | intros H; exfalso; apply H; now left].
    + rewrite IH. split; [intros H [E|E]; [now subst | tauto] | tauto].
Qed.

Lemma array_includes_false (arr : list string) (x : string) :
  Js.array_includes arr x = false <-> ~ In x arr.
Proof.
  unfold Js.array_includes. induction arr as [|a arr IH]; simpl.
  - tauto.
  - destruct (String.eqb_spec x a) as [->|Hne]; simpl.
    + split; [discriminate | intros H; exfalso; apply H; now left].
    + rewrite IH. split; [intros H [E|E]; [now subst | tauto] | tauto].
Qed.

(** Every value stored in the allow-list is [true]. *)
Lemma whitelist_values_true (key : string) (v : bool) :
  Js.own_property COMMAND_WHITELIST key = Some v -> v = true.
Proof.
  unfold COMMAND_WHITELIST. simpl.
  repeat (destruct (key =? _); [now intros [= <-]|]). discriminate.
Qed.

(** The verdict of the gate, in full. *)
Lemma isCommandAllowed_allowed_iff (command : string) :
  isCommandAllowed command = Allowed <->
  ~ In (normalize command) COMMAND_BLOCKLIST /\
  (In (normalize command) allow_list \/
   In (normalize command) Js.object_prototype_names).
Proof.
  unfold isCommandAllowed. cbv zeta.
  destruct (Js.array_includes COMMAND_BLOCKLIST (normalize command)) eqn:Eb.
  - split; [discriminate|]. intros [Hn _].
    apply array_includes_false in Hn. congruence.
  - apply array_includes_false in Eb. unfold Js.property_truthy.
    destruct (Js.own_property COMMAND_WHITELIST (normalize command)) as [v|] eqn:Eo.
    + rewrite (whitelist_values_true _ _ Eo). simpl.
      split; [intros _|reflexivity]. split; [exact Eb | left].
      unfold allow_list.
      destruct (in_dec string_dec (normalize command) (map fst COMMAND_WHITELIST))
        as [Hin|Hout]; [exact Hin|].
      apply own_property_none in Hout. congruence.
    + apply own_property_none in Eo.
      destruct (Js.array_includes Js.object_prototype_names (normalize command)) eqn:Ep;
        simpl.
      * split; [intros _|reflexivity]. split; [exact Eb | right].
        destruct (in_dec string_dec (normalize command) Js.object_prototype_names)
          as [Hin|Hout]; [exact Hin|].
        apply array_includes_false in Hout. congruence.
      * apply array_includes_false in Ep. split; [discriminate|].
        intros [_ [H|H]]; contradiction.
Qed.

End CommandFacts.

(** C2 as stated fails: the gate lower-cases and trims its argument
    before the lookup, so [NPM], which is not written in the allow-list,
    is allowed. *)
Lemma isCommandAllowed_not_closed_on_raw_strings :
  ~ In "NPM" Command.allow_list /\
  Command.isCommandAllowed "NPM" = Command.Allowed.
Proof.
  split; [|reflexivity].
  cbv. intuition discriminate.
Qed.

(** C2, amended (command gate closure).  For every command string whose
    lower-cased, trimmed form is not written in the allow-list and is
    not a property name inherited from [Object.prototype], the gate
    returns Blocked, whether or not the deny-list names it: the
    allow-list decides. *)
Theorem isCommandAllowed_closure :
  forall command,
    ~ In (Command.normalize command) Command.allow_list ->
    ~ In (Command.normalize command) Js.object_prototype_names ->
    exists reason,
      Command.isCommandAllowed command = Command.Blocked reason.
Proof.
  intros command Hw Hp.
  destruct (Command.isCommandAllowed command) as [|reason] eqn:E.
  - apply CommandFacts.isCommandAllowed_allowed_iff in E.
    destruct E as [_ [H|H]]; contradiction.
  - now exists reason.
Qed.

Lemma isCommandAllowed_closure_witness :
  ~ In (Command.normalize " Python3 ") Command.allow_list /\
  ~ In (Command.normalize " Python3 ") Js.object_prototype_names /\
  exists reason,
    Command.isCommandAllowed " Python3 " = Command.Blocked reason.
Proof.
  assert (Hw : ~ In (Command.normalize " Python3 ") Command.allow_list)
    by (cbv; intuition discriminate).
  assert (Hp : ~ In (Command.normalize " Python3 ") Js.object_prototype_names)
    by (cbv; intuition discriminate).
  split; [exact Hw | split; [exact Hp|]].
  exact (isCommandAllowed_closure " Python3 " Hw Hp).
Defined.

(** The lookup [COMMAND_WHITELIST[cmd]] also finds inherited properties:
    the two all-lower-case names of [Object.prototype] pass the gate. *)
Lemma isCommandAllowed_inherited_names :
  Command.isCommandAllowed "constructor" = Command.Allowed /\
  Command.isCommandAllowed "__proto__" = Command.Allowed.
Proof. split; reflexivity. Qed.

(* ================================================================== *)
(** ** The git tools                                                  *)
(* ================================================================== *)

Module GitFacts.

Import Git.

Lemma featureBranch_not_main (branch : string) (timestamp : Z) :
  featureBranch branch timestamp <> "main".
Proof.
  unfold featureBranch. destruct (String.eqb_spec branch "main") as [E|E].
  - discriminate.
  - exact E.
Qed.

Lemma digits_of_uint (d : Decimal.uint) :
  forallb (fun c => (48 <=? Ascii.nat_of_ascii c)%nat
                    && (Ascii.nat_of_ascii c <=? 57)%nat)
    (list_ascii_of_string (NilEmpty.string_of_uint d)) = true.
Proof. induction d; simpl; auto. Qed.

Lemma all_digits_of_uint (d : Decimal.uint) :
  all_digits (NilZero.string_of_uint d) = true.
Proof.
  unfold all_digits.
  destruct d; try reflexivity; simpl; apply digits_of_uint.
Qed.

Lemma all_digits_string_of_Z (n : Z) :
  (0 <= n)%Z -> all_digits (Js.string_of_Z n) = true.
Proof.
  intros Hn. unfold Js.string_of_Z.
  destruct n as [|p|p]; [reflexivity | | lia].
  apply all_digits_of_uint.
Qed.

Section WithGit.

Context {World : Type}.
Variable spawn : World -> list string -> World * ExecResult.
Variable GITHUB_TOKEN : option string.

Lemma execGit_issued (args : list string) (e : Env World) :
  issued (snd (execGit spawn args e)) = (issued e ++ [args])%list.
Proof. unfold execGit. now destruct (spawn (world e) args). Qed.

Lemma execGit_ref (args : list string) (e : Env World) :
  BACKUP_STASH_REF (snd (execGit spawn args e)) = BACKUP_STASH_REF e.
Proof. unfold execGit. now destruct (spawn (world e) args). Qed.

Lemma execGit_world (args : list string) (e : Env World) :
  world (snd (execGit spawn args e)) = fst (spawn (world e) args).
Proof. unfold execGit. now destruct (spawn (world e) args). Qed.

(** The invocations [git_push] issues, and its result. *)
Lemma git_push_trace (branch_arg : option string) (timestamp : Z) (e0 : Env World) :
  let branch := match branch_arg with Some b => b | None => "main" end in
  let fb := featureBranch branch timestamp in
  let r := git_push spawn GITHUB_TOKEN branch_arg timestamp e0 in
  (exists cmds,
      issued (snd r) = (issued e0 ++ cmds)%list /\
      filter is_push cmds = [["push"; "-u"; "origin"; fb]]) /\
  (success (fst r) = true -> Js.get (data (fst r)) "branch" = Js.VStr fb).
Proof.
  cbv zeta. unfold git_push. cbv zeta.
  set (branch := match branch_arg with Some b => b | None => "main" end).
  set (fb := featureBranch branch timestamp).
  destruct (execGit spawn ["checkout"; "-b"; fb] e0) as [checkoutResult e1] eqn:E1.
  assert (H1 : issued e1 = (issued e0 ++ [["checkout"; "-b"; fb]])%list).
  { pose proof (execGit_issued ["checkout"; "-b"; fb] e0) as H.
    now rewrite E1 in H. }
  match goal with
  | |- context [let '(_, _) := execGit spawn ["push"; "-u"; "origin"; fb] ?e in _] =>
      set (e3 := e)
  end.
  assert (H3 : exists mid, issued e3 = (issued e0 ++ mid)%list
                           /\ filter is_push mid = []).
  { subst e3.
    match goal with
    | |- context [if Js.truthy GITHUB_TOKEN then _ else ?e] => set (e2 := e)
    end.
    assert (H2 : exists mid, issued e2 = (issued e0 ++ mid)%list
                             /\ filter is_push mid = []).
    { subst e2.
      destruct (negb (exitCode checkoutResult =? 0)%Z
                && negb (Js.includes (stderr checkoutResult) "already exists")).
      - rewrite execGit_issued, H1, <- app_assoc. eexists. split; [reflexivity|].
        reflexivity.
      - rewrite H1. eexists. split; reflexivity. }
    destruct H2 as [mid [Hm Hf]].
    destruct (Js.truthy GITHUB_TOKEN); [|eauto].
    destruct (execGit spawn ["remote"; "get-url"; "origin"] e2)
      as [remoteResult e21] eqn:E21.
    assert (H21 : issued e21 = (issued e0 ++ mid ++ [["remote"; "get-url"; "origin"]])%list).
    { pose proof (execGit_issued ["remote"; "get-url"; "origin"] e2) as H.
      rewrite E21 in H. simpl in H. now rewrite H, Hm, <- app_assoc. }
    assert (Hf21 : filter is_push (mid ++ [["remote"; "get-url"; "origin"]]) = []).
    { rewrite filter_app, Hf. reflexivity. }
    destruct (exitCode remoteResult =? 0)%Z; [|eauto].
    destruct (Js.startsWith (Js.trim (stdout remoteResult)) "https://github.com/");
      [|eauto].
    rewrite execGit_issued, H21. rewrite <- !app_assoc.
    eexists. split; [reflexivity|].
    rewrite filter_app, Hf. reflexivity. }
  destruct H3 as [mid [Hm Hf]].
  destruct (execGit spawn ["push"; "-u"; "origin"; fb] e3) as [result e4] eqn:E4.
  assert (H4 : issued e4 = (issued e0 ++ mid ++ [["push"; "-u"; "origin"; fb]])%list).
  { pose proof (execGit_issued ["push"; "-u"; "origin"; fb] e3) as H.
    rewrite E4 in H. simpl in H. now rewrite H, Hm, <- app_assoc. }
  assert (Hf4 : filter is_push (mid ++ [["push"; "-u"; "origin"; fb]])
                = [["push"; "-u"; "origin"; fb]]).
  { rewrite filter_app, Hf. reflexivity. }
  destruct (negb (exitCode result =? 0)%Z); simpl.
  - split; [eauto | discriminate].
  - split; [eauto | reflexivity].
Qed.

Lemma git_stash_backup_ref (e0 : Env World) :
  ref_ok e0 -> ref_ok (snd (git_stash_backup spawn e0)).
Proof.
  intros H0. unfold git_stash_backup.
  destruct (execGit spawn ["status"; "--porcelain"] e0) as [statusResult e1] eqn:E1.
  assert (H1 : ref_ok e1).
  { pose proof (execGit_ref ["status"; "--porcelain"] e0) as H.
    rewrite E1 in H. unfold ref_ok. simpl in H. now rewrite H. }
  cbv zeta.
  destruct (negb (Js.trim (stdout statusResult) =? "")).
  - destruct (execGit spawn ["stash"; "push"; "-m"; "AGENT_BACKUP_PRE_MODIFICATION"] e1)
      as [stashResult e2] eqn:E2.
    destruct (negb (exitCode stashResult =? 0)%Z).
    + pose proof (execGit_ref ["stash"; "push"; "-m"; "AGENT_BACKUP_PRE_MODIFICATION"] e1) as H.
      rewrite E2 in H. unfold ref_ok. simpl in *. now rewrite H.
    + destruct (execGit spawn ["rev-parse"; "HEAD"]
                  (set_backup_ref (Some "stash@{0}") e2)) as [headResult e3] eqn:E3.
      pose proof (execGit_ref ["rev-parse"; "HEAD"]
                    (set_backup_ref (Some "stash@{0}") e2)) as H.
      rewrite E3 in H. unfold ref_ok. simpl in *. rewrite H. now right.
  - destruct (execGit spawn ["rev-parse"; "HEAD"] e1) as [headResult e3] eqn:E3.
    pose proof (execGit_ref ["rev-parse"; "HEAD"] e1) as H.
    rewrite E3 in H. unfold ref_ok. simpl in *. now rewrite H.
Qed.

(** What [git_clear_backup] does, from any state of the module. *)
Lemma git_clear_backup_spec (e1 : Env World) :
  ref_ok e1 ->
  let r := git_clear_backup spawn e1 in
  success (fst r) = true /\
  BACKUP_STASH_REF (snd r) = None /\
  (  (issued (snd r) = issued e1 /\ world (snd r) = world e1)
  \/ (issued (snd r) = (issued e1 ++ [["stash"; "list"]])%list /\
      world (snd r) = fst (spawn (world e1) ["stash"; "list"]))).
Proof.
  intros Hok. unfold git_clear_backup. cbv zeta.
  destruct (Js.truthy (BACKUP_STASH_REF e1)) eqn:Et.
  - destruct (execGit spawn ["stash"; "list"] e1) as [stashListResult e01] eqn:E.
    simpl. split; [reflexivity | split; [reflexivity | right]].
    pose proof (execGit_issued ["stash"; "list"] e1) as Hi.
    pose proof (execGit_world ["stash"; "list"] e1) as Hw.
    rewrite E in Hi, Hw. auto.
  - simpl. split; [reflexivity | split; [|left; auto]].
    destruct Hok as [H|H]; [exact H|]. rewrite H in Et. discriminate.
Qed.

End WithGit.

End GitFacts.

(** What the guard of [git_push] gives.  Whatever branch the caller
    names, [git_push] issues exactly one [git push], its last argument is
    not the text [main], and a successful result returns that argument;
    when the caller names [main] (or names nothing) the argument is
    [agent/changes-] followed by the digits of the timestamp, otherwise
    it is the caller's text, unchanged. *)
Lemma git_push_argument_is_not_the_text_main :
  forall (World : Type) (spawn : World -> list string -> World * Git.ExecResult)
         (GITHUB_TOKEN branch_arg : option string) (timestamp : Z)
         (e0 : Git.Env World),
    let branch := match branch_arg with Some b => b | None => "main" end in
    let r := Git.git_push spawn GITHUB_TOKEN branch_arg timestamp e0 in
    exists pushedBranch,
      (exists cmds,
          Git.issued (snd r) = (Git.issued e0 ++ cmds)%list /\
          filter Git.is_push cmds = [["push"; "-u"; "origin"; pushedBranch]]) /\
      pushedBranch <> "main" /\
      (success (fst r) = true ->
       Js.get (data (fst r)) "branch" = Js.VStr pushedBranch) /\
      (branch = "main" -> (0 <= timestamp)%Z ->
       Git.agent_branch_pattern pushedBranch) /\
      (branch <> "main" -> pushedBranch = branch).
Proof.
  intros World spawn tok branch_arg timestamp e0 branch r.
  exists (Git.featureBranch branch timestamp).
  destruct (GitFacts.git_push_trace spawn tok branch_arg timestamp e0) as [Ht Hr].
  split; [exact Ht | split; [apply GitFacts.featureBranch_not_main | split; [exact Hr|]]].
  split.
  - intros Hb Hts. unfold Git.featureBranch. rewrite Hb. simpl.
    eexists. split; [reflexivity|]. now apply GitFacts.all_digits_string_of_Z.
  - intros Hb. unfold Git.featureBranch.
    destruct (String.eqb_spec branch "main"); [contradiction | reflexivity].
Qed.

Lemma git_push_argument_is_not_the_text_main_witness :
  (0 <= 1767225600000)%Z /\
  exists pushedBranch,
    filter Git.is_push
      (Git.issued
         (snd (Git.git_push (fun (w : unit) _ => (w, Git.mkExec 0 "" ""))
                 None (Some "main") 1767225600000
                 (Git.mkEnv tt [] "/vercel/sandbox" None))))
    = [["push"; "-u"; "origin"; pushedBranch]] /\
    Git.agent_branch_pattern pushedBranch.
Proof.
  assert (Hts : (0 <= 1767225600000)%Z) by lia.
  split; [exact Hts|].
  destruct (git_push_argument_is_not_the_text_main unit
              (fun (w : unit) _ => (w, Git.mkExec 0 "" ""))
              None (Some "main") 1767225600000
              (Git.mkEnv tt [] "/vercel/sandbox" None))
    as [pb [[cmds [Hi Hf]] [_ [_ [Hpat _]]]]].
  exists pb. split; [|exact (Hpat eq_refl Hts)].
  rewrite Hi. exact Hf.
Defined.

(** C3 (push never targets primary) fails on the code.  The guard
    compares the caller's text with [main] and nothing else, and the
    text is handed to git as a refspec.  For [+main], [refs/heads/main]
    and [HEAD:main], each of which git reads as the branch [main] of
    [origin], the one push that [git_push] issues carries the caller's
    text unchanged, and a successful result reports it with the note
    [Pushed successfully].  With a git that refuses to make a branch
    called [HEAD:main] and accepts the push, the call succeeds after
    [checkout -b], [checkout] and [push -u origin HEAD:main]. *)
Theorem git_push_reaches_main_by_refspec :
  forall (World : Type) (spawn : World -> list string -> World * Git.ExecResult)
         (GITHUB_TOKEN : option string) (timestamp : Z) (e0 : Git.Env World),
    Forall
      (fun branch =>
         Git.updates_main branch = true /\
         Git.featureBranch branch timestamp = branch /\
         let r := Git.git_push spawn GITHUB_TOKEN (Some branch) timestamp e0 in
         (exists cmds,
             Git.issued (snd r) = (Git.issued e0 ++ cmds)%list /\
             filter Git.is_push cmds = [["push"; "-u"; "origin"; branch]]) /\
         (success (fst r) = true ->
          Js.get (data (fst r)) "branch" = Js.VStr branch /\
          Js.get (data (fst r)) "note" = Js.VStr "Pushed successfully"))
      ["+main"; "refs/heads/main"; "HEAD:main"] /\
    let git (w : unit) (argv : list string) :=
      (w, if Git.is_push argv then Git.mkExec 0 "" ""
          else Git.mkExec 128 "" "fatal: 'HEAD:main' is not a valid branch name") in
    let r := Git.git_push git None (Some "HEAD:main") timestamp
               (Git.mkEnv tt [] "/vercel/sandbox" None) in
    success (fst r) = true /\
    Js.get (data (fst r)) "branch" = Js.VStr "HEAD:main" /\
    Git.issued (snd r)
    = [ ["checkout"; "-b"; "HEAD:main"];
        ["checkout"; "HEAD:main"];
        ["push"; "-u"; "origin"; "HEAD:main"] ].
Proof.
  intros World spawn tok timestamp e0.
  assert (Hone : forall branch,
             (branch =? "main") = false ->
             let r := Git.git_push spawn tok (Some branch) timestamp e0 in
             (exists cmds,
                 Git.issued (snd r) = (Git.issued e0 ++ cmds)%list /\
                 filter Git.is_push cmds = [["push"; "-u"; "origin"; branch]]) /\
             (success (fst r) = true ->
              Js.get (data (fst r)) "branch" = Js.VStr branch /\
              Js.get (data (fst r)) "note" = Js.VStr "Pushed successfully")).
  { intros branch Hb.
    destruct (GitFacts.git_push_trace spawn tok (Some branch) timestamp e0)
      as [Ht Hr].
    cbv zeta in Ht, Hr. unfold Git.featureBranch in Ht, Hr. rewrite Hb in Ht, Hr.
    cbv zeta. split; [exact Ht|].
    intros Hs. split; [exact (Hr Hs)|].
    revert Hs. unfold Git.git_push. cbv zeta.
    unfold Git.featureBranch. rewrite Hb.
    repeat match goal with
           | |- context [let '(_, _) := ?x in _] => destruct x
           end.
    match goal with
    | |- context [if negb ?c then _ else _] => destruct c
    end; cbn; [reflexivity | discriminate]. }
  split.
  - repeat (apply Forall_cons;
            [split; [reflexivity | split; [reflexivity | apply Hone; reflexivity]]|]).
    apply Forall_nil.
  - cbv zeta. repeat split.
Qed.

(** C8 (backup clear semantics).  After [git_stash_backup],
    [git_clear_backup] succeeds, leaves the module's backup reference
    cleared, and issues no git command other than at most one
    [git stash list]: no checkout, reset or clean, and no stash drop or
    pop.  Hence whatever [git stash list] leaves unchanged, the tracked
    modifications of the working tree among it, is unchanged. *)
Theorem git_clear_backup_after_stash :
  forall (World : Type) (spawn : World -> list string -> World * Git.ExecResult)
         (T : Type) (tracked : World -> T) (e0 : Git.Env World),
    Git.ref_ok e0 ->
    (forall w, tracked (fst (spawn w ["stash"; "list"])) = tracked w) ->
    let e1 := snd (Git.git_stash_backup spawn e0) in
    let r := Git.git_clear_backup spawn e1 in
    success (fst r) = true /\
    Git.BACKUP_STASH_REF (snd r) = None /\
    (exists cmds,
        Git.issued (snd r) = (Git.issued e1 ++ cmds)%list /\
        Forall (fun argv => argv = ["stash"; "list"]) cmds /\
        (length cmds <= 1)%nat /\
        existsb Git.mutating cmds = false) /\
    tracked (Git.world (snd r)) = tracked (Git.world e1).
Proof.
  intros World spawn T tracked e0 Hok Hro e1 r.
  assert (Hok1 : Git.ref_ok e1) by (apply GitFacts.git_stash_backup_ref; exact Hok).
  destruct (GitFacts.git_clear_backup_spec spawn e1 Hok1) as [Hs [Href Hcases]].
  fold r in Hs, Href, Hcases.
  split; [exact Hs | split; [exact Href|]].
  destruct Hcases as [[Hi Hw] | [Hi Hw]].
  - split.
    + exists []. rewrite app_nil_r. repeat split; auto.
    + now rewrite Hw.
  - split.
    + exists [["stash"; "list"]]. repeat split; auto.
    + rewrite Hw. apply Hro.
Qed.

Lemma git_clear_backup_after_stash_witness :
  let spawn := fun (w : list string) (argv : list string) =>
                 (w, Git.mkExec 0
                       (if Js.array_includes argv "status" then " M src/a.ts" else "")
                       "") in
  let e0 := Git.mkEnv ["src/a.ts: modified"] [] "/vercel/sandbox" None in
  Git.ref_ok e0 /\
  (forall w, fst (spawn w ["stash"; "list"]) = w) /\
  Git.BACKUP_STASH_REF (snd (Git.git_stash_backup spawn e0)) = Some "stash@{0}" /\
  Git.BACKUP_STASH_REF
    (snd (Git.git_clear_backup spawn (snd (Git.git_stash_backup spawn e0)))) = None /\
  Git.world (snd (Git.git_clear_backup spawn (snd (Git.git_stash_backup spawn e0))))
  = ["src/a.ts: modified"].
Proof.
  intros spawn e0.
  assert (Hok : Git.ref_ok e0) by (left; reflexivity).
  assert (Hro : forall w, fst (spawn w ["stash"; "list"]) = w) by reflexivity.
  split; [exact Hok | split; [exact Hro | split; [reflexivity|]]].
  destruct (git_clear_backup_after_stash (list string) spawn (list string)
              (fun w => w) e0 Hok Hro) as [_ [Href [_ Hw]]].
  split; [exact Href | exact Hw].
Defined.

(* ================================================================== *)
(** ** The URL check                                                  *)
(* ================================================================== *)

(** C10 as stated fails: called without a [url], [verify_url] returns
    [success: false] although no request was made, so none failed; and
    so it does when [http.get] throws on its arguments ([Invalid URL]
    for the text [not a url]), where no request is made either. *)
Lemma verify_url_fails_without_request :
  (let http_get := fun (_ : string) (_ : Z) => Browser.Response 200 "ok" in
   let args := Browser.mkVerifyArgs None None None in
   Browser.verify_url http_get args
     = mkResult false Js.VUndefined (Js.VStr "url is required") /\
   Browser.request_issued http_get args = false) /\
  (let http_get := fun (url : string) (_ : Z) =>
                     if Js.startsWith url "http" then Browser.Response 200 "ok"
                     else Browser.GetThrew "Invalid URL" in
   let args := Browser.mkVerifyArgs (Some "not a url") None None in
   Browser.verify_url http_get args
     = mkResult false Js.VUndefined (Js.VStr "Invalid URL") /\
   Browser.request_issued http_get args = false /\
   Browser.request_failed (Browser.outcome_of http_get args) = false).
Proof. repeat split. Qed.

(** C10, amended (verify_url).  Every request that receives a response
    yields [success: true] whatever the status code, with the status
    code returned and [accessible] set exactly when it lies in
    [200, 400).  [success: false] is returned exactly when no request
    was made or when the request emitted [error] or [timeout].  No
    request is made in two cases only: no [url] was given, which the
    [!url] guard answers with [url is required], and [http.get] threw
    on its arguments, which is answered with what it threw.  A request that
    was made never fails in any other way than [error] and [timeout],
    and the result carries the message of the one that happened. *)
Theorem verify_url_success_on_any_response :
  forall (http_get : string -> Z -> Browser.HttpOutcome)
         (args : Browser.VerifyArgs),
    let r := Browser.verify_url http_get args in
    let o := Browser.outcome_of http_get args in
    (Browser.request_issued http_get args = true ->
     forall statusCode body,
       o = Browser.Response statusCode body ->
       success r = true /\
       Js.get (data r) "statusCode" = Js.VNum statusCode /\
       Js.get (data r) "accessible"
         = Js.VBool ((200 <=? statusCode)%Z && (statusCode <? 400)%Z)) /\
    (success r = false <->
     Browser.request_issued http_get args = false \/
     Browser.request_failed o = true) /\
    (Browser.request_issued http_get args = false ->
     (Js.truthy (Browser.url args) = false /\
      error r = Js.VStr "url is required") \/
     (Js.truthy (Browser.url args) = true /\
      exists message, o = Browser.GetThrew message /\ error r = Js.VStr message)) /\
    (Browser.request_issued http_get args = true ->
     success r = false ->
     (exists message, o = Browser.RequestError message /\ error r = Js.VStr message) \/
     (o = Browser.RequestTimeout /\ error r = Js.VStr "Request timeout")).
Proof.
  intros http_get [url expected timeout]. cbv zeta.
  unfold Browser.request_issued, Browser.outcome_of, Browser.verify_url.
  cbn [Browser.url Browser.timeout Browser.expectedContent].
  destruct url as [u|]; cbn [Js.truthy andb].
  2:{ cbn. repeat split; auto; try discriminate. }
  destruct (String.eqb_spec u "") as [->|Nu]; cbn [negb andb].
  { cbn. repeat split; auto; try discriminate. }
  destruct (http_get u _) as [msg|sc body|msg|] eqn:Eo;
    cbn [Browser.get_threw Browser.request_failed negb success error data].
  - split; [discriminate|]. split; [split; auto|].
    split; [|discriminate].
    intros _. right. split; [reflexivity|]. now exists msg.
  - split.
    + intros _ sc' body' [= <- <-]. repeat split.
    + split; [split; [discriminate | intros [H|H]; discriminate]|].
      split; discriminate.
  - split; [intros _ sc' body'; discriminate|].
    split; [split; auto|]. split; [discriminate|].
    intros _ _. left. now exists msg.
  - split; [intros _ sc' body'; discriminate|].
    split; [split; auto|]. split; [discriminate|].
    intros _ _. right. split; reflexivity.
Qed.

Lemma verify_url_success_on_any_response_witness :
  let http_get := fun (_ : string) (_ : Z) => Browser.Response 404 "Not Found" in
  let args := Browser.mkVerifyArgs (Some "http://localhost:3000/missing") None None in
  Browser.request_issued http_get args = true /\
  success (Browser.verify_url http_get args) = true /\
  Js.get (data (Browser.verify_url http_get args)) "accessible" = Js.VBool false.
Proof.
  intros http_get args.
  assert (Hreq : Browser.request_issued http_get args = true) by reflexivity.
  split; [exact Hreq|].
  destruct (proj1 (verify_url_success_on_any_response http_get args) Hreq
              404%Z "Not Found" eq_refl) as [Hs [_ Ha]].
  split; [exact Hs | exact Ha].
Defined.

(* ================================================================== *)
(** ** What reaches the message history                               *)
(* ================================================================== *)

(** [formatToolResult] on the result [run_command] returns for a
    command that exited with status 1 after writing [out]: the message
    is longer than [out]. *)
Lemma formatToolResult_carries_stdout :
  forall (JSON_stringify_pretty : Js.value -> string) (toolName : Js.value)
         (command out : string),
    command <> "" -> out <> "" ->
    String.length out <
    String.length
      (Llm.content
         (Llm.formatToolResult JSON_stringify_pretty toolName
            (mkResult false
               (Js.VObj [ ("command", Js.VStr command);
                          ("exitCode", Js.VNum 1);
                          ("stdout", Js.VStr out);
                          ("stderr", Js.VStr "") ])
               Js.VUndefined))).
Proof.
  intros pretty toolName command out Hc Ho.
  unfold Llm.formatToolResult, Llm.isError. simpl.
  unfold Js.or_value. simpl.
  destruct (String.eqb_spec command "") as [|_]; [contradiction|].
  destruct (String.eqb_spec out "") as [|_]; [contradiction|].
  simpl. repeat (rewrite StringFacts.length_app; simpl). lia.
Qed.

(** C6 (context length-capping), evaluated on the code: no bound holds.
    For every bound there is a tool result, of the form [run_command]
    returns for a failed command, whose formatted message is longer. *)
Theorem formatToolResult_unbounded :
  forall (JSON_stringify_pretty : Js.value -> string) (bound : nat),
    bound <
    String.length
      (Llm.content
         (Llm.formatToolResult JSON_stringify_pretty (Js.VStr "run_command")
            (mkResult false
               (Js.VObj [ ("command", Js.VStr "node check.js");
                          ("exitCode", Js.VNum 1);
                          ("stdout", Js.VStr (Js.repeat "a" (S bound)));
                          ("stderr", Js.VStr "") ])
               Js.VUndefined))).
Proof.
  intros pretty bound.
  eapply Nat.lt_trans;
    [|apply formatToolResult_carries_stdout; [discriminate | discriminate]].
  rewrite StringFacts.length_repeat_unit. lia.
Qed.

(* ================================================================== *)
(** ** Decoding the model's answer                                    *)
(* ================================================================== *)

Module LlmFacts.

Import Llm.

(** The result of [decode] on a value it accepts: one action, of the
    first kind whose key the value carries. *)
Lemma decode_accepted (content : string) (p : Js.value) :
  accepts p = true ->
  exists action,
    decode content (Some p) = inl (mkLlm true action Js.VUndefined false) /\
    decoded_from p action.
Proof.
  unfold accepts, decode, decoded_from, Js.has. intros H.
  destruct p; try discriminate H.
  simpl in *.
  destruct (Js.is_undefined (Js.lookup fields "done")) eqn:Ed; simpl in *.
  - destruct (Js.truthy_value (Js.lookup fields "plan")) eqn:Ep; simpl in *.
    + eexists. split; [reflexivity|]. right; left. auto.
    + rewrite H. eexists. split; [reflexivity|]. right; right.
      apply andb_prop in H. destruct H as [Ht Ha]. auto.
  - eexists. split; [reflexivity|]. left. auto.
Qed.

(** What a successful [decode] returns, and from what. *)
Lemma decode_success (content : string) (parsed : option Js.value)
    (r : LlmResult) :
  decode content parsed = inl r -> llm_success r = true ->
  exists p, parsed = Some p /\ accepts p = true /\ decoded_from p (llm_data r).
Proof.
  intros Hd Hs. destruct parsed as [p|].
  - exists p. split; [reflexivity|].
    destruct (accepts p) eqn:Ea.
    + split; [reflexivity|].
      destruct (decode_accepted content p Ea) as [action [Hd' Hk]].
      rewrite Hd' in Hd. inversion Hd; subst r. exact Hk.
    + exfalso. unfold accepts, decode, Js.has in *.
      destruct p; try (inversion Hd; subst; discriminate).
      simpl in *.
      destruct (Js.is_undefined (Js.lookup fields "done")); simpl in *;
        [|discriminate].
      destruct (Js.truthy_value (Js.lookup fields "plan")); simpl in *;
        [discriminate|].
      rewrite Ea in Hd. inversion Hd; subst. discriminate.
  - exfalso. unfold decode in Hd.
    destruct ((1000 <? String.length content)%nat
              && negb (Js.endsWith (Js.trim content) "}"));
      inversion Hd; subst; discriminate.
Qed.

(** A value [decode] does not accept is never a success. *)
Lemma decode_rejected (content : string) (p : Js.value) :
  accepts p = false ->
  decode content (Some p) = inl (failure ("Invalid response structure: " ++ content))
  \/ decode content (Some p) = inr NULL_PROPERTY.
Proof.
  unfold accepts, decode, Js.has. intros H.
  destruct p; auto.
  simpl in *.
  destruct (Js.is_undefined (Js.lookup fields "done")); simpl in *; [|discriminate].
  destruct (Js.truthy_value (Js.lookup fields "plan")); simpl in *; [discriminate|].
  rewrite H. auto.
Qed.

Lemma decode_parse_failure (content : string) :
  exists r, decode content None = inl r /\ llm_success r = false.
Proof.
  unfold decode.
  destruct ((1000 <? String.length content)%nat
            && negb (Js.endsWith (Js.trim content) "}"));
    eexists; split; reflexivity.
Qed.

End LlmFacts.

(** C7 (action decoding) fails on the code.  The decoder tests
    [parsed.done !== undefined] first and looks at nothing else of the
    object: an answer that carries [done: false] next to a complete tool
    call matches none of the three shapes, yet it is returned as a
    success, and as the action [done: true], so the run is ended instead
    of the tool being called.  The same holds of every object whose
    [done] is present and is not [true].  An object without [done] whose
    [plan] is truthy and is not an array matches no shape either and is
    returned as a plan. *)
Theorem decode_accepts_other_shapes :
  (let content :=
     "{" ++ Js.quote "done" ++ ": false, "
     ++ Js.quote "tool" ++ ": " ++ Js.quote "read_file" ++ ", "
     ++ Js.quote "args" ++ ": {" ++ Js.quote "path" ++ ": "
     ++ Js.quote "src/lib/constants.ts" ++ "}}" in
   let parsed :=
     Js.VObj [ ("done", Js.VBool false);
               ("tool", Js.VStr "read_file");
               ("args", Js.VObj [("path", Js.VStr "src/lib/constants.ts")]) ] in
   Llm.valid_shape parsed = false /\
   Llm.decode content (Some parsed)
   = inl (Llm.mkLlm true
            (Js.VObj [ ("done", Js.VBool true);
                       ("result", Js.VUndefined);
                       ("summary", Js.VUndefined) ])
            Js.VUndefined false)) /\
  (forall (content : string) (fields : list (string * Js.value)),
      Js.has (Js.VObj fields) "done" = true ->
      Js.get (Js.VObj fields) "done" <> Js.VBool true ->
      Llm.valid_shape (Js.VObj fields) = false /\
      Llm.decode content (Some (Js.VObj fields))
      = inl (Llm.mkLlm true
               (Js.VObj [ ("done", Js.VBool true);
                          ("result", Js.get (Js.VObj fields) "result");
                          ("summary", Js.get (Js.VObj fields) "summary") ])
               Js.VUndefined false)) /\
  (forall (content : string) (fields : list (string * Js.value)),
      Js.has (Js.VObj fields) "done" = false ->
      Js.truthy_value (Js.get (Js.VObj fields) "plan") = true ->
      Js.is_array (Js.get (Js.VObj fields) "plan") = false ->
      Llm.valid_shape (Js.VObj fields) = false /\
      Llm.decode content (Some (Js.VObj fields))
      = inl (Llm.mkLlm true
               (Js.VObj [ ("plan", Js.get (Js.VObj fields) "plan") ])
               Js.VUndefined false)).
Proof.
  split; [split; reflexivity|]. split.
  - intros content fields Hd Hn.
    unfold Llm.valid_shape, Llm.plan_shape, Llm.tool_shape, Llm.done_shape,
      Llm.decode.
    unfold Js.has in Hd |- *. rewrite Hd. split; [|reflexivity].
    cbn [negb]. rewrite !andb_false_r. cbn [orb].
    destruct (Js.get (Js.VObj fields) "tool"), (Js.get (Js.VObj fields) "args");
      cbn [orb]; try rewrite !andb_false_r; cbn [orb];
      destruct (Js.get (Js.VObj fields) "done") as [| |[|]| | | |];
      try reflexivity; now elim Hn.
  - intros content fields Hd Hp Ha.
    unfold Llm.valid_shape, Llm.plan_shape, Llm.tool_shape, Llm.done_shape,
      Llm.decode.
    unfold Js.has in Hd |- *. rewrite Hd, Hp, Ha. split; [|reflexivity].
    apply negb_false_iff in Hd.
    assert (Hplan : negb (Js.is_undefined (Js.get (Js.VObj fields) "plan")) = true).
    { destruct (Js.get (Js.VObj fields) "plan"); try reflexivity; discriminate Hp. }
    rewrite Hplan. cbn [negb andb orb].
    destruct (Js.get (Js.VObj fields) "tool"), (Js.get (Js.VObj fields) "args");
      cbn [orb];
      destruct (Js.get (Js.VObj fields) "done") as [| |[|]| | | |];
      try reflexivity; discriminate Hd.
Qed.

(** What the decoder does as it stands.  It returns success exactly
    when the content parses to a value that has a [done] property, or a
    truthy [plan], or a truthy [tool] together with an [args] property.
    The action returned is then of the first of these kinds, in that
    order, and carries that kind's keys only.  A parse failure and every
    other value never yield success: that half of the claim holds. *)
Lemma decode_success_iff_accepts :
  forall (content : string) (parsed : option Js.value),
    ((exists r, Llm.decode content parsed = inl r /\ Llm.llm_success r = true)
     <-> exists p, parsed = Some p /\ Llm.accepts p = true) /\
    (forall p r,
        parsed = Some p -> Llm.decode content parsed = inl r ->
        Llm.llm_success r = true ->
        (Js.has p "done" = true /\
         Js.get (Llm.llm_data r) "done" = Js.VBool true /\
         Js.has (Llm.llm_data r) "plan" = false /\
         Js.has (Llm.llm_data r) "tool" = false)
        \/ (Js.has p "done" = false /\
            Js.truthy_value (Js.get p "plan") = true /\
            Js.get (Llm.llm_data r) "plan" = Js.get p "plan" /\
            Js.has (Llm.llm_data r) "done" = false /\
            Js.has (Llm.llm_data r) "tool" = false)
        \/ (Js.has p "done" = false /\
            Js.truthy_value (Js.get p "plan") = false /\
            Js.truthy_value (Js.get p "tool") = true /\
            Js.get (Llm.llm_data r) "tool" = Js.get p "tool" /\
            Js.get (Llm.llm_data r) "args" = Js.get p "args" /\
            Js.has (Llm.llm_data r) "done" = false /\
            Js.has (Llm.llm_data r) "plan" = false)).
Proof.
  intros content parsed. split.
  - split.
    + intros [r [Hd Hs]]. destruct parsed as [p|].
      * exists p. split; [reflexivity|].
        destruct (Llm.accepts p) eqn:Ea; [reflexivity|].
        destruct (LlmFacts.decode_rejected content p Ea) as [H|H];
          rewrite H in Hd; [|discriminate].
        inversion Hd; subst. discriminate.
      * destruct (LlmFacts.decode_parse_failure content) as [r' [Hd' Hs']].
        rewrite Hd' in Hd. inversion Hd; subst. congruence.
    + intros [p [-> Ha]].
      destruct (LlmFacts.decode_accepted content p Ha) as [action [Hd _]].
      eexists. split; [exact Hd | reflexivity].
  - intros p r -> Hd Hs.
    destruct (Llm.accepts p) eqn:Ea.
    + destruct (LlmFacts.decode_accepted content p Ea) as [action [Hd' Hk]].
      rewrite Hd' in Hd. inversion Hd; subst r. simpl.
      destruct Hk as [[H1 ->] | [[H1 [H2 ->]] | [H1 [H2 [H3 [H4 ->]]]]]].
      * left. repeat split; auto.
      * right; left. repeat split; auto.
      * right; right. repeat split; auto.
    + destruct (LlmFacts.decode_rejected content p Ea) as [H|H];
        rewrite H in Hd; [|discriminate].
      inversion Hd; subst. discriminate.
Qed.

Lemma decode_success_iff_accepts_witness :
  let content :=
    "{" ++ Js.quote "plan" ++ ": [" ++ Js.quote "Backup state" ++ ", "
    ++ Js.quote "Build" ++ "]}" in
  let parsed := Js.VObj [ ("plan", Js.VArr [Js.VStr "Backup state"; Js.VStr "Build"]) ] in
  Llm.accepts parsed = true /\
  exists r, Llm.decode content (Some parsed) = inl r /\ Llm.llm_success r = true.
Proof.
  intros content parsed.
  assert (Ha : Llm.accepts parsed = true) by reflexivity.
  split; [exact Ha|].
  apply (proj2 (proj1 (decode_success_iff_accepts content (Some parsed)))).
  exists parsed. split; [reflexivity | exact Ha].
Defined.

(* ================================================================== *)
(** ** The git record of the execution state                          *)
(* ================================================================== *)

Module StateFacts.

Lemma or_value_nullish (a b : Js.value) :
  Js.nullish (Js.or_value a b) = true -> Js.nullish b = true.
Proof.
  unfold Js.or_value. destruct (Js.truthy_value a) eqn:E; [|auto].
  destruct a; simpl in *; congruence.
Qed.

Lemma default_null_nullish (v : Js.value) :
  Js.nullish (Js.default_null v) = Js.nullish v.
Proof. now destruct v. Qed.

Ltac git_fields :=
  simpl; repeat split; intros; auto; try discriminate;
  try (eapply or_value_nullish; eassumption);
  try (rewrite default_null_nullish in *; assumption).

(** One update of the state after a tool call. *)
Lemma update_state_git (toolName args : Js.value) (result : ToolResult)
    (st : State.t) :
  let st' := Agent.update_state toolName args result st in
  (State.committed (State.git st) = true ->
   State.committed (State.git st') = true) /\
  (Js.nullish (State.branch (State.git st')) = true ->
   Js.nullish (State.branch (State.git st)) = true) /\
  (Js.nullish (State.pr_url (State.git st')) = true ->
   Js.nullish (State.pr_url (State.git st)) = true) /\
  (Js.strict_eq_str toolName "git_commit" && success result = false ->
   State.pushed (State.git st) = true ->
   State.pushed (State.git st') = true) /\
  (Js.strict_eq_str toolName "git_commit" && success result = false ->
   Js.nullish (State.commit_hash (State.git st')) = true ->
   Js.nullish (State.commit_hash (State.git st)) = true).
Proof.
  unfold Agent.update_state, Js.strict_eq_str.
  destruct toolName as [| |b|n|name|items|fields];
    try (simpl; tauto).
  destruct (String.eqb_spec name "run_build") as [->|]; [simpl; tauto|].
  destruct (String.eqb_spec name "start_dev_server") as [->|];
    [destruct (success result); simpl; tauto|].
  destruct (String.eqb_spec name "stop_dev_server") as [->|]; [simpl; tauto|].
  destruct (String.eqb_spec name "check_dev_server") as [->|]; [simpl; tauto|].
  destruct (String.eqb_spec name "git_commit") as [->|];
    [destruct (success result); git_fields|].
  destruct (String.eqb_spec name "git_push") as [->|];
    [destruct (success result); git_fields|].
  destruct (String.eqb_spec name "git_create_pr") as [->|];
    [destruct (success result); git_fields|].
  simpl. tauto.
Qed.

End StateFacts.

(** C9 (git-state monotonicity) fails on the code.  After a commit and
    a push, a second successful [git_commit], one that found nothing to
    commit, sets [pushed] back to [false] and replaces the commit hash
    with [null].  In general every successful [git_commit] stores
    [pushed = false] and the hash of its own result, [null] when the
    result has none, whatever the record held: [setGitStatus] falls back
    to the old value for [branch] and [pr_url] only. *)
Theorem git_status_not_monotone :
  (let commit1 :=
     Agent.mkInvocation (Js.VStr "git_commit")
       (Js.VObj [("message", Js.VStr "feat: add proof item")])
       (mkResult true
          (Js.VObj [ ("message", Js.VStr "feat: add proof item");
                     ("commit_hash", Js.VStr "3f2a91c");
                     ("stdout", Js.VStr "[main 3f2a91c] feat: add proof item") ])
          Js.VUndefined) in
   let push :=
     Agent.mkInvocation (Js.VStr "git_push") (Js.VObj [])
       (mkResult true
          (Js.VObj [ ("branch", Js.VStr "agent/changes-1767225600000");
                     ("originalRequest", Js.VStr "main");
                     ("pushed", Js.VBool true) ])
          Js.VUndefined) in
   let commit2 :=
     Agent.mkInvocation (Js.VStr "git_commit")
       (Js.VObj [("message", Js.VStr "chore: tidy")])
       (mkResult true
          (Js.VObj [ ("message", Js.VStr "Nothing to commit");
                     ("commit_hash", Js.VNull) ])
          Js.VUndefined) in
   let before := Agent.run_updates State.initialState [commit1; push] in
   let after := Agent.run_updates State.initialState [commit1; push; commit2] in
   State.pushed (State.git before) = true /\
   State.commit_hash (State.git before) = Js.VStr "3f2a91c" /\
   State.pushed (State.git after) = false /\
   State.commit_hash (State.git after) = Js.VNull) /\
  (forall (args : Js.value) (result : ToolResult) (st : State.t),
      success result = true ->
      let st' := Agent.update_state (Js.VStr "git_commit") args result st in
      State.pushed (State.git st') = false /\
      State.commit_hash (State.git st')
      = Js.default_null (Js.get (data result) "commit_hash")).
Proof.
  split; [repeat split|].
  intros args result st Hs. cbv zeta.
  unfold Agent.update_state. cbn. rewrite Hs. cbn. split; reflexivity.
Qed.

(** The part of the claim that holds.  Over every sequence of tool
    invocations, successful or not: [committed], once true, stays true;
    [branch] and [pr_url], once set, are never replaced with [null];
    and [pushed] and [commit_hash] are not cleared by any update other
    than a successful [git_commit]. *)
Lemma git_status_monotone_fields :
  forall (calls : list Agent.Invocation) (st : State.t),
    let st' := Agent.run_updates st calls in
    (State.committed (State.git st) = true ->
     State.committed (State.git st') = true) /\
    (Js.nullish (State.branch (State.git st)) = false ->
     Js.nullish (State.branch (State.git st')) = false) /\
    (Js.nullish (State.pr_url (State.git st)) = false ->
     Js.nullish (State.pr_url (State.git st')) = false) /\
    (Forall (fun c => Js.strict_eq_str (Agent.inv_tool c) "git_commit"
                      && success (Agent.inv_result c) = false) calls ->
     (State.pushed (State.git st) = true ->
      State.pushed (State.git st') = true) /\
     (Js.nullish (State.commit_hash (State.git st)) = false ->
      Js.nullish (State.commit_hash (State.git st')) = false)).
Proof.
  induction calls as [|c calls IH]; intros st; cbv zeta.
  - simpl. tauto.
  - change (Agent.run_updates st (c :: calls))
      with (Agent.run_updates
              (Agent.update_state (Agent.inv_tool c) (Agent.inv_args c)
                 (Agent.inv_result c) st) calls).
    pose proof (StateFacts.update_state_git (Agent.inv_tool c) (Agent.inv_args c)
                  (Agent.inv_result c) st) as H1.
    cbv zeta in H1. destruct H1 as [Hc [Hb [Hp [Hpu Hh]]]].
    specialize (IH (Agent.update_state (Agent.inv_tool c) (Agent.inv_args c)
                      (Agent.inv_result c) st)).
    cbv zeta in IH. destruct IH as [IHc [IHb [IHp IHf]]].
    assert (Hneg : forall x y : bool, (x = true -> y = true) -> y = false -> x = false).
    { intros [|] [|]; intuition congruence. }
    split; [auto | split; [|split]].
    + intros Hn. apply IHb. revert Hn. apply Hneg, Hb.
    + intros Hn. apply IHp. revert Hn. apply Hneg, Hp.
    + intros Hall. inversion Hall as [|? ? Hhead Htail]; subst.
      destruct (IHf Htail) as [IHpu IHh]. split.
      * intros Hpushed. apply IHpu. auto.
      * intros Hn. apply IHh. revert Hn. apply Hneg. auto.
Qed.

Lemma git_status_monotone_fields_witness :
  let pr :=
    Agent.mkInvocation (Js.VStr "git_create_pr")
      (Js.VObj [("title", Js.VStr "Add highlight")])
      (mkResult true
         (Js.VObj [ ("pr_number", Js.VNum 7);
                    ("pr_url", Js.VStr "https://github.com/o/r/pull/7") ])
         Js.VUndefined) in
  let st :=
    State.setGitStatus true true (Js.VStr "3f2a91c")
      (Js.VStr "agent/changes-1767225600000") Js.VUndefined State.initialState in
  State.committed (State.git st) = true /\
  Js.nullish (State.branch (State.git st)) = false /\
  Forall (fun c => Js.strict_eq_str (Agent.inv_tool c) "git_commit"
                   && success (Agent.inv_result c) = false) [pr] /\
  State.committed (State.git (Agent.run_updates st [pr])) = true /\
  Js.nullish (State.branch (State.git (Agent.run_updates st [pr]))) = false /\
  State.pushed (State.git (Agent.run_updates st [pr])) = true.
Proof.
  intros pr st.
  assert (Hc : State.committed (State.git st) = true) by reflexivity.
  assert (Hb : Js.nullish (State.branch (State.git st)) = false) by reflexivity.
  assert (Hall : Forall (fun c => Js.strict_eq_str (Agent.inv_tool c) "git_commit"
                   && success (Agent.inv_result c) = false) [pr])
    by (constructor; [reflexivity | constructor]).
  destruct (git_status_monotone_fields [pr] st) as [H1 [H2 [_ H4]]].
  split; [exact Hc | split; [exact Hb | split; [exact Hall|]]].
  split; [exact (H1 Hc) | split; [exact (H2 Hb)|]].
  exact (proj1 (H4 Hall) eq_refl).
Defined.

(* ================================================================== *)
(** ** The orchestration loop                                         *)
(* ================================================================== *)

Module AgentFacts.

Import Agent.

Section WithWorld.

Variable World : Type.
Variable fetch_completion :
  World -> string -> list Llm.Message -> World * Llm.FetchOutcome.
Variable call_tool : World -> string -> list Js.value -> World * ToolOutcome.
Variable JSON_stringify : Js.value -> string.
Variable JSON_stringify_pretty : Js.value -> string.
Variable OPENAI_API_KEY : option string.
Variable OPENAI_MODEL : option string.

Lemma attempt_once_decoded model messages attempt maxRetries w w' r :
  Llm.attempt_once World fetch_completion model messages attempt maxRetries w
    = (w', inl r) ->
  Llm.llm_success r = true ->
  exists p, fetched World fetch_completion p /\ Llm.decoded_from p (Llm.llm_data r).
Proof.
  unfold Llm.attempt_once.
  destruct (fetch_completion w model messages) as [w1 outcome] eqn:Ef.
  destruct outcome as [message|status errorText|content finishReason parsed].
  - destruct (attempt =? maxRetries)%nat; intros [= <- <-]; discriminate.
  - destruct (status =? 404)%Z; [intros [= <- <-]; discriminate|].
    destruct (status =? 429)%Z.
    + destruct (attempt <? maxRetries)%nat; [discriminate|].
      destruct (attempt =? maxRetries)%nat; intros [= <- <-]; discriminate.
    + destruct (Js.includes errorText "does not exist"
                || Js.includes errorText "model_not_found");
        intros [= <- <-]; discriminate.
  - destruct (negb (Js.truthy content)); [intros [= <- <-]; discriminate|].
    destruct (match finishReason with Some r0 => r0 =? "length" | None => false end);
      [intros [= <- <-]; discriminate|].
    destruct (Llm.decode _ parsed) as [r0|message] eqn:Ed.
    + intros [= <- <-] Hs.
      destruct (LlmFacts.decode_success _ _ _ Ed Hs) as [p [-> [_ Hk]]].
      exists p. split; [|exact Hk].
      exists w, model, messages, content, finishReason. now rewrite Ef.
    + destruct (attempt =? maxRetries)%nat; intros [= <- <-]; discriminate.
Qed.

Lemma retry_loop_decoded remaining model messages attempt maxRetries w w' r :
  Llm.retry_loop World fetch_completion remaining model messages attempt maxRetries w
    = (w', r) ->
  Llm.llm_success r = true ->
  exists p, fetched World fetch_completion p /\ Llm.decoded_from p (Llm.llm_data r).
Proof.
  revert attempt w. induction remaining as [|n IH]; intros attempt w; simpl.
  - intros [= <- <-]. discriminate.
  - destruct (Llm.attempt_once World fetch_completion model messages attempt
                maxRetries w) as [w1 [r1|u]] eqn:Ea.
    + intros [= <- <-]. now apply attempt_once_decoded with (1 := Ea).
    + apply IH.
Qed.

Lemma try_models_decoded models messages maxRetries w w' r :
  Llm.try_models World fetch_completion models messages maxRetries w = (w', r) ->
  Llm.llm_success r = true ->
  exists p, fetched World fetch_completion p /\ Llm.decoded_from p (Llm.llm_data r).
Proof.
  revert w. induction models as [|m models IH]; intros w; simpl.
  - intros [= <- <-]. discriminate.
  - unfold Llm.tryModel.
    destruct (Llm.retry_loop World fetch_completion maxRetries m messages 1
                maxRetries w) as [w1 r1] eqn:Er.
    destruct (Llm.llm_success r1 || negb (Llm.modelNotFound r1)).
    + intros [= <- <-]. now apply retry_loop_decoded with (1 := Er).
    + apply IH.
Qed.

(** A successful [callLLM] returns the action decoded from a value the
    endpoint answered. *)
Lemma callLLM_decoded apiKey messages model maxRetries w w' r :
  Llm.callLLM World fetch_completion apiKey messages model maxRetries w = (w', r) ->
  Llm.llm_success r = true ->
  exists p, fetched World fetch_completion p /\ Llm.decoded_from p (Llm.llm_data r).
Proof.
  unfold Llm.callLLM. destruct (negb (Js.truthy apiKey)).
  - intros [= <- <-]. discriminate.
  - apply try_models_decoded.
Qed.

(** Only [incrementIteration] changes the iteration count. *)
Lemma update_state_iteration toolName args result st :
  State.iteration (update_state toolName args result st) = State.iteration st.
Proof.
  unfold update_state.
  repeat match goal with
         | |- context [if ?c then _ else _] => destruct c
         end; reflexivity.
Qed.

Lemma addChangedFile_iteration filePath st :
  State.iteration (State.addChangedFile filePath st) = State.iteration st.
Proof.
  unfold State.addChangedFile.
  now destruct (existsb (State.same_value filePath) (State.changed_files st)).
Qed.

Lemma executeToolWithArgs_iteration toolName args w st w' st' outcome :
  executeToolWithArgs World call_tool toolName args w st = (w', st', outcome) ->
  State.iteration st' = State.iteration st.
Proof.
  unfold executeToolWithArgs.
  destruct (negb (Js.property_truthy allTools (Js.to_string toolName)));
    [now intros [= _ <- _]|].
  set (st0 := if Js.strict_eq_str toolName "write_file"
                 && Js.truthy_value (Js.get args "path")
              then State.addChangedFile (Js.get args "path") st else st).
  assert (H0 : State.iteration st0 = State.iteration st).
  { subst st0. destruct (Js.strict_eq_str toolName "write_file"
                         && Js.truthy_value (Js.get args "path"));
      [apply addChangedFile_iteration | reflexivity]. }
  match goal with
  | |- (let '(_, _) := ?call in _) = _ -> _ => destruct call as [w1 o1]
  end.
  destruct o1 as [result|message]; intros [= _ <- _];
    [rewrite update_state_iteration|]; exact H0.
Qed.

Lemma executeToolWithArgs_threw toolName args w st w' st' message :
  executeToolWithArgs World call_tool toolName args w st
    = (w', st', Threw message) ->
  exists w0 name argv, call_tool w0 name argv = (w', Threw message).
Proof.
  unfold executeToolWithArgs.
  destruct (negb (Js.property_truthy allTools (Js.to_string toolName)));
    [discriminate|].
  destruct toolName as [| |b|n|name|items|fields];
    try (simpl; discriminate).
  destruct (call_arguments name args) as [argv|]; [|simpl; discriminate].
  destruct (call_tool w name argv) as [w1 o1] eqn:Ec.
  destruct o1 as [result|m]; [discriminate|].
  intros [= <- _ <-]. eauto.
Qed.

Lemma loop_body_cases (l : Loop World) :
  pass_case fetch_completion call_tool JSON_stringify JSON_stringify_pretty l
    (loop_body World fetch_completion call_tool JSON_stringify
       JSON_stringify_pretty OPENAI_API_KEY OPENAI_MODEL l).
Proof.
  unfold loop_body. cbv zeta.
  destruct (Llm.callLLM World fetch_completion OPENAI_API_KEY (messages World l)
              (Llm.DEFAULT_MODEL OPENAI_MODEL) 3 (world World l))
    as [w1 response] eqn:Ec.
  destruct (Llm.llm_success response) eqn:Es; simpl.
  2:{ now apply pass_llm_failure. }
  destruct (callLLM_decoded _ _ _ _ _ _ _ Ec Es) as [p [Hf Hk]].
  destruct Hk as [[H1 ->] | [[H1 [H2 ->]] | [H1 [H2 [H3 [H4 ->]]]]]]; simpl.
  - apply pass_done.
  - rewrite H2. destruct (Js.get p "plan") as [| | | | |steps|] eqn:Ep;
      try discriminate H2;
      try (eapply pass_plan_not_array;
           [exact Hf | rewrite Ep; exact H2 | rewrite Ep; reflexivity]).
    eapply pass_plan; eauto.
  - rewrite H3. simpl.
    destruct (executeToolWithArgs World call_tool (Js.get p "tool")
                (Js.or_value (Js.get p "args") (Js.VObj []))
                w1 (State.incrementIteration (state World l)))
      as [[w2 st2] outcome] eqn:Ee.
    pose proof (executeToolWithArgs_iteration _ _ _ _ _ _ _ Ee) as Hi.
    destruct outcome as [toolResult|message].
    + now apply pass_tool_returned.
    + apply pass_tool_threw; [|exact Hi].
      eapply executeToolWithArgs_threw; eauto.
Qed.

(** Every pass adds one to the iteration count and to the number of
    passes, whatever the endpoint and the tool answer; a pass that
    returns to the loop condition leaves [done] as it was. *)
Lemma pass_case_progress (l : Loop World) r :
  pass_case fetch_completion call_tool JSON_stringify JSON_stringify_pretty l r ->
  match r with
  | inl (e, l') =>
      State.count (State.iteration (state World l'))
        = S (State.count (State.iteration (state World l))) /\
      passes World l' = S (passes World l) /\
      e <> ExitBudget /\ e <> ExitInvalidResponse
  | inr l' =>
      State.count (State.iteration (state World l'))
        = S (State.count (State.iteration (state World l))) /\
      passes World l' = S (passes World l) /\
      done World l' = done World l
  end.
Proof.
  destruct 1; simpl; repeat split; try discriminate; try reflexivity.
  - now rewrite H0.
  - destruct (Llm.isError toolResult); simpl; now rewrite H.
Qed.

Lemma agent_loop_unfold (fuel : nat) (l : Loop World) :
  agent_loop World fetch_completion call_tool JSON_stringify
    JSON_stringify_pretty OPENAI_API_KEY OPENAI_MODEL (S fuel) l
  = if (State.count (State.iteration (state World l)) <? MAX_STEPS)%nat
       && negb (done World l)
    then
      match loop_body World fetch_completion call_tool JSON_stringify
              JSON_stringify_pretty OPENAI_API_KEY OPENAI_MODEL l with
      | inl stopped => Some stopped
      | inr l' =>
          agent_loop World fetch_completion call_tool JSON_stringify
            JSON_stringify_pretty OPENAI_API_KEY OPENAI_MODEL fuel l'
      end
    else Some (ExitBudget, l).
Proof. reflexivity. Qed.

(** The loop ends: with [n] an upper bound of the budget that is left,
    [n + 1] evaluations of the loop condition are enough, and the
    result does not depend on how many more are allowed. *)
Lemma agent_loop_total (n : nat) :
  forall l : Loop World,
    MAX_STEPS - State.count (State.iteration (state World l)) <= n ->
    exists exit l',
      (forall fuel, n < fuel ->
         agent_loop World fetch_completion call_tool JSON_stringify
           JSON_stringify_pretty OPENAI_API_KEY OPENAI_MODEL fuel l
         = Some (exit, l')) /\
      passes World l <= passes World l' /\
      passes World l' - passes World l
        <= MAX_STEPS - State.count (State.iteration (state World l)) /\
      State.count (State.iteration (state World l'))
        = State.count (State.iteration (state World l))
          + (passes World l' - passes World l) /\
      exit <> ExitInvalidResponse.
Proof.
  induction n as [|n IH]; intros l Hn;
    destruct ((State.count (State.iteration (state World l)) <? MAX_STEPS)%nat
              && negb (done World l)) eqn:Econd.
  - apply andb_prop in Econd. destruct Econd as [Hlt _].
    apply Nat.ltb_lt in Hlt. lia.
  - exists ExitBudget, l. split; [|repeat split; try lia; discriminate].
    intros [|fuel] Hf; [lia|]. now rewrite agent_loop_unfold, Econd.
  - pose proof (loop_body_cases l) as Hcase.
    apply pass_case_progress in Hcase.
    assert (Hlt : State.count (State.iteration (state World l)) < MAX_STEPS).
    { apply andb_prop in Econd. destruct Econd as [Hlt _].
      now apply Nat.ltb_lt in Hlt. }
    destruct (loop_body World fetch_completion call_tool JSON_stringify
                JSON_stringify_pretty OPENAI_API_KEY OPENAI_MODEL l)
      as [[e l1]|l1] eqn:Eb.
    + destruct Hcase as [Hc [Hp [_ Hinv]]].
      exists e, l1. split; [|repeat split; try lia; exact Hinv].
      intros [|fuel] Hf; [lia|]. now rewrite agent_loop_unfold, Econd, Eb.
    + destruct Hcase as [Hc [Hp Hd]].
      destruct (IH l1 ltac:(lia)) as [exit [l' [Hrun [H1 [H2 [H3 H4]]]]]].
      exists exit, l'. split; [|repeat split; try lia; exact H4].
      intros [|fuel] Hf; [lia|]. rewrite agent_loop_unfold, Econd, Eb.
      apply Hrun. lia.
  - exists ExitBudget, l. split; [|repeat split; try lia; discriminate].
    intros [|fuel] Hf; [lia|]. now rewrite agent_loop_unfold, Econd.
Qed.

(** The loop is never left through its [!action.tool] test: [callLLM]
    returns no successful answer without [plan], [done] and [tool]. *)
Lemma agent_loop_exits (fuel : nat) :
  forall (l : Loop World) e l',
    agent_loop World fetch_completion call_tool JSON_stringify
      JSON_stringify_pretty OPENAI_API_KEY OPENAI_MODEL fuel l = Some (e, l') ->
    e = ExitDone \/ e = ExitBudget \/ e = ExitLlmFailure
    \/ exists message, e = ExitUncaught message.
Proof.
  induction fuel as [|fuel IH]; intros l e l'; [discriminate|].
  rewrite agent_loop_unfold.
  destruct ((State.count (State.iteration (state World l)) <? MAX_STEPS)%nat
            && negb (done World l)).
  - pose proof (pass_case_progress l _ (loop_body_cases l)) as Hcase.
    destruct (loop_body World fetch_completion call_tool JSON_stringify
                JSON_stringify_pretty OPENAI_API_KEY OPENAI_MODEL l)
      as [[e1 l1]|l1].
    + intros [= <- <-]. destruct Hcase as [_ [_ [Hb Hi]]].
      destruct e1; eauto; contradiction.
    + apply IH.
  - intros [= <- <-]. auto.
Qed.

(** When no tool function throws and every plan the endpoint answers
    is an array, the loop is left only by [done], by the budget, or by
    a failed [callLLM]. *)
Lemma agent_loop_exits_without_exceptions (fuel : nat) :
  (forall w name argv w' message, call_tool w name argv <> (w', Threw message)) ->
  (forall p, fetched World fetch_completion p ->
             Js.truthy_value (Js.get p "plan") = true ->
             Js.is_array (Js.get p "plan") = true) ->
  forall (l : Loop World) e l',
    agent_loop World fetch_completion call_tool JSON_stringify
      JSON_stringify_pretty OPENAI_API_KEY OPENAI_MODEL fuel l = Some (e, l') ->
    e = ExitDone \/ e = ExitBudget \/ e = ExitLlmFailure.
Proof.
  intros Htool Hplan.
  induction fuel as [|fuel IH]; intros l e l'; [discriminate|].
  rewrite agent_loop_unfold.
  destruct ((State.count (State.iteration (state World l)) <? MAX_STEPS)%nat
            && negb (done World l)).
  - pose proof (loop_body_cases l) as Hcase.
    destruct (loop_body World fetch_completion call_tool JSON_stringify
                JSON_stringify_pretty OPENAI_API_KEY OPENAI_MODEL l)
      as [[e1 l1]|l1].
    + intros [= <- <-]. inversion Hcase; subst; auto.
      * exfalso. match goal with
                 | Hf : fetched _ _ ?p, Ht : Js.truthy_value _ = true,
                   Ha : Js.is_array _ = false |- _ =>
                     rewrite (Hplan _ Hf Ht) in Ha; discriminate
                 end.
      * exfalso. match goal with
                 | H : exists _ _ _, _ |- _ =>
                     destruct H as [w0 [name [argv H]]]; exact (Htool _ _ _ _ _ H)
                 end.
    + apply IH.
  - intros [= <- <-]. auto.
Qed.

(** A tool result never ends the loop, failed or not: the pass returns
    to the loop condition, a failure adds one repair and its error to
    the recorded errors, and the formatted result joins the history. *)
Lemma tool_result_continues (l : Loop World) w1 response w2 st2 toolResult :
  Llm.callLLM World fetch_completion OPENAI_API_KEY (messages World l)
    (Llm.DEFAULT_MODEL OPENAI_MODEL) 3 (world World l) = (w1, response) ->
  Llm.llm_success response = true ->
  Js.truthy_value (Js.get (Llm.llm_data response) "plan") = false ->
  Js.truthy_value (Js.get (Llm.llm_data response) "done") = false ->
  executeToolWithArgs World call_tool (Js.get (Llm.llm_data response) "tool")
    (Js.or_value (Js.get (Llm.llm_data response) "args") (Js.VObj []))
    w1 (State.incrementIteration (state World l))
    = (w2, st2, Returned toolResult) ->
  exists l',
    loop_body World fetch_completion call_tool JSON_stringify
      JSON_stringify_pretty OPENAI_API_KEY OPENAI_MODEL l = inr l' /\
    State.repairs (State.iteration (state World l'))
      = State.repairs (State.iteration st2)
        + (if Llm.isError toolResult then 1 else 0) /\
    State.errors (State.iteration (state World l'))
      = (State.errors (State.iteration st2)
         ++ (if Llm.isError toolResult
             then [Js.or_value (error toolResult)
                     (Js.VStr (Js.to_string (Js.get (Llm.llm_data response) "tool")
                               ++ " failed"))]
             else []))%list /\
    In (Llm.formatToolResult JSON_stringify_pretty
          (Js.get (Llm.llm_data response) "tool") toolResult)
       (messages World l').
Proof.
  intros Ec Es Hp Hd Ee.
  assert (Ht : Js.truthy_value (Js.get (Llm.llm_data response) "tool") = true).
  { destruct (callLLM_decoded _ _ _ _ _ _ _ Ec Es) as [p [_ Hk]].
    destruct Hk as [[_ E] | [[_ [H2 E]] | [_ [_ [H3 [_ E]]]]]];
      rewrite E in *; simpl in *; congruence. }
  unfold loop_body. cbv zeta. rewrite Ec, Es. simpl.
  rewrite Hp, Hd, Ht. simpl. rewrite Ee.
  eexists. split; [reflexivity|]. simpl.
  destruct (Llm.isError toolResult); simpl.
  - split; [lia | split; [reflexivity|]].
    match goal with
    | |- context [if ?c then _ else _] => destruct c
    end; rewrite ?in_app_iff; simpl; tauto.
  - split; [lia | split; [now rewrite app_nil_r|]].
    match goal with
    | |- context [if ?c then _ else _] => destruct c
    end; rewrite ?in_app_iff; simpl; tauto.
Qed.

End WithWorld.

End AgentFacts.

(** C4 (loop termination).  For every goal, endpoint and tool behaviour,
    and from every state, the loop ends: the maximum number of steps
    plus one evaluations of its condition are enough and more change
    nothing.  It makes at most the maximum number of passes, and each
    pass adds exactly one to the iteration count. *)
Theorem agent_loop_terminates :
  forall (World : Type)
         (fetch_completion :
            World -> string -> list Llm.Message -> World * Llm.FetchOutcome)
         (call_tool : World -> string -> list Js.value -> World * Agent.ToolOutcome)
         (JSON_stringify JSON_stringify_pretty : Js.value -> string)
         (OPENAI_API_KEY OPENAI_MODEL : option string)
         (l : Agent.Loop World),
    exists exit l',
      (forall fuel, Agent.MAX_STEPS + 1 <= fuel ->
         Agent.agent_loop World fetch_completion call_tool JSON_stringify
           JSON_stringify_pretty OPENAI_API_KEY OPENAI_MODEL fuel l
         = Some (exit, l')) /\
      Agent.passes World l <= Agent.passes World l' /\
      Agent.passes World l' - Agent.passes World l <= Agent.MAX_STEPS /\
      State.count (State.iteration (Agent.state World l'))
        = State.count (State.iteration (Agent.state World l))
          + (Agent.passes World l' - Agent.passes World l).
Proof.
  intros World fetch call_tool js jsp key model l.
  destruct (AgentFacts.agent_loop_total World fetch call_tool js jsp key model
              Agent.MAX_STEPS l ltac:(lia))
    as [exit [l' [Hrun [H1 [H2 [H3 _]]]]]].
  exists exit, l'. split; [|repeat split; try lia].
  intros fuel Hf. apply Hrun. lia.
Qed.

Lemma agent_loop_terminates_witness :
  let fetch := fun (w : unit) (_ : string) (_ : list Llm.Message) =>
    (w, Llm.Completion
          (Some ("{" ++ Js.quote "tool" ++ ": " ++ Js.quote "list_files" ++ ", "
                 ++ Js.quote "args" ++ ": {" ++ Js.quote "dir" ++ ": "
                 ++ Js.quote "." ++ "}}"))
          (Some "stop")
          (Some (Js.VObj [ ("tool", Js.VStr "list_files");
                           ("args", Js.VObj [("dir", Js.VStr ".")]) ]))) in
  let call_tool := fun (w : unit) (_ : string) (_ : list Js.value) =>
    (w, Agent.Returned
          (mkResult true (Js.VObj [("count", Js.VNum 3)]) Js.VUndefined)) in
  Agent.MAX_STEPS + 1 <= 16 /\
  exists exit l',
    Agent.agent_loop unit fetch call_tool (fun _ => "") (fun _ => "")
      (Some "sk-key") None 16 (Agent.initial_loop unit "List all files" tt)
    = Some (exit, l') /\
    Agent.passes unit l' <= Agent.MAX_STEPS.
Proof.
  intros fetch call_tool.
  assert (Hfuel : Agent.MAX_STEPS + 1 <= 16) by (unfold Agent.MAX_STEPS; lia).
  split; [exact Hfuel|].
  destruct (agent_loop_terminates unit fetch call_tool (fun _ => "") (fun _ => "")
              (Some "sk-key") None (Agent.initial_loop unit "List all files" tt))
    as [exit [l' [Hrun [H1 [H2 _]]]]].
  exists exit, l'. split; [exact (Hrun 16 Hfuel)|].
  simpl in H2. lia.
Defined.

(** C5 (exit-path exclusivity), evaluated on the code at an answer the
    decoder accepts: the model answers an object whose [plan] is a
    string.  [callLLM] succeeds, and the first pass is left by the
    exception that [action.plan.forEach] throws, which is none of
    [done], budget exhaustion and a failed LLM call. *)
Theorem agent_loop_left_by_exception :
  let content :=
    "{" ++ Js.quote "plan" ++ ": "
    ++ Js.quote "Backup, edit constants, build" ++ "}" in
  let parsed := Js.VObj [("plan", Js.VStr "Backup, edit constants, build")] in
  let fetch := fun (w : unit) (_ : string) (_ : list Llm.Message) =>
    (w, Llm.Completion (Some content) (Some "stop") (Some parsed)) in
  let call_tool := fun (w : unit) (_ : string) (_ : list Js.value) =>
    (w, Agent.Returned (mkResult true Js.VUndefined Js.VUndefined)) in
  Llm.llm_success
    (snd (Llm.callLLM unit fetch (Some "sk-key") [Llm.formatGoal "Add a proof item"]
            (Llm.DEFAULT_MODEL None) 3 tt)) = true /\
  exists l',
    Agent.agent_loop unit fetch call_tool (fun _ => "") (fun _ => "")
      (Some "sk-key") None 16 (Agent.initial_loop unit "Add a proof item" tt)
    = Some (Agent.ExitUncaught "action.plan.forEach is not a function", l') /\
    Agent.passes unit l' = 1 /\
    Agent.done unit l' = false /\
    State.repairs (State.iteration (Agent.state unit l')) = 0.
Proof.
  split; [reflexivity|].
  eexists. split; [vm_compute; reflexivity|].
  repeat split.
Qed.

(* ================================================================== *)
(** ** The backup tools and the other git tools                       *)
(* ================================================================== *)

Module BackupFacts.

Import Git GitFacts.

Section WithGit.

Context {World : Type}.
Variable spawn : World -> list string -> World * ExecResult.

Lemma execGit_root (args : list string) (e : Env World) :
  PROJECT_ROOT (snd (execGit spawn args e)) = PROJECT_ROOT e.
Proof. unfold execGit. now destruct (spawn (world e) args). Qed.

(** What one [execGit] leaves behind, as one rewriting step. *)
Lemma execGit_env (args : list string) (e : Env World) :
  snd (execGit spawn args e)
  = mkEnv (fst (spawn (world e) args)) (issued e ++ [args])%list
      (PROJECT_ROOT e) (BACKUP_STASH_REF e).
Proof. unfold execGit. now destruct (spawn (world e) args). Qed.

Lemma execGit_pair (args : list string) (e : Env World) :
  execGit spawn args e
  = (snd (spawn (world e) args),
     mkEnv (fst (spawn (world e) args)) (issued e ++ [args])%list
       (PROJECT_ROOT e) (BACKUP_STASH_REF e)).
Proof. unfold execGit. now destruct (spawn (world e) args). Qed.

(** The invocations of [git_restore_backup], its result and the module
    variable afterwards. *)
Lemma git_restore_backup_spec (e0 : Env World) :
  let r := git_restore_backup spawn e0 in
  success (fst r) = true /\
  Js.truthy (BACKUP_STASH_REF (snd r)) = false /\
  PROJECT_ROOT (snd r) = PROJECT_ROOT e0 /\
  exists tail,
    issued (snd r)
    = (issued e0 ++ [["checkout"; "."]; ["clean"; "-fd"]; ["reset"; "HEAD"]]
       ++ tail)%list /\
    (Js.truthy (BACKUP_STASH_REF e0) = false -> tail = []) /\
    (Js.truthy (BACKUP_STASH_REF e0) = true ->
     tail = [["stash"; "list"]] \/ tail = [["stash"; "list"]; ["stash"; "pop"]]).
Proof.
  unfold git_restore_backup. cbv zeta.
  rewrite !execGit_env. cbn [BACKUP_STASH_REF world issued PROJECT_ROOT].
  destruct (Js.truthy (BACKUP_STASH_REF e0)) eqn:Et.
  - rewrite execGit_pair. cbn [BACKUP_STASH_REF world issued PROJECT_ROOT fst snd].
    match goal with
    | |- context [if ?c then _ else _] => destruct c
    end.
    + rewrite execGit_env. cbn.
      split; [reflexivity | split; [reflexivity | split; [reflexivity|]]].
      exists [["stash"; "list"]; ["stash"; "pop"]].
      split; [now rewrite <- !app_assoc | split; [discriminate | auto]].
    + cbn.
      split; [reflexivity | split; [reflexivity | split; [reflexivity|]]].
      exists [["stash"; "list"]].
      split; [now rewrite <- !app_assoc | split; [discriminate | auto]].
  - cbn.
    split; [reflexivity | split; [exact Et | split; [reflexivity|]]].
    exists []. split; [now rewrite <- !app_assoc | split; [auto | discriminate]].
Qed.

(** The three ways [git_stash_backup] runs. *)
Lemma git_stash_backup_spec (e0 : Env World) :
  let status := snd (spawn (world e0) ["status"; "--porcelain"]) in
  let w1 := fst (spawn (world e0) ["status"; "--porcelain"]) in
  let push := ["stash"; "push"; "-m"; "AGENT_BACKUP_PRE_MODIFICATION"] in
  let r := git_stash_backup spawn e0 in
  PROJECT_ROOT (snd r) = PROJECT_ROOT e0 /\
  (  (Js.trim (stdout status) = "" /\
      success (fst r) = true /\
      Js.get (data (fst r)) "stashed_changes" = Js.VBool false /\
      BACKUP_STASH_REF (snd r) = BACKUP_STASH_REF e0 /\
      issued (snd r)
      = (issued e0 ++ [["status"; "--porcelain"]; ["rev-parse"; "HEAD"]])%list)
  \/ (Js.trim (stdout status) <> "" /\
      exitCode (snd (spawn w1 push)) <> 0%Z /\
      success (fst r) = false /\
      BACKUP_STASH_REF (snd r) = BACKUP_STASH_REF e0 /\
      issued (snd r) = (issued e0 ++ [["status"; "--porcelain"]; push])%list)
  \/ (Js.trim (stdout status) <> "" /\
      exitCode (snd (spawn w1 push)) = 0%Z /\
      success (fst r) = true /\
      Js.get (data (fst r)) "stashed_changes" = Js.VBool true /\
      BACKUP_STASH_REF (snd r) = Some "stash@{0}" /\
      issued (snd r)
      = (issued e0 ++ [["status"; "--porcelain"]; push; ["rev-parse"; "HEAD"]])%list)).
Proof.
  unfold git_stash_backup. cbv zeta.
  rewrite execGit_pair.
  destruct (String.eqb_spec (Js.trim (stdout (snd (spawn (world e0) ["status"; "--porcelain"])))) "")
    as [Eq|Ne]; cbn [negb].
  - rewrite execGit_pair. cbn. split; [reflexivity | left].
    rewrite <- !app_assoc. auto.
  - rewrite execGit_pair. cbn [world issued PROJECT_ROOT BACKUP_STASH_REF fst snd].
    destruct (Z.eqb_spec
                (exitCode (snd (spawn (fst (spawn (world e0) ["status"; "--porcelain"]))
                   ["stash"; "push"; "-m"; "AGENT_BACKUP_PRE_MODIFICATION"]))) 0)
      as [E0|N0]; cbn [negb].
    + rewrite execGit_pair. cbn. split; [reflexivity | right; right].
      rewrite <- !app_assoc. auto 10.
    + cbn. split; [reflexivity | right; left].
      rewrite <- !app_assoc. auto 10.
Qed.

Lemma backup_op_balance (e : Env World) (op : BackupOp) :
  (pops e + outstanding e <= pushes e)%nat ->
  (pops (run_backup_op spawn e op) + outstanding (run_backup_op spawn e op)
   <= pushes (run_backup_op spawn e op))%nat.
Proof.
  unfold pops, pushes, outstanding. intros H.
  destruct op; cbn [run_backup_op].
  - destruct (git_stash_backup_spec e) as [_ [C|[C|C]]];
      cbv zeta in C.
    + destruct C as [_ [_ [_ [Hr Hi]]]]. rewrite Hr, Hi, !filter_app, !length_app.
      cbn. lia.
    + destruct C as [_ [_ [_ [Hr Hi]]]]. rewrite Hr, Hi, !filter_app, !length_app.
      cbn. lia.
    + destruct C as [_ [_ [_ [_ [Hr Hi]]]]]. rewrite Hr, Hi, !filter_app, !length_app.
      cbn. destruct (Js.truthy (BACKUP_STASH_REF e)); lia.
  - destruct (git_restore_backup_spec e) as [_ [Hr [_ [tail [Hi [Hf Ht]]]]]].
    rewrite Hr, Hi, !filter_app, !length_app.
    destruct (Js.truthy (BACKUP_STASH_REF e)).
    + destruct (Ht eq_refl) as [-> | ->]; cbn; cbn in H; lia.
    + rewrite (Hf eq_refl). cbn. cbn in H. lia.
  - unfold git_clear_backup. cbv zeta.
    destruct (Js.truthy (BACKUP_STASH_REF e)) eqn:Et.
    + rewrite execGit_pair. cbn. rewrite !filter_app, !length_app. cbn. lia.
    + cbn. rewrite Et. lia.
Qed.

Lemma backup_ops_balance (ops : list BackupOp) (e : Env World) :
  (pops e + outstanding e <= pushes e)%nat ->
  (pops (run_backup_ops spawn ops e) + outstanding (run_backup_ops spawn ops e)
   <= pushes (run_backup_ops spawn ops e))%nat.
Proof.
  revert e. induction ops as [|op ops IH]; intros e H; [exact H|].
  cbn. apply IH. now apply backup_op_balance.
Qed.

End WithGit.

End BackupFacts.

Module LineFacts.

Import StringFacts PathFacts.

Lemma split_unit_cons (sep c : ascii) (r : string) :
  Js.split sep (String c r) =
  if Ascii.eqb c sep then "" :: Js.split sep r
  else match Js.split sep r with
       | [] => [String c ""]
       | h :: t => String c h :: t
       end.
Proof. reflexivity. Qed.

(** [s.split(sep).join(sep)] gives [s] back. *)
Lemma concat_split_unit (sep : ascii) (s : string) :
  String.concat (String sep "") (Js.split sep s) = s.
Proof.
  induction s as [|c s IH]; [reflexivity|]. rewrite split_unit_cons.
  destruct (Js.split sep s) as [|h t] eqn:E;
    [exfalso; exact (split_not_nil _ _ E)|].
  destruct (Ascii.eqb_spec c sep) as [->|Hc].
  - rewrite PlainPathFacts.concat_cons2, IH. reflexivity.
  - destruct t as [|y l].
    + simpl in *. now rewrite IH.
    + rewrite PlainPathFacts.concat_cons2 in *.
      change (String c (h ++ String sep "" ++ String.concat (String sep "") (y :: l))
              = String c s).
      now rewrite IH.
Qed.

(** No piece of a split holds the separator. *)
Lemma split_unit_free (sep : ascii) (s : string) :
  Forall (fun piece => Js.includes piece (String sep "") = false) (Js.split sep s).
Proof.
  induction s as [|c s IH]; [repeat constructor|].
  rewrite split_unit_cons.
  destruct (Ascii.eqb_spec c sep) as [->|Hc].
  - constructor; [reflexivity | exact IH].
  - destruct (Js.split sep s) as [|h t] eqn:E.
    + constructor; [|constructor].
      rewrite PlainPathFacts.includes_unfold, prefix_cons.
      destruct (Ascii.ascii_dec sep c); [now subst|reflexivity].
    + inversion IH as [|? ? Hh Ht]; subst. constructor; [|exact Ht].
      rewrite PlainPathFacts.includes_unfold, prefix_cons, Hh.
      destruct (Ascii.ascii_dec sep c); [now subst|reflexivity].
Qed.

Lemma trimStart_head (s : string) :
  match Js.trimStart s with
  | EmptyString => True
  | String c _ => Js.is_space c = false
  end.
Proof.
  induction s as [|c r IH]; cbn; [exact I|].
  destruct (Js.is_space c) eqn:E; [exact IH | exact E].
Qed.

Lemma trimEnd_head (c : ascii) (r : string) :
  Js.is_space c = false -> exists r', Js.trimEnd (String c r) = String c r'.
Proof.
  intros E. cbn. destruct (Js.trimEnd r); [rewrite E|]; eauto.
Qed.

(** A trimmed string is empty or starts with a character that is not
    white space. *)
Lemma trim_head (s : string) :
  match Js.trim s with
  | EmptyString => True
  | String c _ => Js.is_space c = false
  end.
Proof.
  unfold Js.trim. pose proof (trimStart_head s) as H.
  destruct (Js.trimStart s) as [|c r]; [exact I|].
  destruct (trimEnd_head c r H) as [r' ->]. exact H.
Qed.

Lemma length_zero (s : string) : (String.length s =? 0)%nat = (s =? "").
Proof. now destruct s. Qed.

(** A command's output has no non-empty line exactly when it is blank. *)
Lemma output_lines_nil (out : string) :
  Js.output_lines out = [] <-> Js.trim out = "".
Proof.
  unfold Js.output_lines. pose proof (trim_head out) as H.
  destruct (Js.trim out) as [|c r]; [split; reflexivity|].
  split; [|discriminate]. rewrite split_unit_cons.
  destruct (Ascii.eqb_spec c Js.LF_unit) as [->|_]; [discriminate H|].
  destruct (Js.split Js.LF_unit r); discriminate.
Qed.

Lemma output_lines_nonempty (out : string) :
  Forall (fun line => line <> "") (Js.output_lines out).
Proof.
  unfold Js.output_lines. apply Forall_forall. intros line Hin.
  apply filter_In in Hin. destruct Hin as [_ Hne].
  destruct (String.eqb_spec line ""); [discriminate | assumption].
Qed.

End LineFacts.

Module CommitFacts.

Import Git GitFacts.

Lemma span_all (p : ascii -> bool) (s a b : string) :
  Js.span p s = (a, b) ->
  s = a ++ b /\ forallb p (list_ascii_of_string a) = true /\
  match b with String c _ => p c = false | EmptyString => True end.
Proof.
  revert a b. induction s as [|c r IH]; intros a b H; cbn in H.
  - inversion H; subst. auto.
  - destruct (p c) eqn:Ep.
    + destruct (Js.span p r) as [a' b'] eqn:Es. inversion H; subst.
      destruct (IH a' b eq_refl) as [Hr [Ha Hb]].
      cbn. rewrite Ep, Ha. subst r. auto.
    + inversion H; subst. cbn. auto.
Qed.

(** A run of characters of the class, followed by one outside it, is
    what [span] splits off. *)
Lemma span_app (p : ascii -> bool) (a b : string) :
  forallb p (list_ascii_of_string a) = true ->
  match b with String c _ => p c = false | EmptyString => True end ->
  Js.span p (a ++ b) = (a, b).
Proof.
  intros Ha Hb. induction a as [|c a IH]; cbn in *.
  - destruct b as [|c b]; [reflexivity|]. cbn. now rewrite Hb.
  - apply andb_prop in Ha. destruct Ha as [Hc Ha].
    rewrite Hc, (IH Ha). reflexivity.
Qed.

Lemma includes_here (s t : string) : Js.startsWith s t = true -> Js.includes s t = true.
Proof.
  unfold Js.startsWith. intros H.
  rewrite PlainPathFacts.includes_unfold, H. reflexivity.
Qed.

Lemma includes_later (c : ascii) (s t : string) :
  Js.includes s t = true -> Js.includes (String c s) t = true.
Proof.
  intros H. rewrite PlainPathFacts.includes_unfold, H. apply orb_true_r.
Qed.

Lemma hash_match_at_sound (s h : string) :
  hash_match_at s = Some h ->
  hex_string h /\
  exists name rest,
    name <> "" /\
    forallb (fun c => Js.is_word c || Ascii.eqb c "-"%char)
      (list_ascii_of_string name) = true /\
    s = "[" ++ name ++ " " ++ h ++ "]" ++ rest.
Proof.
  unfold hash_match_at. intros H.
  destruct s as [|c0 r]; [discriminate|].
  destruct (Ascii.eqb_spec c0 "["%char) as [->|N].
  2:{ destruct c0 as [[] [] [] [] [] [] [] []]; try discriminate. now elim N. }
  cbn in H.
  destruct (Js.span (fun c => Js.is_word c || Ascii.eqb c "-"%char) r)
    as [name r1] eqn:E1.
  destruct (String.eqb_spec name "") as [|Nn]; [discriminate|].
  destruct r1 as [|c1 r2]; [discriminate|].
  destruct (Ascii.eqb_spec c1 " "%char) as [->|N].
  2:{ destruct c1 as [[] [] [] [] [] [] [] []]; try discriminate. now elim N. }
  cbn in H.
  destruct (Js.span Js.is_lower_hex r2) as [hash r3] eqn:E2.
  destruct (String.eqb_spec hash "") as [|Nh]; [discriminate|].
  destruct r3 as [|c3 r4]; [discriminate|].
  destruct (Ascii.eqb_spec c3 "]"%char) as [->|N].
  2:{ destruct c3 as [[] [] [] [] [] [] [] []]; try discriminate. now elim N. }
  inversion H; subst hash.
  destruct (span_all _ _ _ _ E1) as [Hr [Hname _]].
  destruct (span_all _ _ _ _ E2) as [Hr2 [Hh _]].
  split; [split; assumption|].
  exists name, r4. split; [assumption | split; [assumption|]].
  subst r r2. reflexivity.
Qed.

Lemma hashMatch_sound (s h : string) :
  hashMatch s = Some h ->
  hex_string h /\
  exists name, name <> "" /\ Js.includes s ("[" ++ name ++ " " ++ h ++ "]") = true.
Proof.
  induction s as [|c r IH]; intros H.
  - cbn in H. discriminate.
  - cbn [hashMatch] in H.
    destruct (hash_match_at (String c r)) as [h'|] eqn:E.
    + inversion H; subst h'.
      destruct (hash_match_at_sound _ _ E) as [Hh [name [rest [Hn [_ Hs]]]]].
      split; [exact Hh|]. exists name. split; [exact Hn|].
      apply includes_here. unfold Js.startsWith. rewrite Hs.
      apply StringFacts.prefix_exists.
      exists rest. cbn. f_equal.
      repeat (rewrite StringFacts.app_assoc; cbn). reflexivity.
    + destruct (IH H) as [Hh [name [Hn Hi]]].
      split; [exact Hh|]. exists name. split; [exact Hn|].
      now apply includes_later.
Qed.

(** The line [git commit] prints first, for a branch whose name is made
    of word characters and hyphens: the hash in it is the one found. *)
Lemma hashMatch_commit_line (name h rest : string) :
  name <> "" ->
  forallb (fun c => Js.is_word c || Ascii.eqb c "-"%char)
    (list_ascii_of_string name) = true ->
  hex_string h ->
  hashMatch ("[" ++ name ++ " " ++ h ++ "]" ++ rest) = Some h.
Proof.
  intros Hn Hname [Hh Hhex].
  change ("[" ++ name ++ " " ++ h ++ "]" ++ rest)
    with (String "["%char (name ++ String " "%char (h ++ String "]"%char rest))).
  cbn [hashMatch]. unfold hash_match_at.
  rewrite (span_app _ name (String " "%char (h ++ String "]"%char rest)) Hname eq_refl).
  destruct (String.eqb_spec name ""); [contradiction|].
  rewrite (span_app _ h (String "]"%char rest) Hhex eq_refl).
  destruct (String.eqb_spec h ""); [contradiction|]. reflexivity.
Qed.

End CommitFacts.

Module GitToolFacts.

Import Git GitFacts BackupFacts LineFacts.

Section WithGit.

Context {World : Type}.
Variable spawn : World -> list string -> World * ExecResult.

Lemma blank_message (message : string) :
  (message =? "") || (String.length (Js.trim message) =? 0)%nat
  = (Js.trim message =? "").
Proof.
  rewrite length_zero. destruct (String.eqb_spec message "") as [->|N]; reflexivity.
Qed.

(** The invocations of [git_commit]: none for a blank message, else the
    two [git config] calls and the commit, with the message as one
    argument. *)
Lemma git_commit_issued (message : string) (e0 : Env World) :
  let r := git_commit spawn message e0 in
  (Js.trim message = "" ->
   r = (mkResult false Js.VUndefined (Js.VStr "Commit message required"), e0)) /\
  (Js.trim message <> "" ->
   issued (snd r)
   = (issued e0
      ++ [ ["config"; "user.email"; "ashwinramesh022@users.noreply.github.com"];
           ["config"; "user.name"; "ashwinramesh022"];
           ["commit"; "-m"; message] ])%list /\
   BACKUP_STASH_REF (snd r) = BACKUP_STASH_REF e0 /\
   PROJECT_ROOT (snd r) = PROJECT_ROOT e0).
Proof.
  unfold git_commit. cbv zeta. rewrite blank_message.
  destruct (String.eqb_spec (Js.trim message) "") as [E|N].
  - split; [reflexivity | contradiction].
  - split; [contradiction|]. intros _.
    rewrite !execGit_env, execGit_pair.
    cbn [world issued PROJECT_ROOT BACKUP_STASH_REF fst snd].
    repeat match goal with
           | |- context [if ?c then _ else _] => destruct c
           end; cbn; rewrite <- !app_assoc; auto.
Qed.

(** What the commit itself answered: the world after the two
    [git config] calls, asked for the commit. *)
Lemma git_commit_result (message : string) (e0 : Env World) :
  Js.trim message <> "" ->
  let w1 :=
    fst (spawn (world e0)
           ["config"; "user.email"; "ashwinramesh022@users.noreply.github.com"]) in
  let w2 := fst (spawn w1 ["config"; "user.name"; "ashwinramesh022"]) in
  let out := snd (spawn w2 ["commit"; "-m"; message]) in
  let r := fst (git_commit spawn message e0) in
  (exitCode out = 0%Z ->
   success r = true /\
   Js.get (data r) "commit_hash"
   = match hashMatch (stdout out) with
     | Some hash => Js.VStr hash
     | None => Js.VNull
     end) /\
  (exitCode out <> 0%Z ->
   success r = Js.includes (stdout out) "nothing to commit" /\
   Js.nullish (Js.get (data r) "commit_hash") = true).
Proof.
  intros N. unfold git_commit. cbv zeta. rewrite blank_message.
  destruct (String.eqb_spec (Js.trim message) "") as [E|_]; [contradiction|].
  rewrite !execGit_env, execGit_pair.
  cbn [world issued PROJECT_ROOT BACKUP_STASH_REF fst snd].
  match goal with
  | |- context [(exitCode ?o =? 0)%Z] => destruct (Z.eqb_spec (exitCode o) 0) as [E0|N0]
  end; cbn [negb].
  - split; [intros _ | contradiction]. cbn. split; reflexivity.
  - split; [contradiction | intros _].
    match goal with
    | |- context [if ?c then _ else _] => destruct c
    end; cbn; split; reflexivity.
Qed.

Lemma git_clone_spec (cwd repoUrl targetDir : string) (e0 : Env World) :
  let r := git_clone spawn cwd repoUrl targetDir e0 in
  let targetPath := Path.resolve cwd [PROJECT_ROOT e0; targetDir] in
  BACKUP_STASH_REF (snd r) = BACKUP_STASH_REF e0 /\
  (Js.startsWith repoUrl "https://" || Js.startsWith repoUrl "git@" = false ->
   r = (mkResult false Js.VUndefined (Js.VStr "Invalid repository URL"), e0)) /\
  (Js.startsWith repoUrl "https://" || Js.startsWith repoUrl "git@" = true ->
   issued (snd r)
   = (issued e0 ++ [["clone"; "--depth"; "1"; repoUrl; targetPath]])%list /\
   (success (fst r) = true -> PROJECT_ROOT (snd r) = targetPath) /\
   (success (fst r) = false -> PROJECT_ROOT (snd r) = PROJECT_ROOT e0)).
Proof.
  unfold git_clone. cbv zeta.
  destruct (Js.startsWith repoUrl "https://" || Js.startsWith repoUrl "git@") eqn:Eu.
  - assert (Eg : negb (Js.startsWith repoUrl "https://")
                 && negb (Js.startsWith repoUrl "git@") = false).
    { destruct (Js.startsWith repoUrl "https://"), (Js.startsWith repoUrl "git@");
        cbn in *; congruence. }
    rewrite Eg, execGit_pair.
    match goal with
    | |- context [if ?c then _ else _] => destruct c
    end; cbn.
    + split; [reflexivity|]. split; [discriminate|]. intros _.
      split; [reflexivity|]. split; [discriminate | reflexivity].
    + split; [reflexivity|]. split; [discriminate|]. intros _.
      split; [reflexivity|]. split; [reflexivity | discriminate].
  - assert (Eg : negb (Js.startsWith repoUrl "https://")
                 && negb (Js.startsWith repoUrl "git@") = true).
    { destruct (Js.startsWith repoUrl "https://"), (Js.startsWith repoUrl "git@");
        cbn in *; congruence. }
    rewrite Eg. cbn. split; [reflexivity|]. split; [reflexivity | discriminate].
Qed.

End WithGit.

End GitToolFacts.

Module GitReadFacts.

Import Git GitFacts BackupFacts LineFacts CommitFacts.

Lemma free_of_includes (c : ascii) (s : string) :
  free_of c s <-> Js.includes s (String c "") = false.
Proof.
  unfold free_of. induction s as [|x r IH].
  - split; reflexivity.
  - rewrite PlainPathFacts.includes_unfold, StringFacts.prefix_cons.
    cbn [list_ascii_of_string forallb].
    destruct (Ascii.eqb_spec x c) as [->|N]; cbn [negb andb].
    + destruct (Ascii.ascii_dec c c); [|contradiction].
      rewrite StringFacts.prefix_empty. split; discriminate.
    + destruct (Ascii.ascii_dec c x); [now subst|]. cbn [orb]. exact IH.
Qed.

(** The first piece of a split, and what follows its separator. *)
Lemma split_head (sep : ascii) (s h : string) (t : list string) :
  Js.split sep s = h :: t ->
  free_of sep h /\
  (  (t = [] /\ s = h)
  \/ (t <> [] /\ s = h ++ String sep (String.concat (String sep "") t))).
Proof.
  intros E. pose proof (concat_split_unit sep s) as Hc.
  pose proof (split_unit_free sep s) as Hf. rewrite E in Hc, Hf.
  pose proof (Forall_inv Hf) as Hh. cbn beta in Hh.
  split; [now apply free_of_includes|].
  destruct t as [|y l].
  - left. auto.
  - right. split; [discriminate|].
    rewrite PlainPathFacts.concat_cons2 in Hc. now rewrite <- Hc.
Qed.

Lemma parse_log_line_round_trip (line : string) :
  exists hash message,
    parse_log_line line
    = Js.VObj [("hash", Js.VStr hash); ("message", Js.VStr message)] /\
    free_of Js.SP_unit hash /\
    (  (line = hash /\ message = "")
    \/ line = hash ++ " " ++ message).
Proof.
  unfold parse_log_line.
  destruct (Js.split Js.SP_unit line) as [|h t] eqn:E;
    [exfalso; exact (PathFacts.split_not_nil _ _ E)|].
  exists h, (String.concat " " t). split; [reflexivity|].
  destruct (split_head _ _ _ _ E) as [Hf [[-> ->]|[_ ->]]].
  - split; [exact Hf | left; auto].
  - split; [exact Hf | right; reflexivity].
Qed.

Lemma span_nonempty_head (p : ascii -> bool) (s a b : string) :
  Js.span p s = (a, b) -> a <> "" ->
  exists c r, s = String c r /\ p c = true.
Proof.
  destruct s as [|c r]; cbn; intros H N.
  - inversion H; subst. contradiction.
  - destruct (p c) eqn:E; [eauto|]. inversion H; subst. contradiction.
Qed.

Lemma forallb_weaken (p q : ascii -> bool) (l : list ascii) :
  (forall c, p c = true -> q c = true) ->
  forallb p l = true -> forallb q l = true.
Proof.
  intros Hpq. induction l as [|x l IH]; cbn; [reflexivity|].
  intros H. apply andb_prop in H. destruct H as [Hx Hl].
  now rewrite (Hpq _ Hx), IH.
Qed.

Lemma repo_match_at_sound (s owner repo : string) :
  repo_match_at s = Some (owner, repo) ->
  owner <> "" /\ repo <> "" /\
  free_of "/" owner /\ free_of "/" repo /\ free_of "." repo.
Proof.
  unfold repo_match_at. intros H.
  destruct (Js.startsWith s "github.com"); [|discriminate].
  destruct (Js.substring_from (String.length "github.com") s) as [|c r];
    [discriminate|].
  destruct (Ascii.eqb c "/" || Ascii.eqb c ":"); [|discriminate].
  destruct (Js.span (fun c => negb (Ascii.eqb c "/")) r) as [o r1] eqn:E1.
  destruct (String.eqb_spec o "") as [|No]; [discriminate|].
  destruct r1 as [|c1 r2]; [discriminate|].
  destruct (Js.span (fun c => negb (Ascii.eqb c "/") && negb (Ascii.eqb c ".")) r2)
    as [rp r3] eqn:E2.
  destruct (String.eqb_spec rp "") as [|Nr]; [discriminate|].
  inversion H; subst o rp.
  destruct (span_all _ _ _ _ E1) as [_ [Ho _]].
  destruct (span_all _ _ _ _ E2) as [_ [Hr _]].
  split; [exact No | split; [exact Nr | split; [exact Ho|]]].
  split; unfold free_of; eapply forallb_weaken; try exact Hr;
    intros x Hx; apply andb_prop in Hx; tauto.
Qed.

Lemma repoMatch_sound (s owner repo : string) :
  repoMatch s = Some (owner, repo) ->
  owner <> "" /\ repo <> "" /\
  free_of "/" owner /\ free_of "/" repo /\ free_of "." repo.
Proof.
  induction s as [|c r IH]; intros H.
  - cbn in H. discriminate.
  - cbn [repoMatch] in H.
    destruct (repo_match_at (String c r)) as [[o p]|] eqn:E.
    + inversion H; subst. exact (repo_match_at_sound _ _ _ E).
    + exact (IH H).
Qed.

Lemma endsWith_includes (s t : string) :
  Js.endsWith s t = true -> Js.includes s t = true.
Proof.
  induction s as [|c r IH];
    [ rewrite (StringFacts.endsWith_unfold "" t),
        (PlainPathFacts.includes_unfold "" t)
    | rewrite (StringFacts.endsWith_unfold (String c r) t),
        (PlainPathFacts.includes_unfold (String c r) t) ]; intros H.
  - rewrite orb_false_r in H. apply String.eqb_eq in H. subst t. reflexivity.
  - apply orb_prop in H. destruct H as [H|H].
    + apply String.eqb_eq in H. subst t.
      assert (P : String.prefix (String c r) (String c r) = true).
      { apply StringFacts.prefix_exists. exists "".
        now rewrite StringFacts.app_empty_r. }
      now rewrite P.
    + rewrite (IH H). apply orb_true_r.
Qed.

Lemma includes_app_r (a b t : string) :
  Js.includes b t = true -> Js.includes (a ++ b) t = true.
Proof.
  intros H. induction a as [|c a IH]; [exact H|].
  cbn [append]. rewrite PlainPathFacts.includes_unfold, IH. apply orb_true_r.
Qed.

Lemma includes_prefix_of (s t u : string) :
  Js.includes s (t ++ u) = true -> Js.includes s t = true.
Proof.
  induction s as [|c r IH];
    [ rewrite (PlainPathFacts.includes_unfold "" (t ++ u)),
        (PlainPathFacts.includes_unfold "" t)
    | rewrite (PlainPathFacts.includes_unfold (String c r) (t ++ u)),
        (PlainPathFacts.includes_unfold (String c r) t) ]; intros H.
  - rewrite orb_false_r in *. apply StringFacts.prefix_exists in H.
    destruct H as [x Hx]. apply StringFacts.prefix_exists.
    exists (u ++ x). now rewrite <- StringFacts.app_assoc.
  - apply orb_prop in H. destruct H as [H|H].
    + apply StringFacts.prefix_exists in H. destruct H as [x Hx].
      assert (P : String.prefix t (String c r) = true).
      { apply StringFacts.prefix_exists. exists (u ++ x).
        now rewrite <- StringFacts.app_assoc. }
      now rewrite P.
    + rewrite (IH H). apply orb_true_r.
Qed.

(** A name without a dot does not end in [.git]: the [replace] that
    follows the match never changes it. *)
Lemma strip_git_suffix_id (repo : string) :
  free_of "." repo -> strip_git_suffix repo = repo.
Proof.
  intros Hf. unfold strip_git_suffix.
  destruct (Js.endsWith repo ".git") eqn:E; [|reflexivity].
  apply endsWith_includes in E.
  apply (includes_prefix_of repo "." "git") in E.
  apply free_of_includes in Hf. congruence.
Qed.

End GitReadFacts.

(** [git_restore_backup] always reports success and always starts with
    [git checkout .], [git clean -fd], [git reset HEAD].  Without a
    backup reference it stops there; with one it asks [git stash list]
    and issues at most one [git stash pop] and nothing else.  Afterwards
    the module holds no backup reference. *)
Theorem git_restore_backup_trace :
  forall (World : Type) (spawn : World -> list string -> World * Git.ExecResult)
         (e0 : Git.Env World),
    let r := Git.git_restore_backup spawn e0 in
    success (fst r) = true /\
    Js.truthy (Git.BACKUP_STASH_REF (snd r)) = false /\
    exists tail,
      Git.issued (snd r)
      = (Git.issued e0
         ++ [["checkout"; "."]; ["clean"; "-fd"]; ["reset"; "HEAD"]]
         ++ tail)%list /\
      (Js.truthy (Git.BACKUP_STASH_REF e0) = false -> tail = []) /\
      (Js.truthy (Git.BACKUP_STASH_REF e0) = true ->
       tail = [["stash"; "list"]]
       \/ (tail = [["stash"; "list"]; ["stash"; "pop"]] /\
           Js.includes
             (Git.stdout
                (snd (spawn
                        (fst (spawn
                                (fst (spawn
                                        (fst (spawn (Git.world e0) ["checkout"; "."]))
                                        ["clean"; "-fd"]))
                                ["reset"; "HEAD"]))
                        ["stash"; "list"])))
             "AGENT_BACKUP_PRE_MODIFICATION" = true)).
Proof.
  intros World spawn e0. cbv zeta. unfold Git.git_restore_backup. cbv zeta.
  rewrite !BackupFacts.execGit_env.
  cbn [Git.BACKUP_STASH_REF Git.world Git.issued Git.PROJECT_ROOT].
  destruct (Js.truthy (Git.BACKUP_STASH_REF e0)) eqn:Et.
  - rewrite BackupFacts.execGit_pair.
    cbn [Git.BACKUP_STASH_REF Git.world Git.issued Git.PROJECT_ROOT fst snd].
    match goal with
    | |- context [if ?c then _ else _] => destruct c eqn:Ei
    end.
    + rewrite BackupFacts.execGit_env. cbn.
      split; [reflexivity | split; [reflexivity|]].
      exists [["stash"; "list"]; ["stash"; "pop"]].
      split; [now rewrite <- !app_assoc | split; [discriminate | auto]].
    + cbn. split; [reflexivity | split; [reflexivity|]].
      exists [["stash"; "list"]].
      split; [now rewrite <- !app_assoc | split; [discriminate | auto]].
  - cbn. split; [reflexivity | split; [exact Et|]].
    exists []. split; [now rewrite <- !app_assoc | split; [auto | discriminate]].
Qed.

(** After [initialize] and over every sequence of calls of
    [git_stash_backup], [git_restore_backup] and [git_clear_backup], the
    [git stash pop] invocations never outnumber the [git stash push]
    ones, and while a backup reference is held there are strictly fewer. *)
Theorem backup_pops_never_exceed_pushes :
  forall (World : Type) (spawn : World -> list string -> World * Git.ExecResult)
         (w : World) (root root0 : string) (ref0 : option string)
         (ops : list Git.BackupOp),
    let e :=
      Git.run_backup_ops spawn ops
        (Git.initialize root (Git.mkEnv w [] root0 ref0)) in
    (Git.pops e + Git.outstanding e <= Git.pushes e)%nat.
Proof.
  intros World spawn w root root0 ref0 ops. cbv zeta.
  apply BackupFacts.backup_ops_balance. cbn. lia.
Qed.

(** [git_stash_backup] runs in one of three ways.  A clean tree: no
    stash command, success, the reference is left as it was.  A dirty
    tree whose [git stash push] fails: failure, the reference is left as
    it was, and [git rev-parse] is not reached.  A dirty tree whose push
    succeeds: success, and the reference is set. *)
Theorem git_stash_backup_outcomes :
  forall (World : Type) (spawn : World -> list string -> World * Git.ExecResult)
         (e0 : Git.Env World),
    let status := snd (spawn (Git.world e0) ["status"; "--porcelain"]) in
    let w1 := fst (spawn (Git.world e0) ["status"; "--porcelain"]) in
    let push := ["stash"; "push"; "-m"; "AGENT_BACKUP_PRE_MODIFICATION"] in
    let r := Git.git_stash_backup spawn e0 in
    (  (Js.trim (Git.stdout status) = "" /\
        success (fst r) = true /\
        Js.get (data (fst r)) "stashed_changes" = Js.VBool false /\
        Git.BACKUP_STASH_REF (snd r) = Git.BACKUP_STASH_REF e0 /\
        Git.issued (snd r)
        = (Git.issued e0
           ++ [["status"; "--porcelain"]; ["rev-parse"; "HEAD"]])%list)
    \/ (Js.trim (Git.stdout status) <> "" /\
        Git.exitCode (snd (spawn w1 push)) <> 0%Z /\
        success (fst r) = false /\
        Git.BACKUP_STASH_REF (snd r) = Git.BACKUP_STASH_REF e0 /\
        Git.issued (snd r)
        = (Git.issued e0 ++ [["status"; "--porcelain"]; push])%list)
    \/ (Js.trim (Git.stdout status) <> "" /\
        Git.exitCode (snd (spawn w1 push)) = 0%Z /\
        success (fst r) = true /\
        Js.get (data (fst r)) "stashed_changes" = Js.VBool true /\
        Git.BACKUP_STASH_REF (snd r) = Some "stash@{0}" /\
        Git.issued (snd r)
        = (Git.issued e0
           ++ [["status"; "--porcelain"]; push; ["rev-parse"; "HEAD"]])%list)).
Proof.
  intros World spawn e0.
  exact (proj2 (BackupFacts.git_stash_backup_spec spawn e0)).
Qed.

(** [git_commit] with a blank message (empty or white space only)
    fails with "Commit message required" and issues no git command.
    With any other message it issues exactly [git config user.email],
    [git config user.name] and [git commit -m] with the message as one
    argument; it keeps the backup reference and the project root; and
    it reports success exactly when git exits with 0 or prints "nothing
    to commit". *)
Theorem git_commit_invocations :
  forall (World : Type) (spawn : World -> list string -> World * Git.ExecResult)
         (message : string) (e0 : Git.Env World),
    let r := Git.git_commit spawn message e0 in
    let w1 :=
      fst (spawn (Git.world e0)
             ["config"; "user.email"; "ashwinramesh022@users.noreply.github.com"]) in
    let w2 := fst (spawn w1 ["config"; "user.name"; "ashwinramesh022"]) in
    let out := snd (spawn w2 ["commit"; "-m"; message]) in
    (Js.trim message = "" ->
     r = (mkResult false Js.VUndefined (Js.VStr "Commit message required"), e0)) /\
    (Js.trim message <> "" ->
     Git.issued (snd r)
     = (Git.issued e0
        ++ [ ["config"; "user.email"; "ashwinramesh022@users.noreply.github.com"];
             ["config"; "user.name"; "ashwinramesh022"];
             ["commit"; "-m"; message] ])%list /\
     Git.BACKUP_STASH_REF (snd r) = Git.BACKUP_STASH_REF e0 /\
     Git.PROJECT_ROOT (snd r) = Git.PROJECT_ROOT e0 /\
     success (fst r)
     = ((Git.exitCode out =? 0)%Z
        || Js.includes (Git.stdout out) "nothing to commit")).
Proof.
  intros World spawn message e0. cbv zeta.
  destruct (GitToolFacts.git_commit_issued spawn message e0) as [Hb Hi].
  split; [exact Hb|]. intros N.
  destruct (Hi N) as [H1 [H2 H3]].
  split; [exact H1 | split; [exact H2 | split; [exact H3|]]].
  destruct (GitToolFacts.git_commit_result spawn message e0 N) as [Hz Hn].
  cbv zeta in Hz, Hn.
  match goal with
  | |- context [(Git.exitCode ?o =? 0)%Z] =>
      destruct (Z.eqb_spec (Git.exitCode o) 0) as [E0|N0]
  end.
  - now rewrite (proj1 (Hz E0)).
  - now rewrite (proj1 (Hn N0)).
Qed.

(** The hash [git_commit] reports after a commit that exited with 0.
    When git's output starts with [[name hash]], [name] made of word
    characters and hyphens and [hash] of lower-case hexadecimal digits,
    the reported hash is [hash]; and whatever the output, a reported
    hash is a non-empty lower-case hexadecimal string that the output
    holds between a bracketed name and the closing bracket. *)
Theorem git_commit_hash_extraction :
  forall (World : Type) (spawn : World -> list string -> World * Git.ExecResult)
         (message : string) (e0 : Git.Env World),
    let r := fst (Git.git_commit spawn message e0) in
    let w1 :=
      fst (spawn (Git.world e0)
             ["config"; "user.email"; "ashwinramesh022@users.noreply.github.com"]) in
    let w2 := fst (spawn w1 ["config"; "user.name"; "ashwinramesh022"]) in
    let out := snd (spawn w2 ["commit"; "-m"; message]) in
    Js.trim message <> "" ->
    Git.exitCode out = 0%Z ->
    (forall name hash rest,
        Git.simple_name name -> Git.hex_string hash ->
        Git.stdout out = "[" ++ name ++ " " ++ hash ++ "]" ++ rest ->
        Js.get (data r) "commit_hash" = Js.VStr hash) /\
    (forall hash,
        Js.get (data r) "commit_hash" = Js.VStr hash ->
        Git.hex_string hash /\
        exists name,
          name <> "" /\
          Js.includes (Git.stdout out) ("[" ++ name ++ " " ++ hash ++ "]") = true) /\
    (Js.get (data r) "commit_hash" = Js.VNull
     \/ exists hash, Js.get (data r) "commit_hash" = Js.VStr hash).
Proof.
  intros World spawn message e0. cbv zeta. intros N E0.
  destruct (GitToolFacts.git_commit_result spawn message e0 N) as [Hz _].
  cbv zeta in Hz. destruct (Hz E0) as [_ Hh]. rewrite Hh.
  split; [|split].
  - intros name hash rest [Hn Hc] Hx Hs. rewrite Hs.
    now rewrite (CommitFacts.hashMatch_commit_line name hash rest Hn Hc Hx).
  - intros hash Hv.
    match type of Hv with
    | context [Git.hashMatch ?s] => destruct (Git.hashMatch s) as [h|] eqn:Em
    end; [|discriminate].
    inversion Hv; subst h. exact (CommitFacts.hashMatch_sound _ _ Em).
  - match goal with
    | |- context [Git.hashMatch ?s] => destruct (Git.hashMatch s) as [h|]
    end; [right; eauto | left; reflexivity].
Qed.

Lemma git_commit_hash_extraction_witness :
  let spawn := fun (w : unit) (argv : list string) =>
                 (w, Git.mkExec 0
                       (if Js.array_includes argv "commit"
                        then "[main 3f2a91c] Update hero title" else "")
                       "") in
  Js.trim "Update hero title" <> "" /\
  Git.simple_name "main" /\ Git.hex_string "3f2a91c" /\
  Js.get
    (data (fst (Git.git_commit spawn "Update hero title"
                  (Git.mkEnv tt [] "/vercel/sandbox" None))))
    "commit_hash"
  = Js.VStr "3f2a91c".
Proof.
  intros spawn.
  assert (Hm : Js.trim "Update hero title" <> "") by discriminate.
  assert (Hn : Git.simple_name "main") by (split; [discriminate | reflexivity]).
  assert (Hh : Git.hex_string "3f2a91c") by (split; [discriminate | reflexivity]).
  split; [exact Hm | split; [exact Hn | split; [exact Hh|]]].
  destruct (git_commit_hash_extraction unit spawn "Update hero title"
              (Git.mkEnv tt [] "/vercel/sandbox" None) Hm eq_refl)
    as [Hfound _].
  exact (Hfound "main" "3f2a91c" " Update hero title" Hn Hh eq_refl).
Defined.

Module BranchFacts.

Import Git CommitFacts GitReadFacts.

Lemma hash_match_at_needs_bracket (c : ascii) (r : string) :
  Ascii.eqb c "["%char = false -> hash_match_at (String c r) = None.
Proof.
  intros H. unfold hash_match_at.
  destruct c as [[] [] [] [] [] [] [] []]; try reflexivity; discriminate.
Qed.

Lemma hashMatch_no_bracket (s : string) :
  free_of "[" s -> hashMatch s = None.
Proof.
  unfold free_of. induction s as [|c r IH]; intros H; [reflexivity|].
  cbn [list_ascii_of_string forallb] in H. apply andb_prop in H.
  destruct H as [Hc Hr]. apply negb_true_iff in Hc.
  cbn [hashMatch]. rewrite (hash_match_at_needs_bracket c r Hc). exact (IH Hr).
Qed.

Lemma free_of_app (c : ascii) (a b : string) :
  free_of c a -> free_of c b -> free_of c (a ++ b).
Proof.
  unfold free_of. intros Ha Hb. induction a as [|x a IH]; [exact Hb|].
  cbn in *. apply andb_prop in Ha. destruct Ha as [Hx Ha].
  now rewrite Hx, IH.
Qed.

Lemma name_chars_free_of_bracket (name : string) :
  forallb (fun c => Js.is_word c || Ascii.eqb c "-"%char)
    (list_ascii_of_string name) = true ->
  free_of "[" name.
Proof.
  unfold free_of. apply forallb_weaken. intros c Hc.
  destruct (Ascii.eqb_spec c "["%char) as [->|]; [discriminate Hc | reflexivity].
Qed.

(** A bracketed name with a slash in it is not matched, and with no
    other opening bracket in the text nothing else is. *)
Lemma hashMatch_slash_branch (pre post : string) :
  forallb (fun c => Js.is_word c || Ascii.eqb c "-"%char)
    (list_ascii_of_string pre) = true ->
  free_of "[" post ->
  hashMatch ("[" ++ pre ++ "/" ++ post) = None.
Proof.
  intros Hpre Hpost.
  change ("[" ++ pre ++ "/" ++ post) with (String "["%char (pre ++ String "/"%char post)).
  cbn [hashMatch]. unfold hash_match_at.
  rewrite (span_app _ pre (String "/"%char post) Hpre eq_refl).
  assert (Hrest : hashMatch (pre ++ String "/"%char post) = None).
  { apply hashMatch_no_bracket. apply free_of_app.
    - now apply name_chars_free_of_bracket.
    - unfold free_of in *. cbn. exact Hpost. }
  destruct (pre =? ""); exact Hrest.
Qed.

End BranchFacts.

(** A commit made on a branch whose name holds a slash, as every branch
    [git_push] creates does ([agent/changes-...]), is reported without
    its hash: git prints [[agent/changes-1 3f2a91c] subject], the
    pattern stops at the slash, and [commit_hash] is [null] although the
    commit exists. *)
Theorem git_commit_slash_branch_reports_no_hash :
  forall (World : Type) (spawn : World -> list string -> World * Git.ExecResult)
         (message : string) (e0 : Git.Env World) (pre post : string),
    let r := fst (Git.git_commit spawn message e0) in
    let w1 :=
      fst (spawn (Git.world e0)
             ["config"; "user.email"; "ashwinramesh022@users.noreply.github.com"]) in
    let w2 := fst (spawn w1 ["config"; "user.name"; "ashwinramesh022"]) in
    let out := snd (spawn w2 ["commit"; "-m"; message]) in
    Js.trim message <> "" ->
    Git.exitCode out = 0%Z ->
    forallb (fun c => Js.is_word c || Ascii.eqb c "-"%char)
      (list_ascii_of_string pre) = true ->
    Git.free_of "[" post ->
    Git.stdout out = "[" ++ pre ++ "/" ++ post ->
    success r = true /\ Js.get (data r) "commit_hash" = Js.VNull.
Proof.
  intros World spawn message e0 pre post. cbv zeta. intros N E0 Hpre Hpost Hs.
  destruct (GitToolFacts.git_commit_result spawn message e0 N) as [Hz _].
  cbv zeta in Hz. destruct (Hz E0) as [Hok Hh].
  split; [exact Hok|]. rewrite Hh, Hs.
  now rewrite (BranchFacts.hashMatch_slash_branch pre post Hpre Hpost).
Qed.

Lemma git_commit_slash_branch_reports_no_hash_witness :
  let branch := Git.featureBranch "main" 1767225600000 in
  let spawn := fun (w : unit) (argv : list string) =>
                 (w, Git.mkExec 0
                       (if Js.array_includes argv "commit"
                        then "[" ++ branch ++ " 3f2a91c] Update hero title"
                        else "")
                       "") in
  branch = "agent" ++ "/" ++ "changes-1767225600000" /\
  Js.trim "Update hero title" <> "" /\
  Git.free_of "[" "changes-1767225600000 3f2a91c] Update hero title" /\
  Js.get
    (data (fst (Git.git_commit spawn "Update hero title"
                  (Git.mkEnv tt [] "/vercel/sandbox" None))))
    "commit_hash"
  = Js.VNull.
Proof.
  intros branch spawn.
  assert (Hb : branch = "agent" ++ "/" ++ "changes-1767225600000") by reflexivity.
  assert (Hm : Js.trim "Update hero title" <> "") by discriminate.
  assert (Hf : Git.free_of "[" "changes-1767225600000 3f2a91c] Update hero title")
    by reflexivity.
  split; [exact Hb | split; [exact Hm | split; [exact Hf|]]].
  exact (proj2 (git_commit_slash_branch_reports_no_hash unit spawn
                  "Update hero title" (Git.mkEnv tt [] "/vercel/sandbox" None)
                  "agent" "changes-1767225600000 3f2a91c] Update hero title"
                  Hm eq_refl eq_refl Hf eq_refl)).
Defined.

(** [git_clone] issues no git command for a URL that starts with
    neither [https://] nor [git@]; for any other URL it issues exactly
    one [git clone --depth 1] into [path.resolve(PROJECT_ROOT,
    targetDir)].  The project root of the git tools moves to that
    directory when the clone succeeds and stays where it was when it
    fails; the backup reference is never touched. *)
Theorem git_clone_url_guard :
  forall (World : Type) (spawn : World -> list string -> World * Git.ExecResult)
         (cwd repoUrl targetDir : string) (e0 : Git.Env World),
    let r := Git.git_clone spawn cwd repoUrl targetDir e0 in
    let targetPath := Path.resolve cwd [Git.PROJECT_ROOT e0; targetDir] in
    Git.BACKUP_STASH_REF (snd r) = Git.BACKUP_STASH_REF e0 /\
    (Js.startsWith repoUrl "https://" || Js.startsWith repoUrl "git@" = false ->
     r = (mkResult false Js.VUndefined (Js.VStr "Invalid repository URL"), e0)) /\
    (Js.startsWith repoUrl "https://" || Js.startsWith repoUrl "git@" = true ->
     Git.issued (snd r)
     = (Git.issued e0 ++ [["clone"; "--depth"; "1"; repoUrl; targetPath]])%list /\
     (success (fst r) = true -> Git.PROJECT_ROOT (snd r) = targetPath) /\
     (success (fst r) = false -> Git.PROJECT_ROOT (snd r) = Git.PROJECT_ROOT e0)).
Proof.
  intros World spawn cwd repoUrl targetDir e0.
  exact (GitToolFacts.git_clone_spec spawn cwd repoUrl targetDir e0).
Qed.

(** [git_status] and [git_stash_backup] read the same answer of
    [git status --porcelain] in the same way: when the status call
    exits with 0, [git_status] reports [clean: true] exactly when
    [git_stash_backup] finds nothing to stash, and the number of changes
    it lists is the number of non-empty lines of the trimmed output. *)
Theorem git_status_clean_iff_nothing_to_stash :
  forall (World : Type) (spawn : World -> list string -> World * Git.ExecResult)
         (e0 : Git.Env World),
    let status := snd (spawn (Git.world e0) ["status"; "--porcelain"]) in
    let s := fst (Git.git_status spawn e0) in
    let b := fst (Git.git_stash_backup spawn e0) in
    success s = (Git.exitCode status =? 0)%Z /\
    (success s = true ->
     (Js.get (data s) "clean" = Js.VBool true
      <-> Js.get (data b) "stashed_changes" = Js.VBool false) /\
     (Js.get (data s) "clean" = Js.VBool true
      <-> Js.trim (Git.stdout status) = "") /\
     Js.get (data s) "changes"
     = Js.VArr (map Git.parse_status_line
                  (Js.output_lines (Git.stdout status)))).
Proof.
  intros World spawn e0. cbv zeta.
  assert (Hclean :
    forall n, Js.VBool (n =? 0)%nat = Js.VBool true <-> n = 0%nat).
  { intros n. destruct n; cbn; split; congruence. }
  unfold Git.git_status. rewrite BackupFacts.execGit_pair.
  rewrite <- (negb_involutive
                (Git.exitCode (snd (spawn (Git.world e0) ["status"; "--porcelain"])) =? 0)%Z)
    at 2.
  destruct (negb (Git.exitCode (snd (spawn (Git.world e0) ["status"; "--porcelain"])) =? 0)%Z);
    cbn [negb fst snd success data]; split; try reflexivity; [discriminate|].
  intros _. cbn [Js.get Js.lookup String.eqb Ascii.eqb Bool.eqb].
  assert (Ht : Js.VBool
                 (length (map Git.parse_status_line
                            (Js.output_lines
                               (Git.stdout (snd (spawn (Git.world e0) ["status"; "--porcelain"])))))
                  =? 0)%nat = Js.VBool true
               <-> Js.trim (Git.stdout (snd (spawn (Git.world e0) ["status"; "--porcelain"]))) = "").
  { rewrite Hclean, length_map, length_zero_iff_nil.
    apply LineFacts.output_lines_nil. }
  split; [|split; [exact Ht | reflexivity]].
  rewrite Ht.
  destruct (BackupFacts.git_stash_backup_spec spawn e0) as [_ [C|[C|C]]];
    cbv zeta in C.
  - destruct C as [Hc [_ [Hs _]]]. tauto.
  - destruct C as [Hc [_ [Hf _]]]. split; [contradiction|].
    intros Hs. unfold Git.git_stash_backup in Hs, Hf.
    rewrite BackupFacts.execGit_pair in Hs, Hf. cbv zeta in Hs, Hf.
    destruct (negb (Js.trim (Git.stdout (snd (spawn (Git.world e0) ["status"; "--porcelain"]))) =? ""));
      rewrite BackupFacts.execGit_pair in Hs, Hf;
      cbn [fst snd Git.world] in Hs, Hf.
    + destruct (negb (Git.exitCode
                        (snd (spawn (fst (spawn (Git.world e0) ["status"; "--porcelain"]))
                           ["stash"; "push"; "-m"; "AGENT_BACKUP_PRE_MODIFICATION"])) =? 0)%Z);
        [discriminate Hs|].
      rewrite BackupFacts.execGit_pair in Hf. discriminate Hf.
    + discriminate Hf.
  - destruct C as [Hc [_ [_ [Hs _]]]]. split; [contradiction|].
    intros Hs'. rewrite Hs in Hs'. discriminate.
Qed.


(** Every commit [git_log] returns comes from one non-empty line of the
    trimmed output, cut at its first space: the hash holds no space, and
    the hash, a space and the message give the line back (the line is
    the hash alone when it holds no space). *)
Theorem git_log_lines_round_trip :
  forall (World : Type) (spawn : World -> list string -> World * Git.ExecResult)
         (count : Js.value) (e0 : Git.Env World),
    let out :=
      snd (spawn (Git.world e0) ["log"; "--oneline"; "-n"; Js.to_string count]) in
    let r := fst (Git.git_log spawn count e0) in
    success r = (Git.exitCode out =? 0)%Z /\
    (success r = true ->
     Js.get (data r) "commits"
     = Js.VArr (map Git.parse_log_line (Js.output_lines (Git.stdout out))) /\
     Forall
       (fun line =>
          line <> "" /\
          exists hash message,
            Git.parse_log_line line
            = Js.VObj [("hash", Js.VStr hash); ("message", Js.VStr message)] /\
            Git.free_of Js.SP_unit hash /\
            ((line = hash /\ message = "") \/ line = hash ++ " " ++ message))
       (Js.output_lines (Git.stdout out))).
Proof.
  intros World spawn count e0. cbv zeta. unfold Git.git_log.
  rewrite BackupFacts.execGit_pair.
  rewrite <- (negb_involutive
                (Git.exitCode
                   (snd (spawn (Git.world e0)
                           ["log"; "--oneline"; "-n"; Js.to_string count])) =? 0)%Z)
    at 2.
  destruct (negb (Git.exitCode
                    (snd (spawn (Git.world e0)
                            ["log"; "--oneline"; "-n"; Js.to_string count])) =? 0)%Z);
    cbn [negb fst snd success data]; split; try reflexivity; [discriminate|].
  intros _. split; [reflexivity|].
  pose proof (LineFacts.output_lines_nonempty
                (Git.stdout (snd (spawn (Git.world e0)
                                    ["log"; "--oneline"; "-n"; Js.to_string count]))))
    as Hne.
  eapply Forall_impl; [|exact Hne]. cbn beta. intros line Hl.
  split; [exact Hl | apply GitReadFacts.parse_log_line_round_trip].
Qed.

(** [git_create_pr] sends nothing without a token.  Every request it
    sends has base [main] and, as head, the current branch, which is not
    [main]; it carries the token and the title given; its endpoint is
    [/repos/owner/repo/pulls] for a non-empty owner without a slash and
    a non-empty repository name without a slash or a dot.  Success is
    reported only after a request, and the only git commands issued are
    [git rev-parse --abbrev-ref HEAD] and [git remote get-url origin]. *)
Theorem git_create_pr_requests :
  forall (World : Type) (spawn : World -> list string -> World * Git.ExecResult)
         (GITHUB_TOKEN : option string)
         (post_pulls : World -> Git.PullRequest -> World * Git.PostOutcome)
         (title body : string) (e0 : Git.Env World),
    let out := Git.git_create_pr spawn GITHUB_TOKEN post_pulls title body e0 in
    let r := fst (fst out) in
    let e := snd (fst out) in
    let sent := snd out in
    let branchResult :=
      snd (spawn (Git.world e0) ["rev-parse"; "--abbrev-ref"; "HEAD"]) in
    (Js.truthy GITHUB_TOKEN = false ->
     sent = None /\ e = e0 /\ success r = false) /\
    (forall request,
        sent = Some request ->
        Git.pr_base request = "main" /\
        Git.pr_head request <> "main" /\
        Git.pr_head request = Js.trim (Git.stdout branchResult) /\
        Git.pr_title request = title /\
        GITHUB_TOKEN = Some (Git.bearer request) /\
        Git.pr_body request <> "" /\
        exists owner repo,
          Git.endpoint request
          = "https://api.github.com/repos/" ++ owner ++ "/" ++ repo ++ "/pulls" /\
          owner <> "" /\ repo <> "" /\
          Git.free_of "/" owner /\ Git.free_of "/" repo /\ Git.free_of "." repo) /\
    (success r = true ->
     exists request,
       sent = Some request /\
       Js.get (data r) "base" = Js.VStr "main" /\
       Js.get (data r) "branch" = Js.VStr (Git.pr_head request)) /\
    (exists cmds,
        Git.issued e = (Git.issued e0 ++ cmds)%list /\
        (cmds = [] \/ cmds = [["rev-parse"; "--abbrev-ref"; "HEAD"]]
         \/ cmds = [["rev-parse"; "--abbrev-ref"; "HEAD"];
                    ["remote"; "get-url"; "origin"]])).
Proof.
  intros World spawn tok post_pulls title body e0. cbv zeta.
  unfold Git.git_create_pr. cbv zeta.
  assert (Hnil : exists cmds,
             Git.issued e0 = (Git.issued e0 ++ cmds)%list /\
             (cmds = [] \/ cmds = [["rev-parse"; "--abbrev-ref"; "HEAD"]]
              \/ cmds = [["rev-parse"; "--abbrev-ref"; "HEAD"];
                         ["remote"; "get-url"; "origin"]])).
  { exists []. rewrite app_nil_r. auto. }
  destruct tok as [githubToken|]; cbn [Js.truthy].
  2:{ cbn. repeat split; try discriminate; auto. }
  destruct (String.eqb_spec githubToken "") as [->|Ntok]; cbn [negb].
  { cbn. repeat split; try discriminate; auto. }
  rewrite BackupFacts.execGit_pair.
  set (branchResult := snd (spawn (Git.world e0) ["rev-parse"; "--abbrev-ref"; "HEAD"])).
  set (e1 := Git.mkEnv _ _ _ _).
  assert (H1 : exists cmds,
             Git.issued e1 = (Git.issued e0 ++ cmds)%list /\
             (cmds = [] \/ cmds = [["rev-parse"; "--abbrev-ref"; "HEAD"]]
              \/ cmds = [["rev-parse"; "--abbrev-ref"; "HEAD"];
                         ["remote"; "get-url"; "origin"]])).
  { exists [["rev-parse"; "--abbrev-ref"; "HEAD"]]. auto. }
  destruct (negb (Git.exitCode branchResult =? 0)%Z).
  { cbn [fst snd success]. repeat split; try discriminate; auto. }
  destruct (String.eqb_spec (Js.trim (Git.stdout branchResult)) "main") as [Em|Nm].
  { cbn [fst snd success]. repeat split; try discriminate; auto. }
  rewrite BackupFacts.execGit_pair.
  set (remoteResult := snd (spawn (Git.world e1) ["remote"; "get-url"; "origin"])).
  set (e2 := Git.mkEnv _ _ _ _).
  assert (H2 : exists cmds,
             Git.issued e2 = (Git.issued e0 ++ cmds)%list /\
             (cmds = [] \/ cmds = [["rev-parse"; "--abbrev-ref"; "HEAD"]]
              \/ cmds = [["rev-parse"; "--abbrev-ref"; "HEAD"];
                         ["remote"; "get-url"; "origin"]])).
  { exists [["rev-parse"; "--abbrev-ref"; "HEAD"]; ["remote"; "get-url"; "origin"]].
    subst e2 e1. cbn [Git.issued]. rewrite <- app_assoc. auto. }
  destruct (negb (Git.exitCode remoteResult =? 0)%Z).
  { cbn [fst snd success]. repeat split; try discriminate; auto. }
  destruct (Git.repoMatch (Js.trim (Git.stdout remoteResult)))
    as [[owner repo]|] eqn:Em.
  2:{ cbn [fst snd success]. repeat split; try discriminate; auto. }
  destruct (GitReadFacts.repoMatch_sound _ _ _ Em) as [Ho [Hr [Hso [Hsr Hdr]]]].
  rewrite (GitReadFacts.strip_git_suffix_id repo Hdr).
  set (request := Git.mkPullRequest _ _ _ _ _ _).
  assert (Hreq :
    Git.pr_base request = "main" /\
    Git.pr_head request <> "main" /\
    Git.pr_head request = Js.trim (Git.stdout branchResult) /\
    Git.pr_title request = title /\
    Some githubToken = Some (Git.bearer request) /\
    Git.pr_body request <> "" /\
    exists owner repo,
      Git.endpoint request
      = "https://api.github.com/repos/" ++ owner ++ "/" ++ repo ++ "/pulls" /\
      owner <> "" /\ repo <> "" /\
      Git.free_of "/" owner /\ Git.free_of "/" repo /\ Git.free_of "." repo).
  { subst request. cbn [Git.pr_base Git.pr_head Git.pr_title Git.bearer
                        Git.pr_body Git.endpoint].
    repeat (split; [first [reflexivity | assumption]|]).
    split.
    - destruct (String.eqb_spec body ""); [discriminate | assumption].
    - exists owner, repo. auto 10. }
  destruct (post_pulls (Git.world e2) request) as [w outcome].
  destruct outcome; cbn [fst snd success data Git.issued].
  - split; [discriminate|]. split; [intros q Hq; inversion Hq; subst q; exact Hreq|].
    split; [discriminate | exact H2].
  - split; [discriminate|]. split; [intros q Hq; inversion Hq; subst q; exact Hreq|].
    split; [discriminate | exact H2].
  - split; [discriminate|]. split; [intros q Hq; inversion Hq; subst q; exact Hreq|].
    split; [|exact H2].
    intros _. exists request. split; [reflexivity|]. split; reflexivity.
Qed.

Module StatusFacts.

Import Git LineFacts.

Lemma trimEnd_app_space (s : string) (c : ascii) :
  Js.is_space c = true -> Js.trimEnd (s ++ String c "") = Js.trimEnd s.
Proof.
  intros Hc. induction s as [|x s IH].
  - cbn. now rewrite Hc.
  - cbn [append Js.trimEnd]. now rewrite IH.
Qed.

Lemma trimEnd_cons (x : ascii) (r : string) :
  Js.trimEnd r <> "" -> Js.trimEnd (String x r) = String x (Js.trimEnd r).
Proof. intros H. cbn. destruct (Js.trimEnd r); [contradiction | reflexivity]. Qed.

(** A string without the separator is the one piece of its split. *)
Lemma split_free (sep : ascii) (s : string) :
  free_of sep s -> Js.split sep s = [s].
Proof.
  unfold free_of. induction s as [|c r IH]; intros H; [reflexivity|].
  cbn [list_ascii_of_string forallb] in H. apply andb_prop in H.
  destruct H as [Hc Hr]. apply negb_true_iff in Hc.
  rewrite split_unit_cons, Hc, (IH Hr). reflexivity.
Qed.

(** The trimmed output of a one-entry status whose first column is
    blank: the leading space of the entry is gone. *)
Lemma trim_status_entry (X : ascii) (f : string) :
  Js.is_space X = false -> f <> "" -> Js.trimEnd f = f ->
  Js.trim (" " ++ String X (" " ++ f ++ Js.LF)) = String X (String " " f).
Proof.
  intros HX Hf Ht. unfold Js.trim.
  change (" " ++ String X (" " ++ f ++ Js.LF))
    with (String " " (String X (String " " (f ++ Js.LF)))).
  cbn [Js.trimStart]. change (Js.is_space " ") with true. cbn iota. rewrite HX.
  assert (E : Js.trimEnd (f ++ Js.LF) = f).
  { unfold Js.LF. rewrite trimEnd_app_space; [exact Ht | reflexivity]. }
  rewrite trimEnd_cons.
  - rewrite trimEnd_cons; rewrite E; [reflexivity | exact Hf].
  - rewrite trimEnd_cons; rewrite E; [discriminate | exact Hf].
Qed.

End StatusFacts.

(** The first entry of [git status --porcelain] loses a character.  The
    output is trimmed as a whole before it is cut into lines, so an
    entry whose first status column is blank (an unstaged change, as in
    [ M src/a.ts]) reaches the parser without its leading space: the
    status is read correctly, and the file name is reported without its
    first character. *)
Theorem git_status_first_entry_loses_a_character :
  forall (World : Type) (spawn : World -> list string -> World * Git.ExecResult)
         (e0 : Git.Env World) (X : ascii) (f : string),
    let status := snd (spawn (Git.world e0) ["status"; "--porcelain"]) in
    let r := fst (Git.git_status spawn e0) in
    Git.exitCode status = 0%Z ->
    Js.is_space X = false -> f <> "" -> Js.trimEnd f = f ->
    Git.free_of Js.LF_unit f ->
    Git.stdout status = " " ++ String X (" " ++ f ++ Js.LF) ->
    success r = true /\
    Js.get (data r) "changes"
    = Js.VArr [ Js.VObj [ ("status", Js.VStr (String X ""));
                          ("file", Js.VStr (Js.substring_from 1 f)) ] ].
Proof.
  intros World spawn e0 X f. cbv zeta. intros E0 HX Hf Ht Hfree Hs.
  unfold Git.git_status. rewrite BackupFacts.execGit_pair. rewrite E0.
  cbn [Z.eqb negb fst snd success data Js.get Js.lookup String.eqb Ascii.eqb Bool.eqb].
  split; [reflexivity|]. f_equal.
  unfold Js.output_lines. rewrite Hs, (StatusFacts.trim_status_entry X f HX Hf Ht).
  assert (Hx : Ascii.eqb X Js.LF_unit = false).
  { destruct (Ascii.eqb_spec X Js.LF_unit) as [->|]; [discriminate HX | reflexivity]. }
  rewrite StatusFacts.split_free.
  2:{ unfold Git.free_of in *. cbn [list_ascii_of_string forallb].
      rewrite Hx, Hfree. reflexivity. }
  cbn [filter String.eqb negb map]. unfold Git.parse_status_line.
  cbn [Js.substring_from Js.substring0 String.substring].
  replace (String.substring 0 0 f) with "" by (now destruct f).
  replace (Js.trim (String X (String " " ""))) with (String X "").
  2:{ unfold Js.trim. cbn [Js.trimStart]. rewrite HX. cbn. now rewrite HX. }
  reflexivity.
Qed.

Lemma git_status_first_entry_loses_a_character_witness :
  let spawn := fun (w : unit) (argv : list string) =>
                 (w, Git.mkExec 0 (" M src/a.ts" ++ Js.LF) "") in
  Js.is_space "M" = false /\ Js.trimEnd "src/a.ts" = "src/a.ts" /\
  Js.get (data (fst (Git.git_status spawn (Git.mkEnv tt [] "/vercel/sandbox" None))))
    "changes"
  = Js.VArr [ Js.VObj [ ("status", Js.VStr "M"); ("file", Js.VStr "rc/a.ts") ] ].
Proof.
  intros spawn.
  assert (HX : Js.is_space "M" = false) by reflexivity.
  assert (Ht : Js.trimEnd "src/a.ts" = "src/a.ts") by reflexivity.
  assert (Hf : "src/a.ts" <> "") by discriminate.
  split; [exact HX | split; [exact Ht|]].
  exact (proj2 (git_status_first_entry_loses_a_character unit spawn
                  (Git.mkEnv tt [] "/vercel/sandbox" None) "M" "src/a.ts"
                  eq_refl HX Hf Ht eq_refl eq_refl)).
Defined.

(* ================================================================== *)
(** ** Running a command                                              *)
(* ================================================================== *)


(* ================================================================== *)
(** ** The build tools                                                *)
(* ================================================================== *)

Module BuildFacts.

Import Build.

Lemma length_substring0 (n : nat) (s : string) :
  (String.length (Js.substring0 n s) <= n)%nat.
Proof.
  unfold Js.substring0. revert s. induction n as [|n IH]; intros s.
  - destruct s; cbn; lia.
  - destruct s as [|c r]; cbn; [lia|]. specialize (IH r). lia.
Qed.

Lemma substring0_prefix (n : nat) (s : string) :
  Js.startsWith s (Js.substring0 n s) = true.
Proof.
  unfold Js.startsWith, Js.substring0. revert s.
  induction n as [|n IH]; intros s.
  - destruct s; reflexivity.
  - destruct s as [|c r]; cbn [String.substring]; [reflexivity|].
    rewrite StringFacts.prefix_cons.
    destruct (Ascii.ascii_dec c c); [apply IH | contradiction].
Qed.

Lemma slice0_length {A : Type} (n : nat) (l : list A) :
  (length (Js.slice0 n l) <= n)%nat.
Proof. unfold Js.slice0. rewrite length_firstn. lia. Qed.

Lemma slice0_In {A : Type} (n : nat) (l : list A) (x : A) :
  In x (Js.slice0 n l) -> In x l.
Proof.
  unfold Js.slice0. revert l. induction n as [|n IH]; intros l H; [contradiction|].
  destruct l as [|y l]; [contradiction|]. cbn in H.
  destruct H as [->|H]; [now left | right; now apply IH].
Qed.

Section WithNpm.

Context {World : Type}.
Variable spawn_npm : World -> list string -> World * ExecResult.
Variable dir_in_root : World -> string -> DirAnswer.

(** The loop over the candidate directories stops at the first one
    that is a directory or whose inspection throws. *)
Lemma check_dirs_spec (w : World) (dirs : list string) :
  let r := check_dirs dir_in_root w dirs in
  (Forall (absent dir_in_root w) dirs /\ success r = false /\
   error r = Js.VStr "No build output directory found")
  \/ (exists before dir after,
        dirs = (before ++ dir :: after)%list /\ Forall (absent dir_in_root w) before /\
        (  (exists files,
              dir_in_root w dir = Directory files /\
              success r = true /\
              data r
              = Js.VObj
                  [ ("build_dir", Js.VStr dir);
                    ("file_count", Js.VNum (Z.of_nat (length files)));
                    ("files", Js.VArr (map Js.VStr (Js.slice0 10 files))) ])
        \/ (exists message,
              dir_in_root w dir = FsThrows message /\
              success r = false /\ error r = Js.VStr message))).
Proof.
  induction dirs as [|d rest IH]; cbn [check_dirs].
  - left. split; [constructor | split; reflexivity].
  - destruct (dir_in_root w d) as [| |files|message] eqn:Ed.
    + destruct IH as [[Ha Hr]|[before [dir [after [-> [Hb Hc]]]]]].
      * left. split; [constructor; [now left | exact Ha] | exact Hr].
      * right. exists (d :: before), dir, after.
        split; [reflexivity | split; [constructor; [now left | exact Hb] | exact Hc]].
    + destruct IH as [[Ha Hr]|[before [dir [after [-> [Hb Hc]]]]]].
      * left. split; [constructor; [now right | exact Ha] | exact Hr].
      * right. exists (d :: before), dir, after.
        split; [reflexivity | split; [constructor; [now right | exact Hb] | exact Hc]].
    + right. exists [], d, rest. split; [reflexivity | split; [constructor|]].
      left. exists files. auto.
    + right. exists [], d, rest. split; [reflexivity | split; [constructor|]].
      right. exists message. auto.
Qed.

End WithNpm.

End BuildFacts.

(** [run_build] succeeds exactly when [npm run build] exits with 0, and
    the loop's error test agrees.  What it returns is bounded: at most
    the first 2000 characters of each output, and at most 10 error
    lines, each of them a line of stderr followed by stdout that holds
    [Error:], [error ] or [failed]; a successful build lists no error.
    The build record the dispatcher stores from it is bounded in the
    same way.  [run_lint] succeeds exactly when [npm run lint] exits
    with 0 and cuts its two outputs in the same way. *)
Theorem run_build_output_bounded :
  forall (World : Type)
         (spawn_npm : World -> list string -> World * Build.ExecResult)
         (w : World) (args : Js.value) (st : State.t),
    let res := snd (spawn_npm w ["run"; "build"]) in
    let r := fst (Build.run_build spawn_npm w) in
    let st' := Agent.update_state (Js.VStr "run_build") args r st in
    success r = (Build.exitCode res =? 0)%Z /\
    Llm.isError r = negb (success r) /\
    exists out err errors,
      Js.get (data r) "stdout" = Js.VStr out /\
      (String.length out <= 2000)%nat /\
      Js.startsWith (Build.stdout res) out = true /\
      Js.get (data r) "stderr" = Js.VStr err /\
      (String.length err <= 2000)%nat /\
      Js.startsWith (Build.stderr res) err = true /\
      Js.get (data r) "errors" = Js.VArr (map Js.VStr errors) /\
      (length errors <= 10)%nat /\
      Forall (fun line =>
                Build.error_line line = true /\
                In line (Js.split Js.LF_unit (Build.stderr res ++ Build.stdout res)))
        errors /\
      (success r = true -> errors = []) /\
      State.build st'
      = State.mkBuild true (Js.VBool (success r)) (Js.VArr (map Js.VStr errors))
          (Js.VStr out) /\
      let lint := snd (spawn_npm w ["run"; "lint"]) in
      let rl := fst (Build.run_lint spawn_npm w) in
      success rl = (Build.exitCode lint =? 0)%Z /\
      exists lout lerr,
        Js.get (data rl) "stdout" = Js.VStr lout /\
        (String.length lout <= 2000)%nat /\
        Js.startsWith (Build.stdout lint) lout = true /\
        Js.get (data rl) "stderr" = Js.VStr lerr /\
        (String.length lerr <= 2000)%nat /\
        Js.startsWith (Build.stderr lint) lerr = true.
Proof.
  intros World spawn_npm w args st. cbv zeta.
  assert (Hlint :
    success (fst (Build.run_lint spawn_npm w))
    = (Build.exitCode (snd (spawn_npm w ["run"; "lint"])) =? 0)%Z /\
    exists lout lerr,
      Js.get (data (fst (Build.run_lint spawn_npm w))) "stdout" = Js.VStr lout /\
      (String.length lout <= 2000)%nat /\
      Js.startsWith (Build.stdout (snd (spawn_npm w ["run"; "lint"]))) lout = true /\
      Js.get (data (fst (Build.run_lint spawn_npm w))) "stderr" = Js.VStr lerr /\
      (String.length lerr <= 2000)%nat /\
      Js.startsWith (Build.stderr (snd (spawn_npm w ["run"; "lint"]))) lerr = true).
  { unfold Build.run_lint, Build.execNpm.
    destruct (spawn_npm w ["run"; "lint"]) as [wl lint]. cbn [fst snd success data].
    split; [reflexivity|]. eexists _, _.
    split; [reflexivity|]. split; [apply BuildFacts.length_substring0|].
    split; [apply BuildFacts.substring0_prefix|].
    split; [reflexivity|]. split; [apply BuildFacts.length_substring0|].
    apply BuildFacts.substring0_prefix. }
  revert Hlint. generalize (Build.run_lint spawn_npm w).
  generalize (spawn_npm w ["run"; "lint"]). intros lint_answer lint_result Hlint.
  unfold Build.run_build, Build.execNpm.
  destruct (spawn_npm w ["run"; "build"]) as [w' res]. cbv zeta.
  cbn [fst snd success data].
  split; [reflexivity|]. split.
  { unfold Llm.isError. cbn [success data Js.get Js.lookup].
    cbn. destruct (Build.exitCode res =? 0)%Z; reflexivity. }
  eexists _, _, _.
  split; [reflexivity|]. split; [apply BuildFacts.length_substring0|].
  split; [apply BuildFacts.substring0_prefix|].
  split; [reflexivity|]. split; [apply BuildFacts.length_substring0|].
  split; [apply BuildFacts.substring0_prefix|].
  split; [reflexivity|].
  split.
  { destruct (negb (Build.exitCode res =? 0)%Z);
      [apply BuildFacts.slice0_length | cbn; lia]. }
  split.
  { destruct (negb (Build.exitCode res =? 0)%Z); [|constructor].
    apply Forall_forall. intros line Hin.
    apply BuildFacts.slice0_In in Hin. apply filter_In in Hin. tauto. }
  split.
  { intros Hs. rewrite Hs. reflexivity. }
  split; [unfold Agent.update_state; cbn; reflexivity | exact Hlint].
Qed.

(** [npm_install] starts npm once: [npm ci] when [package-lock.json]
    exists under the project root, [npm install] otherwise, in both
    cases with [--no-audit --no-fund --prefer-offline].  It succeeds
    exactly when npm exits with 0; on success it returns at most the
    first 1000 characters of the output, on failure the exit code and
    both outputs in full. *)
Theorem npm_install_invocation :
  forall (World : Type)
         (spawn_npm : World -> list string -> World * Build.ExecResult)
         (exists_in_root : World -> string -> bool) (w : World),
    let out := Build.npm_install spawn_npm exists_in_root w in
    let r := fst (fst out) in
    let argv := snd out in
    let res := snd (spawn_npm w argv) in
    argv
    = (if exists_in_root w "package-lock.json" then "ci" else "install")
      :: ["--no-audit"; "--no-fund"; "--prefer-offline"] /\
    snd (fst out) = fst (spawn_npm w argv) /\
    success r = (Build.exitCode res =? 0)%Z /\
    (success r = true ->
     exists text,
       Js.get (data r) "stdout" = Js.VStr text /\
       (String.length text <= 1000)%nat /\
       Js.startsWith (Build.stdout res) text = true) /\
    (success r = false ->
     error r = Js.VStr "npm install failed" /\
     data r
     = Js.VObj [ ("exitCode", Js.VNum (Build.exitCode res));
                 ("stderr", Js.VStr (Build.stderr res));
                 ("stdout", Js.VStr (Build.stdout res)) ]).
Proof.
  intros World spawn_npm exists_in_root w. cbv zeta.
  unfold Build.npm_install, Build.execNpm. cbv zeta.
  destruct (exists_in_root w "package-lock.json");
    match goal with
    | |- context [spawn_npm w ?a] => destruct (spawn_npm w a) as [w' res] eqn:Es
    end;
    destruct (Build.exitCode res =? 0)%Z eqn:Ee;
    cbn [negb fst snd success data error]; rewrite Es; cbn [fst snd];
    (split; [reflexivity|]); (split; [reflexivity|]); (split; [now rewrite Ee|]);
    split; try discriminate; intros _;
    try (split; reflexivity);
    (eexists; split; [reflexivity|];
     split; [apply BuildFacts.length_substring0 | apply BuildFacts.substring0_prefix]).
Qed.

(** [check_build_output] reports the first of [.next], [dist], [build],
    [out] that is a directory, with the number of its entries and at
    most ten of their names; candidates that are missing or not
    directories are passed over.  It fails with "No build output
    directory found" when all four are passed over.  The directory may
    be empty: its content is counted, not required. *)
Theorem check_build_output_first_directory :
  forall (World : Type) (dir_in_root : World -> string -> Build.DirAnswer)
         (w : World),
    let r := Build.check_build_output dir_in_root w in
    (Forall (Build.absent dir_in_root w) Build.buildDirs ->
     success r = false /\ error r = Js.VStr "No build output directory found") /\
    (forall before dir after files,
        Build.buildDirs = (before ++ dir :: after)%list ->
        Forall (Build.absent dir_in_root w) before ->
        dir_in_root w dir = Build.Directory files ->
        success r = true /\
        Js.get (data r) "build_dir" = Js.VStr dir /\
        Js.get (data r) "file_count" = Js.VNum (Z.of_nat (length files)) /\
        exists shown,
          Js.get (data r) "files" = Js.VArr (map Js.VStr shown) /\
          (length shown <= 10)%nat /\ shown = firstn 10 files) /\
    (success r = true ->
     exists dir, In dir Build.buildDirs /\
                 Js.get (data r) "build_dir" = Js.VStr dir /\
                 exists files, dir_in_root w dir = Build.Directory files).
Proof.
  intros World dir_in_root w. cbv zeta. unfold Build.check_build_output.
  assert (Hstop : forall dirs before dir after,
             dirs = (before ++ dir :: after)%list ->
             Forall (Build.absent dir_in_root w) before ->
             Build.check_dirs dir_in_root w dirs
             = Build.check_dirs dir_in_root w (dir :: after)).
  { intros dirs before. revert dirs.
    induction before as [|b before IH]; intros dirs dir after -> Hb; [reflexivity|].
    inversion Hb as [|? ? Hx Hrest]; subst. cbn [app Build.check_dirs].
    destruct Hx as [Hx|Hx]; rewrite Hx; now apply IH. }
  split; [|split].
  - intros Ha.
    destruct (BuildFacts.check_dirs_spec dir_in_root w Build.buildDirs)
      as [[_ Hr]|[before [dir [after [E [_ [[files [Hd _]]|[message [Hd _]]]]]]]]];
      [exact Hr | exfalso | exfalso];
      rewrite E in Ha; apply Forall_app in Ha; destruct Ha as [_ Ha];
      inversion Ha as [|? ? [Hx|Hx] _]; congruence.
  - intros before dir after files E Hb Hd.
    rewrite (Hstop _ _ _ _ E Hb). cbn [Build.check_dirs]. rewrite Hd.
    cbn [success data]. split; [reflexivity|].
    split; [reflexivity | split; [reflexivity|]].
    exists (firstn 10 files). split; [reflexivity|].
    split; [apply BuildFacts.slice0_length | reflexivity].
  - intros Hs.
    destruct (BuildFacts.check_dirs_spec dir_in_root w Build.buildDirs)
      as [[_ [Hr _]]|[before [dir [after [E [_ [[files [Hd [_ Hdata]]]|[message [_ [Hr _]]]]]]]]]];
      cbv zeta in *; try congruence.
    exists dir. split; [rewrite E; apply in_or_app; right; now left|].
    rewrite Hdata. split; [reflexivity | eauto].
Qed.

Lemma check_build_output_first_directory_witness :
  let dir_in_root := fun (_ : unit) (dir : string) =>
                       if dir =? "dist" then Build.Directory []
                       else if dir =? "out" then Build.Directory ["index.html"]
                       else Build.Missing in
  Forall (Build.absent dir_in_root tt) [".next"] /\
  success (Build.check_build_output dir_in_root tt) = true /\
  Js.get (data (Build.check_build_output dir_in_root tt)) "build_dir" = Js.VStr "dist" /\
  Js.get (data (Build.check_build_output dir_in_root tt)) "file_count" = Js.VNum 0.
Proof.
  intros dir_in_root.
  assert (Hb : Forall (Build.absent dir_in_root tt) [".next"])
    by (constructor; [left; reflexivity | constructor]).
  split; [exact Hb|].
  destruct (check_build_output_first_directory unit dir_in_root tt)
    as [_ [Hfirst _]].
  destruct (Hfirst [".next"] "dist" ["build"; "out"] [] eq_refl Hb eq_refl)
    as [Hs [Hd [Hc _]]].
  split; [exact Hs | split; [exact Hd | exact Hc]].
Defined.

(* ================================================================== *)
(** ** The file tools                                                 *)
(* ================================================================== *)

Module FileToolFacts.

Import FileTools.

Section WithFs.

Variable path_relative : string -> string -> string.
Variable path_join : string -> string -> string.
Variable PROJECT_ROOT query : string.

#[local] Abbreviation entry := (search_entry path_relative path_join PROJECT_ROOT query).
#[local] Abbreviation dir_loop := (searchDir path_relative path_join PROJECT_ROOT query).

(** The loop written inside [search_entry] is [searchDir]. *)
Lemma search_entry_dir (dir name : string) (entries : list Entry)
    (results : list Match) :
  skipped name = false ->
  entry dir (DirEntry name (inl entries)) results
  = dir_loop (path_join dir name) entries results.
Proof.
  intros Hs. cbn [search_entry entry_name]. rewrite Hs.
  revert results. induction entries as [|e rest IH]; intros results; [reflexivity|].
  cbn [searchDir].
  destruct (search_entry path_relative path_join PROJECT_ROOT query
              (path_join dir name) e results); [apply IH | reflexivity].
Qed.

Lemma searchDir_app (dir : string) (l1 l2 : list Entry) (results : list Match) :
  dir_loop dir (l1 ++ l2)%list results
  = match dir_loop dir l1 results with
    | inl found => dir_loop dir l2 found
    | inr message => inr message
    end.
Proof.
  revert results.
  induction l1 as [|e l1 IH]; intros results; [reflexivity|].
  cbn [app searchDir].
  destruct (search_entry path_relative path_join PROJECT_ROOT query dir e results);
    [apply IH | reflexivity].
Qed.

Lemma searchDir_one (dir : string) (e : Entry) (results : list Match) :
  dir_loop dir [e] results = entry dir e results.
Proof.
  cbn [searchDir].
  now destruct (search_entry path_relative path_join PROJECT_ROOT query dir e results).
Qed.

(** Searching an entry and searching what is left of it after pruning
    give the same results. *)
Lemma search_prune (e : Entry) :
  forall dir results, dir_loop dir (prune e) results = entry dir e results.
Proof.
  induction e as [name content|name entries IH|name message|name]
    using Entry_tree_ind; intros dir results.
  - cbn [prune entry_name]. destruct (skipped name) eqn:Hs.
    + cbn [search_entry entry_name]. now rewrite Hs.
    + apply searchDir_one.
  - cbn [prune entry_name]. destruct (skipped name) eqn:Hs.
    + cbn [search_entry entry_name]. now rewrite Hs.
    + rewrite searchDir_one, !search_entry_dir by exact Hs.
      generalize (path_join dir name). intros d. revert results.
      induction IH as [|x rest Hx _ IHrest]; intros results; [reflexivity|].
      cbn [flat_map]. rewrite searchDir_app, Hx.
      cbn [searchDir].
      destruct (entry d x results); [apply IHrest | reflexivity].
  - cbn [prune entry_name]. destruct (skipped name) eqn:Hs.
    + cbn [search_entry entry_name]. now rewrite Hs.
    + apply searchDir_one.
  - cbn [prune entry_name]. destruct (skipped name) eqn:Hs.
    + cbn [search_entry entry_name]. now rewrite Hs.
    + apply searchDir_one.
Qed.

Lemma searchDir_prune (entries : list Entry) :
  forall dir results,
    dir_loop dir (prune_entries entries) results = dir_loop dir entries results.
Proof.
  unfold prune_entries.
  induction entries as [|e rest IH]; intros dir results; [reflexivity|].
  cbn [flat_map]. rewrite searchDir_app, search_prune.
  cbn [searchDir].
  destruct (entry dir e results); [apply IH | reflexivity].
Qed.

Lemma search_entry_kinds (e : Entry) :
  forall dir results found,
    entry dir e results = inl found ->
    exists added, found = (results ++ added)%list /\ FileTools.kinds_ok added.
Proof.
  unfold FileTools.kinds_ok.
  induction e as [name content|name entries IH|name message|name]
    using Entry_tree_ind; intros dir results found H.
  - cbn [search_entry entry_name] in H.
    destruct (skipped name);
      [inversion H; subst; exists []; rewrite app_nil_r; auto|].
    destruct (Js.includes (Js.toLowerCase name) (Js.toLowerCase query)).
    + inversion H; subst. eexists. split; [reflexivity|]. repeat constructor.
    + destruct content as [text|];
        [|inversion H; subst; exists []; rewrite app_nil_r; auto].
      destruct (Js.includes (Js.toLowerCase text) (Js.toLowerCase query));
        inversion H; subst.
      * eexists. split; [reflexivity|]. constructor; [now right | constructor].
      * exists []. rewrite app_nil_r. auto.
  - destruct (skipped name) eqn:Hs.
    + cbn [search_entry entry_name] in H. rewrite Hs in H.
      inversion H; subst. exists []. rewrite app_nil_r. auto.
    + rewrite search_entry_dir in H by exact Hs.
      revert H. generalize (path_join dir name). intros d. revert results.
      induction IH as [|x rest Hx _ IHrest]; intros results H.
      * inversion H; subst. exists []. rewrite app_nil_r. auto.
      * cbn [searchDir] in H.
        destruct (entry d x results) as [mid|] eqn:Ex; [|discriminate].
        destruct (Hx _ _ _ Ex) as [a1 [-> Hk1]].
        destruct (IHrest _ H) as [a2 [-> Hk2]].
        exists (a1 ++ a2)%list. rewrite app_assoc. split; [reflexivity|].
        apply Forall_app. auto.
  - cbn [search_entry entry_name] in H.
    destruct (skipped name); [|discriminate].
    inversion H; subst. exists []. rewrite app_nil_r. auto.
  - cbn [search_entry entry_name] in H.
    destruct (skipped name); inversion H; subst; exists [];
      rewrite app_nil_r; auto.
Qed.

Lemma searchDir_kinds (entries : list Entry) :
  forall dir found,
    dir_loop dir entries [] = inl found -> FileTools.kinds_ok found.
Proof.
  unfold FileTools.kinds_ok.
  assert (G : forall dir results found,
             dir_loop dir entries results = inl found ->
             exists added, found = (results ++ added)%list /\ FileTools.kinds_ok added).
  { induction entries as [|e rest IH]; intros dir results found H.
    - inversion H; subst. exists []. rewrite app_nil_r. split; [reflexivity|constructor].
    - cbn [searchDir] in H.
      destruct (entry dir e results) as [mid|] eqn:Ex; [|discriminate].
      destruct (search_entry_kinds _ _ _ _ Ex) as [a1 [-> Hk1]].
      destruct (IH _ _ _ H) as [a2 [-> Hk2]].
      exists (a1 ++ a2)%list. rewrite app_assoc. split; [reflexivity|].
      apply Forall_app. auto. }
  intros dir found H. destruct (G _ _ _ H) as [added [-> Hk]]. exact Hk.
Qed.

End WithFs.

End FileToolFacts.

(** The file tools touch the file system only where [safePath] lets
    them.  For a path [safePath] rejects, [write_file], [read_file],
    [list_files] and [search_files] fail with its error and make no
    file system call.  For a path it accepts, the resolved path is the
    project root or lies under it, [read_file] and [list_files] make
    calls on that path only, and [write_file] writes that path with the
    content given and nothing else; its other calls are on that path or
    on its directory name. *)
Theorem file_tools_touch_only_the_accepted_path :
  forall (FS : Type)
         (existsSync : FS -> string -> bool)
         (mkdirSync : FS -> string -> FS * option string)
         (writeFileSync : FS -> string -> string -> FS * option string)
         (statSync : FS -> string -> FileTools.Stats + string)
         (readFileSync : FS -> string -> string + string)
         (readdirSync : FS -> string -> list FileTools.Entry + string)
         (cwd : string) (path_dirname : string -> string)
         (path_relative path_join : string -> string -> string)
         (root0 inputPath content query : string) (fs : FS),
    let root := Filesystem.initialize cwd root0 in
    let written :=
      FileTools.write_file FS existsSync mkdirSync writeFileSync statSync cwd
        path_dirname path_relative root inputPath content fs in
    let read :=
      FileTools.read_file FS existsSync statSync readFileSync cwd path_relative
        root inputPath fs in
    let listed :=
      FileTools.list_files FS existsSync statSync readdirSync cwd path_relative
        path_join root inputPath fs in
    let searched :=
      FileTools.search_files FS existsSync readdirSync cwd path_relative
        path_join root query inputPath fs in
    Path.isAbsolute cwd = true ->
    match Filesystem.safePath cwd root inputPath with
    | Filesystem.Invalid error =>
        written = (FileTools.failed error, fs, []) /\
        read = (FileTools.failed error, []) /\
        listed = (FileTools.failed error, []) /\
        searched = FileTools.failed error
    | Filesystem.Valid path =>
        Filesystem.confined root path /\
        Forall (fun c => FileTools.call_path c = path) (snd read) /\
        Forall (fun c => FileTools.call_path c = path) (snd listed) /\
        Forall (fun c =>
                  c = FileTools.ExistsSync (path_dirname path)
                  \/ c = FileTools.MkdirSync (path_dirname path)
                  \/ c = FileTools.WriteFileSync path content
                  \/ c = FileTools.StatSync path)
          (snd written) /\
        (success (fst (fst written)) = true ->
         In (FileTools.WriteFileSync path content) (snd written))
    end.
Proof.
  intros FS existsSync mkdirSync writeFileSync statSync readFileSync readdirSync
    cwd path_dirname path_relative path_join root0 inputPath content query fs.
  cbv zeta. intros Hcwd.
  unfold FileTools.write_file, FileTools.read_file, FileTools.list_files,
    FileTools.search_files.
  destruct (Filesystem.safePath cwd (Filesystem.initialize cwd root0) inputPath)
    as [path|error] eqn:Es.
  2:{ repeat split; reflexivity. }
  destruct (FilesystemFacts.safePath_accepts_confined _ _ _ _ Hcwd Es) as [_ Hc].
  split; [exact Hc|]. split; [|split; [|split]].
  - destruct (negb (existsSync fs path)); [repeat constructor|].
    destruct (readFileSync fs path); [|repeat constructor].
    destruct (statSync fs path); repeat constructor.
  - destruct (negb (existsSync fs path)); [repeat constructor|].
    destruct (statSync fs path) as [stats|]; [|repeat constructor].
    destruct (negb (FileTools.isDirectory stats)); [repeat constructor|].
    destruct (readdirSync fs path); repeat constructor.
  - cbv zeta.
    destruct (negb (existsSync fs (path_dirname path)));
      [destruct (mkdirSync fs (path_dirname path)) as [fs1 [m|]]|];
      cbn [snd];
      repeat match goal with
             | |- context [writeFileSync ?f path content] =>
                 destruct (writeFileSync f path content) as [? [?|]]
             | |- context [statSync ?f path] => destruct (statSync f path)
             end;
      cbn [snd app];
      repeat (apply Forall_cons; [auto 6|]); apply Forall_nil.
  - cbv zeta.
    destruct (negb (existsSync fs (path_dirname path)));
      [destruct (mkdirSync fs (path_dirname path)) as [fs1 [m|]]|];
      cbn [fst snd success FileTools.failed];
      repeat match goal with
             | |- context [writeFileSync ?f path content] =>
                 destruct (writeFileSync f path content) as [? [?|]]
             | |- context [statSync ?f path] => destruct (statSync f path)
             end;
      cbn [fst snd app success FileTools.failed]; intros Hs;
      try discriminate Hs; cbn; auto 6.
Qed.

Lemma file_tools_touch_only_the_accepted_path_witness :
  let existsSync := fun (fs : list string) (p : string) => Js.array_includes fs p in
  let mkdirSync := fun (fs : list string) (p : string) => (p :: fs, @None string) in
  let writeFileSync :=
    fun (fs : list string) (p _ : string) => (p :: fs, @None string) in
  let statSync :=
    fun (_ : list string) (_ : string) =>
      @inl FileTools.Stats string (FileTools.mkStats 12 false) in
  let path_dirname := fun _ : string => "/vercel/sandbox/src" in
  let path_relative := fun _ _ : string => "src/a.ts" in
  Path.isAbsolute "/vercel/sandbox" = true /\
  Filesystem.confined "/vercel/sandbox" "/vercel/sandbox/src/a.ts" /\
  In (FileTools.WriteFileSync "/vercel/sandbox/src/a.ts" "export {};")
    (snd (FileTools.write_file (list string) existsSync mkdirSync writeFileSync
            statSync "/vercel/sandbox" path_dirname path_relative
            "/vercel/sandbox" "src/a.ts" "export {};" ["/vercel/sandbox"])).
Proof.
  intros existsSync mkdirSync writeFileSync statSync path_dirname path_relative.
  assert (Hcwd : Path.isAbsolute "/vercel/sandbox" = true) by reflexivity.
  split; [exact Hcwd|].
  pose proof (file_tools_touch_only_the_accepted_path (list string)
                existsSync mkdirSync writeFileSync statSync
                (fun _ _ => inr "EISDIR") (fun _ _ => inr "ENOTDIR")
                "/vercel/sandbox" path_dirname path_relative
                (fun a b => a ++ "/" ++ b)
                "/vercel/sandbox" "src/a.ts" "export {};" "a"
                ["/vercel/sandbox"] Hcwd) as H.
  cbv zeta in H.
  change (Filesystem.safePath "/vercel/sandbox"
            (Filesystem.initialize "/vercel/sandbox" "/vercel/sandbox") "src/a.ts")
    with (Filesystem.Valid "/vercel/sandbox/src/a.ts") in H.
  cbv iota in H. destruct H as [Hc [_ [_ [_ Hw]]]].
  split; [exact Hc | exact (Hw eq_refl)].
Defined.

(** [search_files] returns at most 20 results, the first 20 in the
    order of the walk, while [count] is the number of all matches; each
    result is a file-name match or a content match.  Entries named
    [node_modules] or [.git] are stepped over at every depth: removing
    them, with everything below them, from what [readdirSync] returns
    changes nothing in the result. *)
Theorem search_files_capped_and_pruned :
  forall (FS : Type)
         (existsSync : FS -> string -> bool)
         (readdirSync : FS -> string -> list FileTools.Entry + string)
         (cwd : string) (path_relative path_join : string -> string -> string)
         (PROJECT_ROOT query searchPath : string) (fs : FS),
    let r :=
      FileTools.search_files FS existsSync readdirSync cwd path_relative
        path_join PROJECT_ROOT query searchPath fs in
    let pruned :=
      fun fs p =>
        match readdirSync fs p with
        | inl entries => inl (FileTools.prune_entries entries)
        | inr message => inr message
        end in
    (success r = true ->
     exists results,
       Js.get (data r) "results"
       = Js.VArr (map FileTools.match_value (firstn 20 results)) /\
       (length (firstn 20 results) <= 20)%nat /\
       Js.get (data r) "count" = Js.VNum (Z.of_nat (length results)) /\
       FileTools.kinds_ok results) /\
    FileTools.search_files FS existsSync pruned cwd path_relative path_join
      PROJECT_ROOT query searchPath fs
    = r.
Proof.
  intros FS existsSync readdirSync cwd path_relative path_join PROJECT_ROOT
    query searchPath fs. cbv zeta.
  unfold FileTools.search_files, FileTools.start_of.
  destruct (Filesystem.safePath cwd PROJECT_ROOT searchPath) as [path|error];
    [|split; [discriminate | reflexivity]].
  destruct (negb (existsSync fs path)).
  { split; [|reflexivity]. intros _. exists []. cbn.
    repeat split; try reflexivity; [lia | constructor]. }
  destruct (readdirSync fs path) as [entries|message];
    [|split; [discriminate | reflexivity]].
  rewrite (FileToolFacts.searchDir_prune path_relative path_join PROJECT_ROOT
             query entries path []).
  split; [|reflexivity].
  destruct (FileTools.searchDir path_relative path_join PROJECT_ROOT query path
              entries []) as [results|message] eqn:Ef; [|discriminate].
  intros _. exists results. cbn [data Js.get Js.lookup String.eqb Ascii.eqb Bool.eqb].
  split; [reflexivity|]. split; [rewrite length_firstn; lia|].
  split; [reflexivity|].
  exact (FileToolFacts.searchDir_kinds _ _ _ _ _ _ _ Ef).
Qed.

(* ================================================================== *)
(** ** The changed files and the dispatcher                           *)
(* ================================================================== *)

Module ChangedFilesFacts.

Import State.

Lemma same_value_string (p : string) (v : Js.value) :
  same_value (Js.VStr p) v = true <-> v = Js.VStr p.
Proof.
  destruct v; cbn; split; try discriminate.
  - intros H. apply String.eqb_eq in H. now subst.
  - intros [= ->]. apply String.eqb_refl.
Qed.

Lemma tracked_iff (p : string) (files : list Js.value) :
  existsb (same_value (Js.VStr p)) files = true <-> In (Js.VStr p) files.
Proof.
  rewrite existsb_exists. split.
  - intros [v [Hin Hv]]. apply same_value_string in Hv. now subst.
  - intros Hin. exists (Js.VStr p). split; [exact Hin|].
    now apply same_value_string.
Qed.

Lemma addChangedFile_string (p : string) (s : t) :
  (In (Js.VStr p) (changed_files s) /\ addChangedFile (Js.VStr p) s = s)
  \/ (~ In (Js.VStr p) (changed_files s) /\
      changed_files (addChangedFile (Js.VStr p) s)
      = (changed_files s ++ [Js.VStr p])%list).
Proof.
  unfold addChangedFile.
  destruct (existsb (same_value (Js.VStr p)) (changed_files s)) eqn:E.
  - left. split; [now apply tracked_iff | reflexivity].
  - right. split; [|reflexivity].
    intros Hin. apply tracked_iff in Hin. congruence.
Qed.

Lemma addChangedFile_rest (v : Js.value) (s : t) :
  goal (addChangedFile v s) = goal s /\
  build (addChangedFile v s) = build s /\
  dev_server (addChangedFile v s) = dev_server s /\
  verification (addChangedFile v s) = verification s /\
  git (addChangedFile v s) = git s /\
  iteration (addChangedFile v s) = iteration s /\
  plan (addChangedFile v s) = plan s.
Proof.
  unfold addChangedFile.
  destruct (existsb (same_value v) (changed_files s)); repeat split.
Qed.

End ChangedFilesFacts.

(** [changed_files] is append-only and free of duplicates.  After
    [addChangedFile] was called on any sequence of path strings, the old
    list is a prefix of the new one, every path of the sequence is in
    it, it has no duplicate when the old list had none, and nothing else
    in the state has changed. *)
Theorem addChangedFile_append_only_no_duplicates :
  forall (paths : list string) (s : State.t),
    let s' := State.addChangedFiles paths s in
    (exists added, State.changed_files s' = (State.changed_files s ++ added)%list /\
                   forall v, In v added -> exists p, In p paths /\ v = Js.VStr p) /\
    (forall p, In p paths -> In (Js.VStr p) (State.changed_files s')) /\
    (NoDup (State.changed_files s) -> NoDup (State.changed_files s')) /\
    State.iteration s' = State.iteration s /\
    State.git s' = State.git s /\
    State.build s' = State.build s.
Proof.
  intros paths. unfold State.addChangedFiles.
  induction paths as [|p rest IH]; intros s; cbv zeta; cbn [fold_left].
  - split; [exists []; rewrite app_nil_r; split; [reflexivity | contradiction]|].
    repeat split; auto. contradiction.
  - specialize (IH (State.addChangedFile (Js.VStr p) s)). cbv zeta in IH.
    destruct IH as [[added [Ha Hfrom]] [Hall [Hnd [Hi [Hg Hb]]]]].
    destruct (ChangedFilesFacts.addChangedFile_rest (Js.VStr p) s)
      as [_ [Eb [_ [_ [Eg [Ei _]]]]]].
    destruct (ChangedFilesFacts.addChangedFile_string p s) as [[Hin E]|[Hout E]].
    + rewrite E in *.
      split; [exists added; split; [exact Ha|]|].
      { intros v Hv. destruct (Hfrom v Hv) as [q [Hq ->]]. exists q.
        split; [now right | reflexivity]. }
      split; [|auto].
      intros q [<-|Hq]; [|now apply Hall].
      rewrite Ha. apply in_or_app. now left.
    + rewrite E in *.
      split; [exists (Js.VStr p :: added); split|].
      { rewrite Ha, <- app_assoc. reflexivity. }
      { intros v [<-|Hv]; [exists p; split; [now left | reflexivity]|].
        destruct (Hfrom v Hv) as [q [Hq ->]]. exists q.
        split; [now right | reflexivity]. }
      split; [|split; [|split; [congruence | split; congruence]]].
      * intros q [<-|Hq]; [|now apply Hall].
        rewrite Ha. apply in_or_app. left. apply in_or_app. right. now left.
      * intros Hs. apply Hnd.
        apply NoDup_app; [exact Hs | repeat constructor; auto|].
        intros v Hv [<-|[]]. contradiction.
Qed.

Module DispatchFacts.

Import Agent.

Lemma registered_names (name : string) :
  Js.property_truthy allTools name = true ->
  (name =? "start_dev_server") = false /\
  (name =? "stop_dev_server") = false /\
  (name =? "check_dev_server") = false.
Proof.
  intros H.
  repeat split;
    match goal with
    | |- (name =? ?s) = false =>
        destruct (String.eqb_spec name s) as [->|]; [discriminate H | reflexivity]
    end.
Qed.

(** For a registered tool the updates leave the dev-server and the
    verification records alone: the tools that would set them are not
    registered. *)
Lemma update_state_dead_fields (toolName args : Js.value) (result : ToolResult)
    (st : State.t) :
  Js.property_truthy allTools (Js.to_string toolName) = true ->
  State.dev_server (update_state toolName args result st) = State.dev_server st /\
  State.verification (update_state toolName args result st) = State.verification st /\
  State.goal (update_state toolName args result st) = State.goal st /\
  State.changed_files (update_state toolName args result st) = State.changed_files st.
Proof.
  intros Hreg. unfold update_state. cbv zeta.
  destruct toolName as [| |b|n|name|items|fields];
    try (cbn; repeat split; reflexivity).
  cbn [Js.to_string] in Hreg.
  destruct (registered_names name Hreg) as [H1 [H2 H3]].
  cbn [Js.strict_eq_str]. rewrite H1, H2, H3. cbn [andb].
  repeat match goal with
         | |- context [if ?c then _ else _] => destruct c
         end; cbn; repeat split; reflexivity.
Qed.

Section WithWorld.

Variable World : Type.
Variable call_tool : World -> string -> list Js.value -> World * ToolOutcome.

(** What [executeToolWithArgs] does with the tool functions: nothing
    for a name that is not registered, nothing for a registered name
    without a [case], and otherwise one call, of the tool named, on the
    arguments of its [case]. *)
Lemma executeToolWithArgs_call (toolName args : Js.value) (w : World)
    (st : State.t) :
  let out := executeToolWithArgs World call_tool toolName args w st in
  let w' := fst (fst out) in
  let outcome := snd out in
  (Js.property_truthy allTools (Js.to_string toolName) = false ->
   out = (w, st, Returned (mkResult false Js.VUndefined
                             (Js.VStr ("Unknown tool: " ++ Js.to_string toolName))))) /\
  (Js.property_truthy allTools (Js.to_string toolName) = true ->
   (w' = w /\
    outcome = Returned (mkResult false Js.VUndefined
                          (Js.VStr ("Unhandled tool: " ++ Js.to_string toolName))) /\
    match toolName with
    | Js.VStr name => call_arguments name args = None
    | _ => True
    end)
   \/ (exists name argv,
         toolName = Js.VStr name /\ call_arguments name args = Some argv /\
         (w', outcome) = call_tool w name argv)).
Proof.
  cbv zeta. unfold executeToolWithArgs.
  destruct (Js.property_truthy allTools (Js.to_string toolName)) eqn:Hreg;
    cbn [negb]; (split; [intros H; try discriminate H; try reflexivity|]);
    [|discriminate].
  intros _.
  destruct toolName as [| |b|n|name|items|fields];
    try (left; cbn; repeat split; reflexivity).
  destruct (call_arguments name args) as [argv|] eqn:Ea.
  - right. exists name, argv.
    split; [reflexivity | split; [first [reflexivity | exact Ea]|]].
    destruct (call_tool w name argv) as [w1 [result|message]]; reflexivity.
  - left. cbn. repeat split; first [reflexivity | exact Ea].
Qed.

Lemma executeToolWithArgs_dead_fields (toolName args : Js.value) (w : World)
    (st : State.t) :
  let st' := snd (fst (executeToolWithArgs World call_tool toolName args w st)) in
  State.dev_server st' = State.dev_server st /\
  State.verification st' = State.verification st /\
  State.goal st' = State.goal st.
Proof.
  cbv zeta. unfold executeToolWithArgs.
  destruct (Js.property_truthy allTools (Js.to_string toolName)) eqn:Hreg;
    cbn [negb]; [|repeat split; reflexivity].
  set (st0 := if Js.strict_eq_str toolName "write_file"
                 && Js.truthy_value (Js.get args "path")
              then State.addChangedFile (Js.get args "path") st else st).
  assert (H0 : State.dev_server st0 = State.dev_server st /\
               State.verification st0 = State.verification st /\
               State.goal st0 = State.goal st).
  { subst st0.
    destruct (Js.strict_eq_str toolName "write_file"
              && Js.truthy_value (Js.get args "path")); [|repeat split; reflexivity].
    destruct (ChangedFilesFacts.addChangedFile_rest (Js.get args "path") st)
      as [Hg [_ [Hd [Hv _]]]]. auto. }
  match goal with
  | |- context [let '(_, _) := ?call in _] => destruct call as [w1 o1]
  end.
  destruct o1 as [result|message]; cbn [fst snd]; [|exact H0].
  destruct (update_state_dead_fields toolName args result st0 Hreg)
    as [Hd [Hv [Hg _]]].
  destruct H0 as [H1 [H2 H3]]. rewrite Hd, Hv, Hg. auto.
Qed.

(** The path of a [write_file] call is recorded before the tool runs,
    whatever the tool then does; no other tool changes the list. *)
Lemma executeToolWithArgs_changed_files (toolName args : Js.value) (w : World)
    (st : State.t) :
  let st' := snd (fst (executeToolWithArgs World call_tool toolName args w st)) in
  State.changed_files st'
  = if Js.strict_eq_str toolName "write_file"
       && Js.truthy_value (Js.get args "path")
    then State.changed_files (State.addChangedFile (Js.get args "path") st)
    else State.changed_files st.
Proof.
  cbv zeta. unfold executeToolWithArgs.
  destruct (Js.property_truthy allTools (Js.to_string toolName)) eqn:Hreg;
    cbn [negb].
  - set (st0 := if Js.strict_eq_str toolName "write_file"
                   && Js.truthy_value (Js.get args "path")
                then State.addChangedFile (Js.get args "path") st else st).
    assert (H0 : State.changed_files st0
                 = if Js.strict_eq_str toolName "write_file"
                      && Js.truthy_value (Js.get args "path")
                   then State.changed_files
                          (State.addChangedFile (Js.get args "path") st)
                   else State.changed_files st).
    { subst st0. now destruct (Js.strict_eq_str toolName "write_file"
                               && Js.truthy_value (Js.get args "path")). }
    match goal with
    | |- context [let '(_, _) := ?call in _] => destruct call as [w1 o1]
    end.
    destruct o1 as [result|message]; cbn [fst snd]; [|exact H0].
    destruct (update_state_dead_fields toolName args result st0 Hreg)
      as [_ [_ [_ Hc]]]. now rewrite Hc.
  - cbn [fst snd].
    destruct toolName as [| |b|n|name|items|fields]; try reflexivity.
    cbn [Js.strict_eq_str].
    destruct (String.eqb_spec name "write_file") as [->|]; [discriminate Hreg|].
    reflexivity.
Qed.

End WithWorld.

End DispatchFacts.

(** The dispatcher calls at most one tool function.  A name that is not
    registered is answered "Unknown tool" with the world and the state
    untouched.  A registered name is either answered "Unhandled tool"
    without any call, or the tool of that name is called once on the
    arguments of its [case].  [verify_url] is registered but has no
    [case]: it is never called.  Whatever the tool and its outcome, the
    goal, the dev-server record and the verification record stay as
    they were. *)
Theorem dispatcher_calls_at_most_one_tool :
  forall (World : Type)
         (call_tool : World -> string -> list Js.value -> World * Agent.ToolOutcome)
         (toolName args : Js.value) (w : World) (st : State.t),
    let out := Agent.executeToolWithArgs World call_tool toolName args w st in
    let w' := fst (fst out) in
    let st' := snd (fst out) in
    let outcome := snd out in
    (Js.property_truthy Agent.allTools (Js.to_string toolName) = false ->
     out = (w, st,
            Agent.Returned
              (mkResult false Js.VUndefined
                 (Js.VStr ("Unknown tool: " ++ Js.to_string toolName))))) /\
    (Js.property_truthy Agent.allTools (Js.to_string toolName) = true ->
     (w' = w /\
      outcome
      = Agent.Returned
          (mkResult false Js.VUndefined
             (Js.VStr ("Unhandled tool: " ++ Js.to_string toolName))))
     \/ (exists name argv,
           toolName = Js.VStr name /\
           Agent.call_arguments name args = Some argv /\
           (w', outcome) = call_tool w name argv)) /\
    Agent.executeToolWithArgs World call_tool (Js.VStr "verify_url") args w st
    = (w, st,
       Agent.Returned
         (mkResult false Js.VUndefined (Js.VStr "Unhandled tool: verify_url"))) /\
    State.dev_server st' = State.dev_server st /\
    State.verification st' = State.verification st /\
    State.goal st' = State.goal st.
Proof.
  intros World call_tool toolName args w st. cbv zeta.
  destruct (DispatchFacts.executeToolWithArgs_call World call_tool toolName args w st)
    as [Hun Hreg]. cbv zeta in Hun, Hreg.
  split; [exact Hun|]. split.
  { intros H. destruct (Hreg H) as [[H1 [H2 _]]|H3]; [left; auto | right; exact H3]. }
  split; [reflexivity|].
  exact (DispatchFacts.executeToolWithArgs_dead_fields World call_tool toolName args w st).
Qed.

(** The path of a [write_file] call is added to [changed_files] before
    the tool runs: it is listed whether the write then succeeds, is
    refused, or throws.  No other tool changes the list, and a call
    adds at most one entry. *)
Theorem write_file_is_tracked_before_it_runs :
  forall (World : Type)
         (call_tool : World -> string -> list Js.value -> World * Agent.ToolOutcome)
         (toolName args : Js.value) (w : World) (st : State.t),
    let st' :=
      snd (fst (Agent.executeToolWithArgs World call_tool toolName args w st)) in
    (toolName = Js.VStr "write_file" ->
     forall path, Js.get args "path" = Js.VStr path -> path <> "" ->
                  In (Js.VStr path) (State.changed_files st')) /\
    (toolName <> Js.VStr "write_file" ->
     State.changed_files st' = State.changed_files st) /\
    (exists added,
        State.changed_files st' = (State.changed_files st ++ added)%list /\
        (length added <= 1)%nat).
Proof.
  intros World call_tool toolName args w st. cbv zeta.
  rewrite (DispatchFacts.executeToolWithArgs_changed_files World call_tool
             toolName args w st).
  split; [|split].
  - intros -> path Hp Hne. cbn [Js.strict_eq_str String.eqb Ascii.eqb Bool.eqb andb].
    rewrite Hp. cbn [Js.truthy_value].
    destruct (String.eqb_spec path "") as [|_]; [contradiction|]. cbn [negb].
    destruct (ChangedFilesFacts.addChangedFile_string path st) as [[Hin ->]|[_ ->]];
      [exact Hin | apply in_or_app; right; now left].
  - intros Hn.
    destruct toolName as [| |b|n|name|items|fields]; try reflexivity.
    cbn [Js.strict_eq_str].
    destruct (String.eqb_spec name "write_file") as [->|]; [now elim Hn | reflexivity].
  - destruct (Js.strict_eq_str toolName "write_file"
              && Js.truthy_value (Js.get args "path"));
      [|exists []; rewrite app_nil_r; split; [reflexivity | cbn; lia]].
    unfold State.addChangedFile.
    destruct (existsb (State.same_value (Js.get args "path")) (State.changed_files st)).
    + exists []. rewrite app_nil_r. split; [reflexivity | cbn; lia].
    + eexists. split; [reflexivity | cbn; lia].
Qed.

(* ================================================================== *)
(** ** What a run of the loop keeps                                   *)
(* ================================================================== *)

Module LoopFacts.

Import Agent.

Section WithWorld.

Variable World : Type.
Variable fetch_completion :
  World -> string -> list Llm.Message -> World * Llm.FetchOutcome.
Variable call_tool : World -> string -> list Js.value -> World * ToolOutcome.
Variable JSON_stringify : Js.value -> string.
Variable JSON_stringify_pretty : Js.value -> string.
Variable OPENAI_API_KEY : option string.
Variable OPENAI_MODEL : option string.

#[local] Abbreviation body :=
  (loop_body World fetch_completion call_tool JSON_stringify
     JSON_stringify_pretty OPENAI_API_KEY OPENAI_MODEL).
#[local] Abbreviation run :=
  (agent_loop World fetch_completion call_tool JSON_stringify
     JSON_stringify_pretty OPENAI_API_KEY OPENAI_MODEL).

(** Invariant rule for the loop: [I] holds whenever the condition is
    evaluated, [J] holds of the exit and the variables at the exit. *)
Lemma agent_loop_rule (I : Loop World -> Prop) (J : Exit -> Loop World -> Prop) :
  (forall l, I l ->
             (State.count (State.iteration (state World l)) <? MAX_STEPS)%nat
             && negb (done World l) = true ->
             match body l with
             | inl (e, l') => J e l'
             | inr l' => I l'
             end) ->
  (forall l, I l ->
             (State.count (State.iteration (state World l)) <? MAX_STEPS)%nat
             && negb (done World l) = false ->
             J ExitBudget l) ->
  forall fuel l e l', I l -> run fuel l = Some (e, l') -> J e l'.
Proof.
  intros Hbody Hstop. induction fuel as [|fuel IH]; intros l e l' Hl; [discriminate|].
  rewrite AgentFacts.agent_loop_unfold.
  destruct ((State.count (State.iteration (state World l)) <? MAX_STEPS)%nat
            && negb (done World l)) eqn:Ec.
  - specialize (Hbody l Hl Ec).
    destruct (body l) as [[e1 l1]|l1].
    + intros [= <- <-]. exact Hbody.
    + apply IH. exact Hbody.
  - intros [= <- <-]. now apply Hstop.
Qed.

(** One pass leaves the goal, the dev-server record, the verification
    record and the step budget as they were. *)
Lemma loop_body_dead_fields (l : Loop World) :
  let kept (l' : Loop World) :=
    State.goal (state World l') = State.goal (state World l) /\
    State.dev_server (state World l') = State.dev_server (state World l) /\
    State.verification (state World l') = State.verification (state World l) /\
    State.max (State.iteration (state World l'))
    = State.max (State.iteration (state World l)) in
  match body l with
  | inl (_, l') => kept l'
  | inr l' => kept l'
  end.
Proof.
  cbv zeta. unfold loop_body. cbv zeta.
  destruct (Llm.callLLM World fetch_completion OPENAI_API_KEY (messages World l)
              (Llm.DEFAULT_MODEL OPENAI_MODEL) 3 (world World l)) as [w1 response].
  destruct (negb (Llm.llm_success response)); [cbn; auto|].
  destruct (Js.truthy_value (Js.get (Llm.llm_data response) "plan")).
  { destruct (Js.get (Llm.llm_data response) "plan"); cbn; auto. }
  destruct (Js.truthy_value (Js.get (Llm.llm_data response) "done")); [cbn; auto|].
  destruct (negb (Js.truthy_value (Js.get (Llm.llm_data response) "tool")));
    [cbn; auto|].
  pose proof (DispatchFacts.executeToolWithArgs_dead_fields World call_tool
                (Js.get (Llm.llm_data response) "tool")
                (Js.or_value (Js.get (Llm.llm_data response) "args") (Js.VObj []))
                w1 (State.incrementIteration (state World l))) as Hd.
  cbv zeta in Hd.
  destruct (executeToolWithArgs World call_tool
              (Js.get (Llm.llm_data response) "tool")
              (Js.or_value (Js.get (Llm.llm_data response) "args") (Js.VObj []))
              w1 (State.incrementIteration (state World l)))
    as [[w2 st2] outcome] eqn:Ee.
  pose proof (AgentFacts.executeToolWithArgs_iteration _ _ _ _ _ _ _ _ _ Ee) as Hi.
  cbn [fst snd] in Hd. destruct Hd as [Hds [Hv Hg]].
  destruct outcome as [toolResult|message]; cbn [state].
  - destruct (Llm.isError toolResult); cbn; rewrite ?Hds, ?Hv, ?Hg, ?Hi; cbn; auto.
  - rewrite Hds, Hv, Hg, Hi. cbn. auto.
Qed.

End WithWorld.

End LoopFacts.

(** What a whole run keeps.  Whenever the loop returns from the start
    of [main], the goal is the one given, the step budget is the
    maximum number of steps, and the dev-server and verification
    records are the initial ones: no registered tool sets them.  So no
    dev server is running when the cleanup looks, the state summary
    always reads "Verification: not run", and [shouldTerminate] never
    answers "Task completed successfully": it says to terminate exactly
    when the step count has reached the maximum. *)
Theorem run_keeps_goal_budget_and_unused_records :
  forall (World : Type)
         (fetch_completion :
            World -> string -> list Llm.Message -> World * Llm.FetchOutcome)
         (call_tool : World -> string -> list Js.value -> World * Agent.ToolOutcome)
         (JSON_stringify JSON_stringify_pretty : Js.value -> string)
         (OPENAI_API_KEY OPENAI_MODEL : option string)
         (fuel : nat) (goal : string) (w : World)
         (exit : Agent.Exit) (l' : Agent.Loop World),
    Agent.agent_loop World fetch_completion call_tool JSON_stringify
      JSON_stringify_pretty OPENAI_API_KEY OPENAI_MODEL fuel
      (Agent.initial_loop World goal w) = Some (exit, l') ->
    let st := Agent.state World l' in
    State.goal st = Js.VStr goal /\
    State.max (State.iteration st) = Agent.MAX_STEPS /\
    State.dev_server st = State.dev_server State.initialState /\
    State.verification st = State.verification State.initialState /\
    State.running (State.dev_server st) = false /\
    Llm.tri_state (State.verification_success (State.verification st)) = "not run" /\
    State.shouldTerminate st
    = (if (Agent.MAX_STEPS <=? State.count (State.iteration st))%nat
       then State.mkTermination true (Some "Max iterations reached")
       else State.mkTermination false None).
Proof.
  intros World fetch call_tool js jsp key model fuel goal w exit l' Hrun. cbv zeta.
  assert (Hkept :
    State.goal (Agent.state World l') = Js.VStr goal /\
    State.dev_server (Agent.state World l') = State.dev_server State.initialState /\
    State.verification (Agent.state World l')
    = State.verification State.initialState /\
    State.max (State.iteration (Agent.state World l')) = Agent.MAX_STEPS).
  { refine (LoopFacts.agent_loop_rule World fetch call_tool js jsp key model
              (fun l =>
                 State.goal (Agent.state World l) = Js.VStr goal /\
                 State.dev_server (Agent.state World l)
                 = State.dev_server State.initialState /\
                 State.verification (Agent.state World l)
                 = State.verification State.initialState /\
                 State.max (State.iteration (Agent.state World l)) = Agent.MAX_STEPS)
              (fun _ l =>
                 State.goal (Agent.state World l) = Js.VStr goal /\
                 State.dev_server (Agent.state World l)
                 = State.dev_server State.initialState /\
                 State.verification (Agent.state World l)
                 = State.verification State.initialState /\
                 State.max (State.iteration (Agent.state World l)) = Agent.MAX_STEPS)
              _ _ fuel (Agent.initial_loop World goal w) exit l' _ Hrun).
    - intros l [Hg [Hd [Hv Hm]]] _.
      pose proof (LoopFacts.loop_body_dead_fields World fetch call_tool js jsp
                    key model l) as Hb.
      cbv zeta in Hb.
      destruct (Agent.loop_body World fetch call_tool js jsp key model l)
        as [[e l1]|l1]; destruct Hb as [H1 [H2 [H3 H4]]];
        rewrite H1, H2, H3, H4; auto.
    - intros l H _. exact H.
    - cbn. auto. }
  destruct Hkept as [Hg [Hd [Hv Hm]]].
  split; [exact Hg | split; [exact Hm | split; [exact Hd | split; [exact Hv|]]]].
  split; [now rewrite Hd | split; [now rewrite Hv|]].
  unfold State.shouldTerminate. rewrite Hm, Hv.
  destruct (Agent.MAX_STEPS <=? State.count (State.iteration (Agent.state World l')))%nat;
    [reflexivity|].
  cbn. now rewrite andb_false_r.
Qed.

Lemma run_keeps_goal_budget_and_unused_records_witness :
  let fetch := fun (w : unit) (_ : string) (_ : list Llm.Message) =>
    (w, Llm.Completion
          (Some ("{" ++ Js.quote "tool" ++ ": " ++ Js.quote "run_build" ++ ", "
                 ++ Js.quote "args" ++ ": {}}"))
          (Some "stop")
          (Some (Js.VObj [ ("tool", Js.VStr "run_build");
                           ("args", Js.VObj []) ]))) in
  let call_tool := fun (w : unit) (_ : string) (_ : list Js.value) =>
    (w, Agent.Returned
          (mkResult true (Js.VObj [("exitCode", Js.VNum 0)]) Js.VUndefined)) in
  exists exit l',
    Agent.agent_loop unit fetch call_tool (fun _ => "") (fun _ => "")
      (Some "sk-key") None 16 (Agent.initial_loop unit "Build the site" tt)
    = Some (exit, l') /\
    State.build_success (State.build (Agent.state unit l')) = Js.VBool true /\
    State.shouldTerminate (Agent.state unit l')
    = State.mkTermination true (Some "Max iterations reached").
Proof.
  intros fetch call_tool.
  destruct (AgentFacts.agent_loop_total unit fetch call_tool (fun _ => "")
              (fun _ => "") (Some "sk-key") None Agent.MAX_STEPS
              (Agent.initial_loop unit "Build the site" tt) (Nat.le_sub_l _ _))
    as [exit [l' [Hrun _]]].
  assert (Hfuel : Agent.MAX_STEPS < 16) by (unfold Agent.MAX_STEPS; lia).
  specialize (Hrun 16 Hfuel).
  exists exit, l'. split; [exact Hrun|].
  pose proof (run_keeps_goal_budget_and_unused_records unit fetch call_tool
                (fun _ => "") (fun _ => "") (Some "sk-key") None 16
                "Build the site" tt exit l' Hrun) as H.
  cbv zeta in H. destruct H as [_ [_ [_ [_ [_ [_ Hterm]]]]]].
  rewrite Hterm.
  vm_compute in Hrun. injection Hrun as _ <-. split; reflexivity.
Defined.

(** The bookkeeping of a run.  Whenever the loop returns from the start
    of [main]: the repair counter is the number of recorded errors and
    is at most the number of passes; the step count is the number of
    passes and at most the maximum; the history still starts with the
    goal message and has grown by at most three messages per pass;
    [done] is set exactly when the loop was left by a [done] action,
    and a result is stored only then; and the budget exit is taken only
    with the step count at the maximum. *)
Theorem run_bookkeeping :
  forall (World : Type)
         (fetch_completion :
            World -> string -> list Llm.Message -> World * Llm.FetchOutcome)
         (call_tool : World -> string -> list Js.value -> World * Agent.ToolOutcome)
         (JSON_stringify JSON_stringify_pretty : Js.value -> string)
         (OPENAI_API_KEY OPENAI_MODEL : option string)
         (fuel : nat) (goal : string) (w : World)
         (exit : Agent.Exit) (l' : Agent.Loop World),
    Agent.agent_loop World fetch_completion call_tool JSON_stringify
      JSON_stringify_pretty OPENAI_API_KEY OPENAI_MODEL fuel
      (Agent.initial_loop World goal w) = Some (exit, l') ->
    let it := State.iteration (Agent.state World l') in
    State.repairs it = length (State.errors it) /\
    State.repairs it <= Agent.passes World l' /\
    State.count it = Agent.passes World l' /\
    State.count it <= Agent.MAX_STEPS /\
    (exists added,
        Agent.messages World l' = Llm.formatGoal goal :: added /\
        length added <= 3 * Agent.passes World l') /\
    (Agent.done World l' = true <-> exit = Agent.ExitDone) /\
    (exit <> Agent.ExitDone -> Agent.finalResult World l' = Js.VNull) /\
    (exit = Agent.ExitBudget -> State.count it = Agent.MAX_STEPS).
Proof.
  intros World fetch call_tool js jsp key model fuel goal w exit l' Hrun. cbv zeta.
  refine (LoopFacts.agent_loop_rule World fetch call_tool js jsp key model
            (fun l =>
               let it := State.iteration (Agent.state World l) in
               State.repairs it = length (State.errors it) /\
               State.repairs it <= Agent.passes World l /\
               State.count it = Agent.passes World l /\
               State.count it <= Agent.MAX_STEPS /\
               (exists added,
                   Agent.messages World l = Llm.formatGoal goal :: added /\
                   length added <= 3 * Agent.passes World l) /\
               Agent.done World l = false /\
               Agent.finalResult World l = Js.VNull)
            (fun e l =>
               let it := State.iteration (Agent.state World l) in
               State.repairs it = length (State.errors it) /\
               State.repairs it <= Agent.passes World l /\
               State.count it = Agent.passes World l /\
               State.count it <= Agent.MAX_STEPS /\
               (exists added,
                   Agent.messages World l = Llm.formatGoal goal :: added /\
                   length added <= 3 * Agent.passes World l) /\
               (Agent.done World l = true <-> e = Agent.ExitDone) /\
               (e <> Agent.ExitDone -> Agent.finalResult World l = Js.VNull) /\
               (e = Agent.ExitBudget -> State.count it = Agent.MAX_STEPS))
            _ _ fuel (Agent.initial_loop World goal w) exit l' _ Hrun).
  - intros l [Hr [Hrp [Hc [Hmax [[added [Hmsg Hlen]] [Hd Hf]]]]]] Hcond.
    cbv zeta in *.
    apply andb_prop in Hcond. destruct Hcond as [Hlt _].
    apply Nat.ltb_lt in Hlt.
    pose proof (AgentFacts.loop_body_cases World fetch call_tool js jsp key model l)
      as Hcase.
    destruct Hcase; cbn [Agent.state Agent.passes Agent.messages Agent.done
                         Agent.finalResult State.iteration State.repairs
                         State.errors State.count State.incrementIteration
                         State.addIterationError State.setPlan].
    + rewrite length_app. cbn [length].
      repeat split; try lia; try congruence; try discriminate.
      exists added. split; [exact Hmsg | lia].
    + repeat split; try lia.
      * rewrite Hmsg. eexists. split; [reflexivity|].
        rewrite length_app. cbn [length]. lia.
      * exact Hd.
      * exact Hf.
    + repeat split; try lia; try congruence; try discriminate.
      exists added. split; [exact Hmsg | lia].
    + repeat split; try lia; try congruence; try discriminate;
        try (intros Hn; now elim Hn).
      exists added. split; [exact Hmsg | lia].
    + match goal with
      | Hit : State.iteration st2 = _ |- _ => rewrite Hit
      end.
      cbn [State.iteration State.repairs State.errors State.count
           State.incrementIteration].
      repeat split; try lia; try congruence; try discriminate.
      exists added. split; [exact Hmsg | lia].
    + match goal with
      | Hit : State.iteration st2 = _ |- _ => rename Hit into Hi
      end.
      assert (Hst :
        let st3 :=
          if Llm.isError toolResult
          then State.addIterationError
                 (Js.or_value (error toolResult)
                    (Js.VStr (Js.to_string toolName ++ " failed"))) st2
          else st2 in
        State.repairs (State.iteration st3) = length (State.errors (State.iteration st3)) /\
        State.repairs (State.iteration st3) <= S (Agent.passes World l) /\
        State.count (State.iteration st3) = S (Agent.passes World l)).
      { cbv zeta. destruct (Llm.isError toolResult);
          cbn [State.addIterationError State.iteration State.repairs State.errors
               State.count];
          rewrite ?length_app, Hi;
          cbn [State.iteration State.repairs State.errors State.count
               State.incrementIteration length]; repeat split; lia. }
      cbv zeta in Hst. destruct Hst as [H1 [H2 H3]].
      split; [exact H1 | split; [exact H2 | split; [exact H3 | split; [lia|]]]].
      split; [|split; [exact Hd | exact Hf]].
      rewrite Hmsg.
      match goal with
      | |- context [if ?c then _ else _] => destruct c
      end; eexists; (split; [reflexivity|]);
        rewrite ?length_app; cbn [length]; lia.
  - intros l [Hr [Hrp [Hc [Hmax [Hmsg [Hd Hf]]]]]] Hcond. cbv zeta in *.
    rewrite Hd in Hcond. rewrite andb_true_r in Hcond.
    apply Nat.ltb_ge in Hcond.
    repeat split; try assumption; try lia; try congruence; try discriminate.
  - cbn. repeat split; try lia.
    exists []. split; [reflexivity | cbn; lia].
Qed.

Lemma run_bookkeeping_witness :
  let fetch := fun (w : unit) (_ : string) (_ : list Llm.Message) =>
    (w, Llm.Completion
          (Some ("{" ++ Js.quote "done" ++ ": true, " ++ Js.quote "result" ++ ": "
                 ++ Js.quote "Nothing to change" ++ "}"))
          (Some "stop")
          (Some (Js.VObj [ ("done", Js.VBool true);
                           ("result", Js.VStr "Nothing to change") ]))) in
  let call_tool := fun (w : unit) (_ : string) (_ : list Js.value) =>
    (w, Agent.Returned (mkResult true Js.VUndefined Js.VUndefined)) in
  exists l',
    Agent.agent_loop unit fetch call_tool (fun _ => "") (fun _ => "")
      (Some "sk-key") None 16 (Agent.initial_loop unit "Check the site" tt)
    = Some (Agent.ExitDone, l') /\
    Agent.done unit l' = true /\
    State.count (State.iteration (Agent.state unit l')) = Agent.passes unit l'.
Proof.
  intros fetch call_tool.
  assert (Hrun : exists l',
             Agent.agent_loop unit fetch call_tool (fun _ => "") (fun _ => "")
               (Some "sk-key") None 16 (Agent.initial_loop unit "Check the site" tt)
             = Some (Agent.ExitDone, l')).
  { eexists. vm_compute. reflexivity. }
  destruct Hrun as [l' Hrun]. exists l'. split; [exact Hrun|].
  destruct (run_bookkeeping unit fetch call_tool (fun _ => "") (fun _ => "")
              (Some "sk-key") None 16 "Check the site" tt Agent.ExitDone l' Hrun)
    as [_ [_ [Hc [_ [_ [Hd _]]]]]].
  split; [now apply Hd | exact Hc].
Defined.

(* ================================================================== *)
(** ** Requests to the endpoint                                       *)
(* ================================================================== *)

Module FetchFacts.

Import Llm.

Section WithEndpoint.

Variable World : Type.
Variable fetch_completion : World -> string -> list Message -> World * FetchOutcome.

#[local] Abbreviation counted := (counted_fetch World fetch_completion).

Lemma counted_fetch_count (w : World * nat) (model : string) (messages : list Message) :
  snd (fst (counted w model messages)) = S (snd w).
Proof.
  unfold counted_fetch. now destruct (fetch_completion (fst w) model messages).
Qed.

(** One pass of the retry loop makes one request. *)
Lemma attempt_once_count model messages attempt maxRetries (w : World * nat) :
  snd (fst (attempt_once (World * nat) counted model messages attempt maxRetries w))
  = S (snd w).
Proof.
  unfold attempt_once. pose proof (counted_fetch_count w model messages) as Hc.
  destruct (counted w model messages) as [w' outcome]. cbn [fst snd] in Hc.
  destruct outcome as [message|status errorText|content finishReason parsed];
    repeat match goal with
           | |- context [if ?c then _ else _] => destruct c
           | |- context [match decode ?c ?p with _ => _ end] => destruct (decode c p)
           end; exact Hc.
Qed.

Lemma retry_loop_count remaining model messages attempt maxRetries (w : World * nat) :
  let w' := fst (retry_loop (World * nat) counted remaining model messages
                   attempt maxRetries w) in
  (snd w <= snd w' <= snd w + remaining)%nat.
Proof.
  cbv zeta. revert attempt w.
  induction remaining as [|n IH]; intros attempt w; cbn [retry_loop]; [cbn; lia|].
  pose proof (attempt_once_count model messages attempt maxRetries w) as Hc.
  destruct (attempt_once (World * nat) counted model messages attempt maxRetries w)
    as [w1 [r|u]]; cbn [fst snd] in *.
  - lia.
  - specialize (IH (S attempt) w1). lia.
Qed.

Lemma try_models_count models messages maxRetries (w : World * nat) :
  let w' := fst (try_models (World * nat) counted models messages maxRetries w) in
  (snd w <= snd w' <= snd w + length models * maxRetries)%nat.
Proof.
  cbv zeta. revert w.
  induction models as [|m models IH]; intros w; cbn [try_models length]; [cbn; lia|].
  unfold tryModel.
  pose proof (retry_loop_count maxRetries m messages 1 maxRetries w) as Hc.
  cbv zeta in Hc.
  destruct (retry_loop (World * nat) counted maxRetries m messages 1 maxRetries w)
    as [w1 r]; cbn [fst snd] in *.
  destruct (llm_success r || negb (modelNotFound r)); cbn [fst snd]; [nia|].
  specialize (IH w1). nia.
Qed.

(** [callLLM] makes at most [maxRetries] requests per model it tries,
    and it tries at most two models. *)
Lemma callLLM_count apiKey messages model maxRetries (w : World * nat) :
  let w' := fst (callLLM (World * nat) counted apiKey messages model maxRetries w) in
  (snd w <= snd w' <= snd w + 2 * maxRetries)%nat /\
  (Js.truthy apiKey = false -> w' = w) /\
  (model = FALLBACK_MODEL -> snd w' <= snd w + maxRetries)%nat.
Proof.
  cbv zeta. unfold callLLM.
  destruct (Js.truthy apiKey); cbn [negb fst snd].
  2:{ split; [lia | split; [reflexivity | intros; lia]]. }
  destruct (String.eqb_spec model FALLBACK_MODEL) as [E|N].
  - pose proof (try_models_count [model] messages maxRetries w) as H.
    cbv zeta in H. cbn [length] in H.
    split; [lia | split; [discriminate | intros; lia]].
  - pose proof (try_models_count [model; FALLBACK_MODEL] messages maxRetries w) as H.
    cbv zeta in H. cbn [length] in H.
    split; [lia | split; [discriminate | contradiction]].
Qed.

(** The counter only counts: the world and the answer are those of the
    endpoint without it. *)
Lemma attempt_once_plain model messages attempt maxRetries (w : World * nat) :
  let c := attempt_once (World * nat) counted model messages attempt maxRetries w in
  let p := attempt_once World fetch_completion model messages attempt maxRetries
             (fst w) in
  fst (fst c) = fst p /\ snd c = snd p.
Proof.
  cbv zeta. unfold attempt_once, counted_fetch.
  destruct (fetch_completion (fst w) model messages) as [w' outcome].
  destruct outcome as [message|status errorText|content finishReason parsed];
    repeat match goal with
           | |- context [if ?c then _ else _] => destruct c
           | |- context [match decode ?c ?p with _ => _ end] => destruct (decode c p)
           end; split; reflexivity.
Qed.

Lemma retry_loop_plain remaining model messages attempt maxRetries (w : World * nat) :
  let c := retry_loop (World * nat) counted remaining model messages attempt
             maxRetries w in
  let p := retry_loop World fetch_completion remaining model messages attempt
             maxRetries (fst w) in
  fst (fst c) = fst p /\ snd c = snd p.
Proof.
  cbv zeta. revert attempt w.
  induction remaining as [|n IH]; intros attempt w; cbn [retry_loop];
    [split; reflexivity|].
  pose proof (attempt_once_plain model messages attempt maxRetries w) as Hp.
  cbv zeta in Hp.
  destruct (attempt_once (World * nat) counted model messages attempt maxRetries w)
    as [w1 o1].
  destruct (attempt_once World fetch_completion model messages attempt maxRetries
              (fst w)) as [w2 o2].
  cbn [fst snd] in Hp. destruct Hp as [<- <-].
  destruct o1 as [r|u]; [split; reflexivity|]. apply IH.
Qed.

Lemma try_models_plain models messages maxRetries (w : World * nat) :
  let c := try_models (World * nat) counted models messages maxRetries w in
  let p := try_models World fetch_completion models messages maxRetries (fst w) in
  fst (fst c) = fst p /\ snd c = snd p.
Proof.
  cbv zeta. revert w.
  induction models as [|m models IH]; intros w; cbn [try_models];
    [split; reflexivity|].
  unfold tryModel.
  pose proof (retry_loop_plain maxRetries m messages 1 maxRetries w) as Hp.
  cbv zeta in Hp.
  destruct (retry_loop (World * nat) counted maxRetries m messages 1 maxRetries w)
    as [w1 r1].
  destruct (retry_loop World fetch_completion maxRetries m messages 1 maxRetries
              (fst w)) as [w2 r2].
  cbn [fst snd] in Hp. destruct Hp as [<- <-].
  destruct (llm_success r1 || negb (modelNotFound r1)); [split; reflexivity|].
  apply IH.
Qed.

Lemma callLLM_plain apiKey messages model maxRetries (w : World * nat) :
  let c := callLLM (World * nat) counted apiKey messages model maxRetries w in
  let p := callLLM World fetch_completion apiKey messages model maxRetries (fst w) in
  fst (fst c) = fst p /\ snd c = snd p.
Proof.
  cbv zeta. unfold callLLM.
  destruct (negb (Js.truthy apiKey)); [split; reflexivity|].
  apply try_models_plain.
Qed.

End WithEndpoint.

End FetchFacts.

(** [callLLM] makes at most [maxRetries] requests for each model it
    tries and tries at most two models, so at most [2 * maxRetries]
    requests in all, at most [maxRetries] when the model asked for is
    the fallback model, and none without an API key.  The count is kept
    beside the world and changes neither the world nor the answer. *)
Theorem callLLM_request_bound :
  forall (World : Type)
         (fetch_completion :
            World -> string -> list Llm.Message -> World * Llm.FetchOutcome)
         (apiKey : option string) (messages : list Llm.Message) (model : string)
         (maxRetries : nat) (w : World) (n : nat),
    let counted :=
      Llm.callLLM (World * nat) (Llm.counted_fetch World fetch_completion)
        apiKey messages model maxRetries (w, n) in
    let plain := Llm.callLLM World fetch_completion apiKey messages model maxRetries w in
    let requests := snd (fst counted) - n in
    fst (fst counted) = fst plain /\ snd counted = snd plain /\
    (n <= snd (fst counted))%nat /\
    (requests <= 2 * maxRetries)%nat /\
    (model = Llm.FALLBACK_MODEL -> requests <= maxRetries)%nat /\
    (Js.truthy apiKey = false ->
     requests = 0%nat /\
     Llm.llm_error (snd plain) = Js.VStr "OPENAI_API_KEY not provided").
Proof.
  intros World fetch apiKey messages model maxRetries w n. cbv zeta.
  destruct (FetchFacts.callLLM_plain World fetch apiKey messages model maxRetries (w, n))
    as [Hw Hr].
  destruct (FetchFacts.callLLM_count World fetch apiKey messages model maxRetries (w, n))
    as [Hb [Hk Hf]].
  cbn [fst snd] in *.
  split; [exact Hw | split; [exact Hr | split; [lia | split; [lia | split]]]].
  - intros E. specialize (Hf E). lia.
  - intros E. rewrite (Hk E). cbn [snd]. split; [lia|].
    unfold Llm.callLLM. rewrite E. reflexivity.
Qed.

Module RetryFacts.

Import Llm.

Section WithEndpoint.

Variable World : Type.
Variable fetch_completion : World -> string -> list Message -> World * FetchOutcome.

#[local] Abbreviation counted := (counted_fetch World fetch_completion).

Lemma counted_outcome (w : World * nat) (model : string) (messages : list Message) :
  counted w model messages
  = ((fst (fetch_completion (fst w) model messages), S (snd w)),
     snd (fetch_completion (fst w) model messages)).
Proof.
  unfold counted_fetch. now destruct (fetch_completion (fst w) model messages).
Qed.

(** An endpoint whose every request is rejected, or rate limited: each
    attempt asks for the next one, and the last one reports the
    exception. *)
Lemma retry_loop_always_thrown (thrown : string) model messages maxRetries :
  (forall w m ms,
      snd (fetch_completion w m ms) = Rejected thrown
      \/ (thrown = BODY_USED /\ exists text, snd (fetch_completion w m ms) = NotOk 429 text)) ->
  forall remaining attempt (w : World * nat),
    (1 <= remaining)%nat -> (attempt + remaining = S maxRetries)%nat ->
    let out := retry_loop (World * nat) counted remaining model messages attempt
                 maxRetries w in
    snd out = failure thrown /\ snd (fst out) = (snd w + remaining)%nat.
Proof.
  intros Hall. induction remaining as [|n IH]; intros attempt w Hr Ha; [lia|].
  cbv zeta. cbn [retry_loop]. unfold attempt_once. rewrite counted_outcome.
  destruct (Nat.eq_dec n 0) as [->|Hn].
  - assert (E : attempt = maxRetries) by lia. subst attempt.
    destruct (Hall (fst w) model messages) as [->|[-> [text ->]]].
    + rewrite Nat.eqb_refl. cbn. split; [reflexivity | lia].
    + change ((429 =? 404)%Z) with false. change ((429 =? 429)%Z) with true.
      cbv iota. rewrite Nat.ltb_irrefl, Nat.eqb_refl. cbn.
      split; [reflexivity | lia].
  - assert (Q1 : (1 <= n)%nat) by lia.
    assert (Q2 : (S attempt + n = S maxRetries)%nat) by lia.
    assert (Hlt : (attempt <? maxRetries)%nat = true) by (apply Nat.ltb_lt; lia).
    assert (Hne : (attempt =? maxRetries)%nat = false) by (apply Nat.eqb_neq; lia).
    destruct (Hall (fst w) model messages) as [->|[-> [text ->]]].
    + rewrite Hne.
      destruct (IH (S attempt)
                  (fst (fetch_completion (fst w) model messages), S (snd w))
                  Q1 Q2) as [H1 H2].
      cbn [fst snd] in *. split; [exact H1 | lia].
    + change ((429 =? 404)%Z) with false. change ((429 =? 429)%Z) with true.
      cbv iota. rewrite Hlt.
      destruct (IH (S attempt)
                  (fst (fetch_completion (fst w) model messages), S (snd w))
                  Q1 Q2) as [H1 H2].
      cbn [fst snd] in *. split; [exact H1 | lia].
Qed.

(** An endpoint that answers the first request of a model with [r]
    without asking for another attempt. *)
Lemma retry_loop_first (r : LlmResult) model messages maxRetries (w : World * nat) :
  (1 <= maxRetries)%nat ->
  snd (attempt_once World fetch_completion model messages 1 maxRetries (fst w)) = inl r ->
  let out := retry_loop (World * nat) counted maxRetries model messages 1
               maxRetries w in
  snd out = r /\ snd (fst out) = S (snd w).
Proof.
  intros Hm Hr. cbv zeta. destruct maxRetries as [|n]; [lia|]. cbn [retry_loop].
  pose proof (FetchFacts.attempt_once_plain World fetch_completion model messages
                1 (S n) w) as [_ Hs].
  pose proof (FetchFacts.attempt_once_count World fetch_completion model messages
                1 (S n) w) as Hc.
  rewrite Hr in Hs.
  destruct (attempt_once (World * nat) counted model messages 1 (S n) w)
    as [w1 o1]. cbn [fst snd] in *. subst o1. cbn. auto.
Qed.

End WithEndpoint.

End RetryFacts.

(** How many requests [callLLM] makes, by what the endpoint keeps
    answering, for an API key and a retry budget of at least one.  A
    request that is rejected is repeated until the budget is used up,
    then the exception is reported, and no other model is tried.  A
    rate limit (429) is repeated in the same way, and what is reported
    at the end is the exception of reading the response body a second
    time, not the rate limit.  Any other HTTP error is reported after
    one request.  A 404 moves on to the fallback model at once: two
    requests, and "All models failed". *)
Theorem callLLM_requests_by_answer :
  forall (World : Type)
         (fetch_completion :
            World -> string -> list Llm.Message -> World * Llm.FetchOutcome)
         (apiKey : option string) (messages : list Llm.Message) (model : string)
         (maxRetries : nat) (w : World) (n : nat),
    let out :=
      Llm.callLLM (World * nat) (Llm.counted_fetch World fetch_completion)
        apiKey messages model maxRetries (w, n) in
    let requests := snd (fst out) - n in
    Js.truthy apiKey = true -> (1 <= maxRetries)%nat ->
    (forall thrown,
        (forall w m ms, snd (fetch_completion w m ms) = Llm.Rejected thrown) ->
        snd out = Llm.failure thrown /\ requests = maxRetries) /\
    (forall text,
        (forall w m ms, snd (fetch_completion w m ms) = Llm.NotOk 429 text) ->
        snd out = Llm.failure Llm.BODY_USED /\ requests = maxRetries) /\
    (forall status text,
        (forall w m ms, snd (fetch_completion w m ms) = Llm.NotOk status text) ->
        status <> 404%Z -> status <> 429%Z ->
        Js.includes text "does not exist" = false ->
        Js.includes text "model_not_found" = false ->
        snd out
        = Llm.failure ("OpenAI API error: " ++ Js.string_of_Z status ++ " - " ++ text)
        /\ requests = 1%nat) /\
    (forall text,
        (forall w m ms, snd (fetch_completion w m ms) = Llm.NotOk 404 text) ->
        model <> Llm.FALLBACK_MODEL ->
        snd out = Llm.failure "All models failed" /\ requests = 2%nat).
Proof.
  intros World fetch apiKey messages model maxRetries w n. cbv zeta.
  intros Hkey Hm. unfold Llm.callLLM. rewrite Hkey. cbn [negb].
  split; [|split; [|split]].
  - intros thrown Hall.
    assert (H : forall models w0,
               models <> [] ->
               let o := Llm.try_models (World * nat)
                          (Llm.counted_fetch World fetch) models messages
                          maxRetries w0 in
               snd o = Llm.failure thrown /\ snd (fst o) = (snd w0 + maxRetries)%nat).
    { intros [|m models] w0 Hne; [contradiction|]. cbv zeta.
      cbn [Llm.try_models]. unfold Llm.tryModel.
      destruct (RetryFacts.retry_loop_always_thrown World fetch thrown m messages
                  maxRetries (fun w m ms => or_introl (Hall w m ms))
                  maxRetries 1 w0 Hm ltac:(lia)) as [H1 H2].
      destruct (Llm.retry_loop (World * nat) (Llm.counted_fetch World fetch)
                  maxRetries m messages 1 maxRetries w0) as [w1 r].
      cbn [fst snd] in *. subst r. cbn. auto. }
    destruct (model =? Llm.FALLBACK_MODEL);
      match goal with
      | |- context [Llm.try_models _ _ ?ms _ _ _] =>
          destruct (H ms (w, n) ltac:(discriminate)) as [H1 H2]
      end; cbn [fst snd] in *; split; [exact H1 | lia | exact H1 | lia].
  - intros text Hall.
    assert (H : forall models w0,
               models <> [] ->
               let o := Llm.try_models (World * nat)
                          (Llm.counted_fetch World fetch) models messages
                          maxRetries w0 in
               snd o = Llm.failure Llm.BODY_USED
               /\ snd (fst o) = (snd w0 + maxRetries)%nat).
    { intros [|m models] w0 Hne; [contradiction|]. cbv zeta.
      cbn [Llm.try_models]. unfold Llm.tryModel.
      destruct (RetryFacts.retry_loop_always_thrown World fetch Llm.BODY_USED m
                  messages maxRetries
                  (fun w m ms =>
                     or_intror (conj eq_refl (ex_intro _ text (Hall w m ms))))
                  maxRetries 1 w0 Hm ltac:(lia)) as [H1 H2].
      destruct (Llm.retry_loop (World * nat) (Llm.counted_fetch World fetch)
                  maxRetries m messages 1 maxRetries w0) as [w1 r].
      cbn [fst snd] in *. subst r. cbn. auto. }
    destruct (model =? Llm.FALLBACK_MODEL);
      match goal with
      | |- context [Llm.try_models _ _ ?ms _ _ _] =>
          destruct (H ms (w, n) ltac:(discriminate)) as [H1 H2]
      end; cbn [fst snd] in *; split; [exact H1 | lia | exact H1 | lia].
  - intros status text Hall H404 H429 Hd Hf.
    assert (Hr : forall m w0,
               snd (Llm.attempt_once World fetch m messages 1 maxRetries w0)
               = inl (Llm.failure ("OpenAI API error: " ++ Js.string_of_Z status
                                   ++ " - " ++ text))).
    { intros m w0. unfold Llm.attempt_once.
      pose proof (Hall w0 m messages) as Ho.
      destruct (fetch w0 m messages) as [w1 o]. cbn [snd] in Ho. subst o.
      destruct (Z.eqb_spec status 404); [contradiction|].
      destruct (Z.eqb_spec status 429); [contradiction|].
      rewrite Hd, Hf. reflexivity. }
    assert (H : forall models w0,
               models <> [] ->
               let o := Llm.try_models (World * nat)
                          (Llm.counted_fetch World fetch) models messages
                          maxRetries w0 in
               snd o = Llm.failure ("OpenAI API error: " ++ Js.string_of_Z status
                                    ++ " - " ++ text)
               /\ snd (fst o) = S (snd w0)).
    { intros [|m models] w0 Hne; [contradiction|]. cbv zeta.
      cbn [Llm.try_models]. unfold Llm.tryModel.
      destruct (RetryFacts.retry_loop_first World fetch _ m messages maxRetries w0
                  Hm (Hr m (fst w0))) as [H1 H2].
      destruct (Llm.retry_loop (World * nat) (Llm.counted_fetch World fetch)
                  maxRetries m messages 1 maxRetries w0) as [w1 r].
      cbn [fst snd] in *. subst r. cbn. auto. }
    destruct (model =? Llm.FALLBACK_MODEL);
      match goal with
      | |- context [Llm.try_models _ _ ?ms _ _ _] =>
          destruct (H ms (w, n) ltac:(discriminate)) as [H1 H2]
      end; cbn [fst snd] in *; split; [exact H1 | lia | exact H1 | lia].
  - intros text Hall Hmodel.
    assert (Hr : forall m w0,
               snd (Llm.attempt_once World fetch m messages 1 maxRetries w0)
               = inl (Llm.mkLlm false Js.VUndefined
                        (Js.VStr ("Model " ++ m ++ " not found")) true)).
    { intros m w0. unfold Llm.attempt_once.
      pose proof (Hall w0 m messages) as Ho.
      destruct (fetch w0 m messages) as [w1 o]. cbn [snd] in Ho. subst o.
      reflexivity. }
    destruct (String.eqb_spec model Llm.FALLBACK_MODEL) as [|_]; [contradiction|].
    cbn [Llm.try_models]. unfold Llm.tryModel.
    destruct (RetryFacts.retry_loop_first World fetch _ model messages maxRetries
                (w, n) Hm (Hr model w)) as [H1 H2].
    destruct (Llm.retry_loop (World * nat) (Llm.counted_fetch World fetch)
                maxRetries model messages 1 maxRetries (w, n)) as [w1 r1].
    cbn [fst snd] in H1, H2. subst r1. cbn [Llm.llm_success Llm.modelNotFound orb negb].
    destruct (RetryFacts.retry_loop_first World fetch _ Llm.FALLBACK_MODEL messages
                maxRetries w1 Hm (Hr Llm.FALLBACK_MODEL (fst w1))) as [H3 H4].
    destruct (Llm.retry_loop (World * nat) (Llm.counted_fetch World fetch)
                maxRetries Llm.FALLBACK_MODEL messages 1 maxRetries w1) as [w2 r2].
    cbn [fst snd] in H3, H4. subst r2. cbn [Llm.llm_success Llm.modelNotFound orb negb].
    cbn [fst snd]. split; [reflexivity | lia].
Qed.

Lemma callLLM_requests_by_answer_witness :
  let fetch := fun (w : unit) (_ : string) (_ : list Llm.Message) =>
                 (w, Llm.NotOk 429 "Rate limit reached, try again in 2s") in
  Js.truthy (Some "sk-key") = true /\ (1 <= 3)%nat /\
  snd (Llm.callLLM (unit * nat) (Llm.counted_fetch unit fetch) (Some "sk-key")
         [Llm.formatGoal "Update the hero title"] "gpt-4o" 3 (tt, 0%nat))
  = Llm.failure Llm.BODY_USED /\
  snd (fst (Llm.callLLM (unit * nat) (Llm.counted_fetch unit fetch) (Some "sk-key")
              [Llm.formatGoal "Update the hero title"] "gpt-4o" 3 (tt, 0%nat))) - 0
  = 3%nat.
Proof.
  intros fetch.
  assert (Hk : Js.truthy (Some "sk-key") = true) by reflexivity.
  assert (Hm : (1 <= 3)%nat) by lia.
  split; [exact Hk | split; [exact Hm|]].
  destruct (callLLM_requests_by_answer unit fetch (Some "sk-key")
              [Llm.formatGoal "Update the hero title"] "gpt-4o" 3 tt 0%nat Hk Hm)
    as [_ [Hlimit _]].
  exact (Hlimit "Rate limit reached, try again in 2s" (fun _ _ _ => eq_refl)).
Defined.

Module RequestFacts.

Import Agent.

Section WithWorld.

Variable World : Type.
Variable fetch_completion :
  World -> string -> list Llm.Message -> World * Llm.FetchOutcome.
Variable call_tool : World -> string -> list Js.value -> World * ToolOutcome.
Variable JSON_stringify : Js.value -> string.
Variable JSON_stringify_pretty : Js.value -> string.
Variable OPENAI_API_KEY : option string.
Variable OPENAI_MODEL : option string.

#[local] Abbreviation counted := (Llm.counted_fetch World fetch_completion).
#[local] Abbreviation tools := (uncounted_tool World call_tool).

Lemma uncounted_tool_count (w : World * nat) (name : string) (argv : list Js.value) :
  snd (fst (tools w name argv)) = snd w.
Proof.
  unfold uncounted_tool. now destruct (call_tool (fst w) name argv).
Qed.

Lemma executeToolWithArgs_count (toolName args : Js.value) (w : World * nat)
    (st : State.t) :
  snd (fst (fst (executeToolWithArgs (World * nat) tools toolName args w st)))
  = snd w.
Proof.
  destruct (DispatchFacts.executeToolWithArgs_call (World * nat) tools toolName
              args w st) as [Hun Hreg]. cbv zeta in Hun, Hreg.
  destruct (Js.property_truthy allTools (Js.to_string toolName)).
  - destruct (Hreg eq_refl) as [[-> _]|[name [argv [_ [_ Hc]]]]]; [reflexivity|].
    pose proof (uncounted_tool_count w name argv) as Hu.
    rewrite <- Hc in Hu. exact Hu.
  - now rewrite (Hun eq_refl).
Qed.

(** One pass makes at most six requests, and counts as one pass and one
    step. *)
Lemma loop_body_requests (l : Loop (World * nat)) :
  let after (l' : Loop (World * nat)) :=
    (snd (world _ l) <= snd (world _ l') <= snd (world _ l) + 6)%nat /\
    passes _ l' = S (passes _ l) /\
    State.count (State.iteration (state _ l'))
    = S (State.count (State.iteration (state _ l))) in
  match loop_body (World * nat) counted tools JSON_stringify JSON_stringify_pretty
          OPENAI_API_KEY OPENAI_MODEL l with
  | inl (_, l') => after l'
  | inr l' => after l'
  end.
Proof.
  cbv zeta. unfold loop_body. cbv zeta.
  pose proof (FetchFacts.callLLM_count World fetch_completion OPENAI_API_KEY
                (messages _ l) (Llm.DEFAULT_MODEL OPENAI_MODEL) 3 (world _ l))
    as [Hreq _]. cbv zeta in Hreq.
  destruct (Llm.callLLM (World * nat) counted OPENAI_API_KEY (messages _ l)
              (Llm.DEFAULT_MODEL OPENAI_MODEL) 3 (world _ l)) as [w1 response].
  cbn [fst snd] in Hreq.
  destruct (negb (Llm.llm_success response)); [cbn; repeat split; lia|].
  destruct (Js.truthy_value (Js.get (Llm.llm_data response) "plan")).
  { destruct (Js.get (Llm.llm_data response) "plan"); cbn; repeat split; lia. }
  destruct (Js.truthy_value (Js.get (Llm.llm_data response) "done"));
    [cbn; repeat split; lia|].
  destruct (negb (Js.truthy_value (Js.get (Llm.llm_data response) "tool")));
    [cbn; repeat split; lia|].
  pose proof (executeToolWithArgs_count
                (Js.get (Llm.llm_data response) "tool")
                (Js.or_value (Js.get (Llm.llm_data response) "args") (Js.VObj []))
                w1 (State.incrementIteration (state _ l))) as Hw.
  destruct (executeToolWithArgs (World * nat) tools
              (Js.get (Llm.llm_data response) "tool")
              (Js.or_value (Js.get (Llm.llm_data response) "args") (Js.VObj []))
              w1 (State.incrementIteration (state _ l)))
    as [[w2 st2] outcome] eqn:Ee.
  pose proof (AgentFacts.executeToolWithArgs_iteration _ _ _ _ _ _ _ _ _ Ee) as Hi.
  cbn [fst snd] in Hw.
  destruct outcome as [toolResult|message]; cbn [world passes state].
  - destruct (Llm.isError toolResult);
      cbn [State.addIterationError State.iteration State.count];
      rewrite Hi; cbn; repeat split; lia.
  - rewrite Hi. cbn. repeat split; lia.
Qed.

End WithWorld.

End RequestFacts.

(** A run makes at most six requests to the endpoint per pass, hence at
    most ninety in all: three attempts for the model asked for and
    three for the fallback model in each of at most fifteen passes.
    The requests are counted beside the world; the tools leave the
    counter alone. *)
Theorem run_request_bound :
  forall (World : Type)
         (fetch_completion :
            World -> string -> list Llm.Message -> World * Llm.FetchOutcome)
         (call_tool : World -> string -> list Js.value -> World * Agent.ToolOutcome)
         (JSON_stringify JSON_stringify_pretty : Js.value -> string)
         (OPENAI_API_KEY OPENAI_MODEL : option string)
         (fuel : nat) (goal : string) (w : World)
         (exit : Agent.Exit) (l' : Agent.Loop (World * nat)),
    Agent.agent_loop (World * nat) (Llm.counted_fetch World fetch_completion)
      (Agent.uncounted_tool World call_tool) JSON_stringify JSON_stringify_pretty
      OPENAI_API_KEY OPENAI_MODEL fuel
      (Agent.initial_loop (World * nat) goal (w, 0)) = Some (exit, l') ->
    let requests := snd (Agent.world (World * nat) l') in
    requests <= 6 * Agent.passes (World * nat) l' /\
    Agent.passes (World * nat) l' <= Agent.MAX_STEPS /\
    requests <= 90.
Proof.
  intros World fetch call_tool js jsp key model fuel goal w exit l' Hrun. cbv zeta.
  assert (H :
    snd (Agent.world _ l') <= 6 * Agent.passes _ l' /\
    State.count (State.iteration (Agent.state _ l')) = Agent.passes _ l' /\
    Agent.passes _ l' <= Agent.MAX_STEPS).
  { refine (LoopFacts.agent_loop_rule (World * nat)
              (Llm.counted_fetch World fetch) (Agent.uncounted_tool World call_tool)
              js jsp key model
              (fun l =>
                 snd (Agent.world _ l) <= 6 * Agent.passes _ l /\
                 State.count (State.iteration (Agent.state _ l)) = Agent.passes _ l /\
                 Agent.passes _ l <= Agent.MAX_STEPS)
              (fun _ l =>
                 snd (Agent.world _ l) <= 6 * Agent.passes _ l /\
                 State.count (State.iteration (Agent.state _ l)) = Agent.passes _ l /\
                 Agent.passes _ l <= Agent.MAX_STEPS)
              _ _ fuel (Agent.initial_loop (World * nat) goal (w, 0)) exit l' _ Hrun).
    - intros l [Hq [Hc Hp]] Hcond.
      apply andb_prop in Hcond. destruct Hcond as [Hlt _].
      apply Nat.ltb_lt in Hlt.
      pose proof (RequestFacts.loop_body_requests World fetch call_tool js jsp
                    key model l) as Hb.
      cbv zeta in Hb.
      destruct (Agent.loop_body (World * nat) (Llm.counted_fetch World fetch)
                  (Agent.uncounted_tool World call_tool) js jsp key model l)
        as [[e l1]|l1]; destruct Hb as [H1 [H2 H3]]; repeat split; lia.
    - intros l Hl _. exact Hl.
    - cbn. repeat split; lia. }
  destruct H as [Hq [_ Hp]].
  split; [exact Hq | split; [exact Hp|]].
  unfold Agent.MAX_STEPS in Hp. lia.
Qed.

Lemma run_request_bound_witness :
  let fetch := fun (w : unit) (model : string) (_ : list Llm.Message) =>
                 (w, Llm.NotOk 404 ("The model " ++ model ++ " is not there")) in
  let call_tool := fun (w : unit) (_ : string) (_ : list Js.value) =>
    (w, Agent.Returned (mkResult true Js.VUndefined Js.VUndefined)) in
  exists l',
    Agent.agent_loop (unit * nat) (Llm.counted_fetch unit fetch)
      (Agent.uncounted_tool unit call_tool) (fun _ => "") (fun _ => "")
      (Some "sk-key") None 16 (Agent.initial_loop (unit * nat) "Check the site" (tt, 0))
    = Some (Agent.ExitLlmFailure, l') /\
    snd (Agent.world (unit * nat) l') = 2 /\
    snd (Agent.world (unit * nat) l') <= 6 * Agent.passes (unit * nat) l'.
Proof.
  intros fetch call_tool.
  assert (Hrun : exists l',
             Agent.agent_loop (unit * nat) (Llm.counted_fetch unit fetch)
               (Agent.uncounted_tool unit call_tool) (fun _ => "") (fun _ => "")
               (Some "sk-key") None 16
               (Agent.initial_loop (unit * nat) "Check the site" (tt, 0))
             = Some (Agent.ExitLlmFailure, l') /\
             snd (Agent.world (unit * nat) l') = 2).
  { eexists. split; vm_compute; reflexivity. }
  destruct Hrun as [l' [Hrun Hcount]]. exists l'.
  split; [exact Hrun | split; [exact Hcount|]].
  exact (proj1 (run_request_bound unit fetch call_tool (fun _ => "") (fun _ => "")
                  (Some "sk-key") None 16 "Check the site" tt
                  Agent.ExitLlmFailure l' Hrun)).
Defined.

(* ================================================================== *)
(** ** The exact set of the command gate                              *)
(* ================================================================== *)

Module GateFacts.

Import Command.

Lemma lower_unit_idempotent (c : ascii) :
  Ascii.eqb (Js.lower_unit (Js.lower_unit c)) (Js.lower_unit c) = true.
Proof.
  destruct c as [[] [] [] [] [] [] [] []]; reflexivity.
Qed.

Lemma toLowerCase_lower (s : string) : lower_case (Js.toLowerCase s).
Proof.
  unfold lower_case. induction s as [|c r IH]; [reflexivity|].
  cbn [Js.toLowerCase list_ascii_of_string forallb].
  now rewrite lower_unit_idempotent, IH.
Qed.

Lemma trimStart_lower (s : string) : lower_case s -> lower_case (Js.trimStart s).
Proof.
  unfold lower_case. induction s as [|c r IH]; intros H; [reflexivity|].
  cbn [Js.trimStart]. destruct (Js.is_space c); [|exact H].
  cbn in H. apply andb_prop in H. now apply IH.
Qed.

Lemma trimEnd_lower (s : string) : lower_case s -> lower_case (Js.trimEnd s).
Proof.
  unfold lower_case. induction s as [|c r IH]; intros H; [reflexivity|].
  cbn in H. apply andb_prop in H. destruct H as [Hc Hr].
  specialize (IH Hr). cbn [Js.trimEnd].
  destruct (Js.trimEnd r) as [|x r'].
  - destruct (Js.is_space c); [reflexivity|]. cbn. now rewrite Hc.
  - cbn [list_ascii_of_string forallb] in *. now rewrite Hc, IH.
Qed.

(** What the gate looks up holds no upper-case letter. *)
Lemma normalize_lower (command : string) : lower_case (normalize command).
Proof.
  unfold normalize, Js.trim.
  apply trimEnd_lower, trimStart_lower, toLowerCase_lower.
Qed.

Lemma lower_prototype_names (name : string) :
  lower_case name -> In name Js.object_prototype_names ->
  name = "constructor" \/ name = "__proto__".
Proof.
  intros Hl Hin. unfold Js.object_prototype_names in Hin. cbn [In] in Hin.
  repeat match type of Hin with
         | _ \/ _ => destruct Hin as [<-|Hin]
         end;
    try (now left); try (now right); try contradiction;
    exfalso; unfold lower_case in Hl; vm_compute in Hl; discriminate Hl.
Qed.

End GateFacts.

(** The gate allows exactly the commands whose lower-cased, trimmed
    form is one of the fifteen names of the allow-list or one of
    [constructor] and [__proto__], the two names an object literal
    inherits that hold no upper-case letter.  No name of the deny-list
    is among them, so the deny-list changes the reason given and never
    the verdict. *)
Theorem isCommandAllowed_exact_set :
  forall command : string,
    (Command.isCommandAllowed command = Command.Allowed
     <-> In (Command.normalize command)
           (Command.allow_list ++ ["constructor"; "__proto__"])%list) /\
    (forall name, In name Command.COMMAND_BLOCKLIST ->
                  Js.property_truthy Command.COMMAND_WHITELIST name = false) /\
    (In (Command.normalize command) Command.COMMAND_BLOCKLIST ->
     Command.allowed (Command.isCommandAllowed command) = false).
Proof.
  intros command.
  assert (Hdis : forall name, In name Command.COMMAND_BLOCKLIST ->
                              Js.property_truthy Command.COMMAND_WHITELIST name = false).
  { intros name Hin. unfold Command.COMMAND_BLOCKLIST in Hin. cbn [In] in Hin.
    repeat match type of Hin with
           | _ \/ _ => destruct Hin as [<-|Hin]
           end; try reflexivity; contradiction. }
  split; [|split; [exact Hdis|]].
  - rewrite CommandFacts.isCommandAllowed_allowed_iff. split.
    + intros [_ [Ha|Hp]]; apply in_or_app; [now left | right].
      destruct (GateFacts.lower_prototype_names _ (GateFacts.normalize_lower command) Hp)
        as [->| ->]; cbn; auto.
    + intros Hin. apply in_app_or in Hin.
      assert (Ht : Js.property_truthy Command.COMMAND_WHITELIST
                     (Command.normalize command) = true).
      { destruct Hin as [Ha|Hp].
        - unfold Command.allow_list, Command.COMMAND_WHITELIST in Ha.
          cbn [map fst In] in Ha.
          repeat match type of Ha with
                 | _ \/ _ => destruct Ha as [<-|Ha]
                 end; try reflexivity; contradiction.
        - cbn [In] in Hp. destruct Hp as [<-|[<-|[]]]; reflexivity. }
      split.
      * intros Hb. apply Hdis in Hb. congruence.
      * destruct Hin as [Ha|Hp]; [now left | right].
        cbn [In] in Hp. destruct Hp as [<-|[<-|[]]]; cbn; auto 12.
  - intros Hb. unfold Command.isCommandAllowed. cbv zeta.
    assert (E : Js.array_includes Command.COMMAND_BLOCKLIST (Command.normalize command)
                = true).
    { destruct (Js.array_includes Command.COMMAND_BLOCKLIST (Command.normalize command))
        eqn:E; [reflexivity|].
      apply CommandFacts.array_includes_false in E. contradiction. }
    now rewrite E.
Qed.

(* ================================================================== *)
(** ** The git record: pushed implies committed                       *)
(* ================================================================== *)

Module GitRecordFacts.

Lemma update_state_pushed (toolName args : Js.value) (result : ToolResult)
    (st : State.t) :
  (State.pushed (State.git st) = true -> State.committed (State.git st) = true) ->
  State.pushed (State.git (Agent.update_state toolName args result st)) = true ->
  State.committed (State.git (Agent.update_state toolName args result st)) = true.
Proof.
  unfold Agent.update_state, Js.strict_eq_str.
  destruct toolName as [| |b|n|name|items|fields]; try (cbn; tauto).
  destruct (String.eqb_spec name "run_build") as [->|]; [cbn; tauto|].
  destruct (String.eqb_spec name "start_dev_server") as [->|];
    [destruct (success result); cbn; tauto|].
  destruct (String.eqb_spec name "stop_dev_server") as [->|]; [cbn; tauto|].
  destruct (String.eqb_spec name "check_dev_server") as [->|]; [cbn; tauto|].
  destruct (String.eqb_spec name "git_commit") as [->|];
    [destruct (success result); cbn; tauto|].
  destruct (String.eqb_spec name "git_push") as [->|];
    [destruct (success result); cbn; tauto|].
  destruct (String.eqb_spec name "git_create_pr") as [->|];
    [destruct (success result); cbn; tauto|].
  cbn. tauto.
Qed.

End GitRecordFacts.

(** In every state the updates after tool calls can produce from the
    initial state, a pushed record is a committed one.  So the two
    summaries of the git record, the [git] entry of [getSummary] and
    the [Git:] line [main] prints, which test the two flags in opposite
    order, always say the same. *)
Theorem pushed_implies_committed :
  forall calls : list Agent.Invocation,
    let st := Agent.run_updates State.initialState calls in
    (State.pushed (State.git st) = true -> State.committed (State.git st) = true) /\
    State.summary_git st = Agent.final_git_line st.
Proof.
  intros calls. cbv zeta.
  assert (H : forall st,
             (State.pushed (State.git st) = true ->
              State.committed (State.git st) = true) ->
             State.pushed (State.git (Agent.run_updates st calls)) = true ->
             State.committed (State.git (Agent.run_updates st calls)) = true).
  { induction calls as [|c calls IH]; intros st Hst; [exact Hst|].
    change (Agent.run_updates st (c :: calls))
      with (Agent.run_updates
              (Agent.update_state (Agent.inv_tool c) (Agent.inv_args c)
                 (Agent.inv_result c) st) calls).
    apply IH. now apply GitRecordFacts.update_state_pushed. }
  specialize (H State.initialState ltac:(discriminate)).
  split; [exact H|].
  unfold State.summary_git, Agent.final_git_line.
  destruct (State.pushed (State.git (Agent.run_updates State.initialState calls)));
    [rewrite (H eq_refl); reflexivity|].
  reflexivity.
Qed.

(* ================================================================== *)
(** ** Accepted paths are fixed points of [safePath]                  *)
(* ================================================================== *)

Module FixedPointFacts.

Import StringFacts PathFacts Filesystem.

Lemma free_of_cons (c x : ascii) (s : string) :
  Git.free_of c (String x s) <-> Ascii.eqb x c = false /\ Git.free_of c s.
Proof.
  unfold Git.free_of. cbn [list_ascii_of_string forallb].
  rewrite andb_true_iff, negb_true_iff. tauto.
Qed.

Lemma free_of_append (c : ascii) (a b : string) :
  Git.free_of c (a ++ b) <-> Git.free_of c a /\ Git.free_of c b.
Proof.
  induction a as [|x a IH]; cbn [append].
  - split; [intros H; split; [reflexivity | exact H] | tauto].
  - rewrite !free_of_cons, IH. tauto.
Qed.

Lemma split_free_pieces (c : ascii) (s : string) :
  Git.free_of c s -> Forall (Git.free_of c) (Js.split "/" s).
Proof.
  induction s as [|x s IH]; intros H.
  - repeat constructor.
  - apply free_of_cons in H. destruct H as [Hx Hs]. specialize (IH Hs).
    rewrite PlainPathFacts.split_cons.
    destruct (Ascii.eqb x "/").
    + constructor; [reflexivity | exact IH].
    + destruct (Js.split "/" s) as [|h t].
      * constructor; [|constructor]. apply free_of_cons. split; [exact Hx | reflexivity].
      * inversion IH as [|? ? Hh Ht]; subst.
        constructor; [|exact Ht]. apply free_of_cons. auto.
Qed.

Lemma normalize_step_free (c : ascii) (allow : bool) (stack : list string)
    (seg : string) :
  Ascii.eqb "." c = false ->
  Forall (Git.free_of c) stack -> Git.free_of c seg ->
  Forall (Git.free_of c) (Path.normalize_step allow stack seg).
Proof.
  intros Hdot Hstack Hseg. unfold Path.normalize_step.
  assert (Hdots : Git.free_of c "..").
  { apply free_of_cons. split; [exact Hdot|].
    apply free_of_cons. split; [exact Hdot | reflexivity]. }
  destruct ((seg =? "") || (seg =? ".")); [exact Hstack|].
  destruct (seg =? "..").
  - destruct stack as [|top rest].
    + destruct allow; repeat constructor. exact Hdots.
    + inversion Hstack; subst.
      destruct (top =? ".."); [destruct allow|]; auto.
  - now constructor.
Qed.

Lemma fold_normalize_free (c : ascii) (allow : bool) (segs stack : list string) :
  Ascii.eqb "." c = false ->
  Forall (Git.free_of c) stack -> Forall (Git.free_of c) segs ->
  Forall (Git.free_of c) (fold_left (Path.normalize_step allow) segs stack).
Proof.
  intros Hdot. revert stack. induction segs as [|s segs IH]; intros stack Hs Hsegs;
    [exact Hs|].
  inversion Hsegs; subst. cbn [fold_left]. apply IH; [|assumption].
  now apply normalize_step_free.
Qed.

Lemma concat_free (c : ascii) (segs : list string) :
  Ascii.eqb "/" c = false ->
  Forall (Git.free_of c) segs -> Git.free_of c (String.concat "/" segs).
Proof.
  intros Hsep. induction segs as [|s segs IH]; intros H; [reflexivity|].
  inversion H as [|? ? Hs Hrest]; subst.
  destruct segs as [|y l]; [exact Hs|].
  rewrite PlainPathFacts.concat_cons2. apply free_of_append. split; [exact Hs|].
  apply free_of_append. split; [|now apply IH].
  apply free_of_cons. split; [exact Hsep | reflexivity].
Qed.

Lemma resolve_args_free (c : ascii) (rev_args : list string) :
  Ascii.eqb "/" c = false ->
  Forall (Git.free_of c) rev_args ->
  forall acc b, Git.free_of c acc ->
                Git.free_of c (fst (Path.resolve_args rev_args acc b)).
Proof.
  intros Hsep. induction rev_args as [|p rest IH]; intros Hall acc b Hacc.
  - cbn. destruct b; exact Hacc.
  - inversion Hall as [|? ? Hp Hrest]; subst. cbn [Path.resolve_args].
    destruct b; [exact Hacc|].
    destruct (p =? ""); [now apply IH|].
    apply IH; [exact Hrest|].
    apply free_of_append. split; [exact Hp|].
    apply free_of_append. split; [|exact Hacc].
    apply free_of_cons. split; [exact Hsep | reflexivity].
Qed.

(** A character other than the separator and the dot that is in none
    of the arguments is not in the resolved path. *)
Lemma resolve_free (c : ascii) (cwd : string) (args : list string) :
  Ascii.eqb "/" c = false -> Ascii.eqb "." c = false ->
  Git.free_of c cwd -> Forall (Git.free_of c) args ->
  Git.free_of c (Path.resolve cwd args).
Proof.
  intros Hsep Hdot Hcwd Hargs. unfold Path.resolve.
  pose proof (resolve_args_free c (rev args ++ [cwd])%list Hsep) as Hr.
  specialize (Hr ltac:(apply Forall_app; split;
                       [now apply Forall_rev | now constructor]) "" false eq_refl).
  destruct (Path.resolve_args (rev args ++ [cwd])%list "" false) as [rp ra].
  cbn [fst] in Hr.
  assert (Hn : Git.free_of c (Path.normalizeString rp (negb ra))).
  { unfold Path.normalizeString, Path.normalize_segments.
    apply concat_free; [exact Hsep|]. apply Forall_rev.
    apply fold_normalize_free; [exact Hdot | constructor|].
    now apply split_free_pieces. }
  destruct ra.
  - apply free_of_append. split; [|exact Hn].
    apply free_of_cons. split; [exact Hsep | reflexivity].
  - destruct (Path.normalizeString rp (negb false) =? ""); [|exact Hn].
    apply free_of_cons. split; [exact Hdot | reflexivity].
Qed.

(** Resolving a resolved path again, behind any other argument, gives
    it back. *)
Lemma resolve_resolved (cwd other : string) (args : list string) :
  Path.isAbsolute cwd = true ->
  Path.resolve cwd [other; Path.resolve cwd args] = Path.resolve cwd args.
Proof.
  intros Hcwd.
  destruct (PlainPathFacts.resolve_normal_form cwd args Hcwd) as [segs [Hn Hr]].
  rewrite Hr. unfold Path.resolve.
  set (r := "/" ++ String.concat "/" segs).
  change (rev [other; r] ++ [cwd])%list with [r; other; cwd].
  assert (Ha : Path.resolve_args [r; other; cwd] "" false = (r ++ "/" ++ "", true)).
  { cbn [Path.resolve_args]. subst r.
    change ("/" ++ String.concat "/" segs) with (String "/" (String.concat "/" segs)).
    cbn [String.eqb]. rewrite PlainPathFacts.isAbsolute_sep. reflexivity. }
  rewrite Ha. cbn [negb]. unfold Path.normalizeString.
  rewrite (PlainPathFacts.split_app_sep r "").
  subst r.
  change ("/" ++ String.concat "/" segs) with ("" ++ "/" ++ String.concat "/" segs)
    at 1.
  rewrite (PlainPathFacts.split_app_sep "" (String.concat "/" segs)).
  assert (Hs : Js.split "/" (String.concat "/" segs)
               = match segs with [] => [""] | _ => segs end).
  { destruct segs as [|s l]; [reflexivity|].
    apply PlainPathFacts.split_concat; [exact Hn | discriminate]. }
  rewrite Hs.
  pose proof (PlainPathFacts.normalize_root_then_plain segs [] Hn (Forall_nil _)) as Hp.
  change (Js.split "/" "") with [""].
  rewrite app_nil_r in Hp. cbn [app] in Hp. cbn [app].
  rewrite Hp. reflexivity.
Qed.

Lemma suspicious_loop_under_root (cwd root inputPath : string)
    (patterns : list (string -> bool)) :
  Js.startsWith inputPath root = true ->
  suspicious_loop cwd root inputPath patterns = false.
Proof.
  intros Hs. induction patterns as [|pattern rest IH]; [reflexivity|].
  cbn [suspicious_loop]. rewrite Hs. cbn [negb]. rewrite andb_false_r. exact IH.
Qed.

End FixedPointFacts.

(** A path [safePath] accepts is a fixed point: given back to
    [safePath] it is accepted again and resolves to itself, so the
    [path] a file tool returns can be passed to the next one.  The root
    is any value [initialize] can store; the working directory is
    absolute, and neither it nor the root given holds a null byte. *)
Theorem safePath_accepted_path_is_a_fixed_point :
  forall cwd root0 inputPath resolved : string,
    Path.isAbsolute cwd = true ->
    Js.includes cwd Js.NUL = false ->
    Js.includes root0 Js.NUL = false ->
    Filesystem.safePath cwd (Filesystem.initialize cwd root0) inputPath
    = Filesystem.Valid resolved ->
    Filesystem.safePath cwd (Filesystem.initialize cwd root0) resolved
    = Filesystem.Valid resolved /\
    Path.resolve cwd [Filesystem.initialize cwd root0; resolved] = resolved.
Proof.
  intros cwd root0 inputPath resolved Hcwd Hcn Hrn Hv.
  set (root := Filesystem.initialize cwd root0) in *.
  destruct (FilesystemFacts.safePath_valid_inv _ _ _ _ Hv) as [Hres [Hnul Hcheck]].
  destruct (FilesystemFacts.safePath_accepts_confined _ _ _ _ Hcwd Hv) as [_ Hconf].
  assert (Hfix : Path.resolve cwd [root; resolved] = resolved).
  { rewrite Hres. apply FixedPointFacts.resolve_resolved. exact Hcwd. }
  split; [|exact Hfix].
  assert (Hfree : forall s, Js.includes s Js.NUL = false -> Git.free_of Ascii.zero s).
  { intros s H. now apply GitReadFacts.free_of_includes. }
  assert (Hroot : Git.free_of Ascii.zero root).
  { unfold root, Filesystem.initialize.
    apply FixedPointFacts.resolve_free; try reflexivity; auto. }
  assert (Hrfree : Js.includes resolved Js.NUL = false).
  { apply GitReadFacts.free_of_includes. rewrite Hres.
    apply FixedPointFacts.resolve_free; try reflexivity; auto. }
  assert (Hstart : Js.startsWith resolved root = true).
  { unfold Js.startsWith. apply StringFacts.prefix_exists.
    destruct Hconf as [->|[rest [-> _]]];
      [exists ""; now rewrite StringFacts.app_empty_r | now exists rest]. }
  unfold Filesystem.safePath. fold root. rewrite Hrfree.
  rewrite (FixedPointFacts.suspicious_loop_under_root cwd root resolved _ Hstart).
  cbv zeta. rewrite Hfix. unfold Path.sep.
  destruct Hcheck as [He|Hs]; [rewrite He; reflexivity|].
  rewrite Hs. cbn [negb]. rewrite andb_false_r. reflexivity.
Qed.

Lemma safePath_accepted_path_is_a_fixed_point_witness :
  Path.isAbsolute "/vercel/sandbox" = true /\
  Js.includes "/vercel/sandbox" Js.NUL = false /\
  Filesystem.safePath "/vercel/sandbox"
    (Filesystem.initialize "/vercel/sandbox" "/vercel/sandbox") "src/./lib/../a.ts"
  = Filesystem.Valid "/vercel/sandbox/src/a.ts" /\
  Filesystem.safePath "/vercel/sandbox"
    (Filesystem.initialize "/vercel/sandbox" "/vercel/sandbox")
    "/vercel/sandbox/src/a.ts"
  = Filesystem.Valid "/vercel/sandbox/src/a.ts".
Proof.
  assert (Hcwd : Path.isAbsolute "/vercel/sandbox" = true) by reflexivity.
  assert (Hn : Js.includes "/vercel/sandbox" Js.NUL = false) by reflexivity.
  assert (Hv : Filesystem.safePath "/vercel/sandbox"
                 (Filesystem.initialize "/vercel/sandbox" "/vercel/sandbox")
                 "src/./lib/../a.ts"
               = Filesystem.Valid "/vercel/sandbox/src/a.ts") by reflexivity.
  split; [exact Hcwd | split; [exact Hn | split; [exact Hv|]]].
  exact (proj1 (safePath_accepted_path_is_a_fixed_point "/vercel/sandbox"
                  "/vercel/sandbox" "src/./lib/../a.ts" "/vercel/sandbox/src/a.ts"
                  Hcwd Hn Hn Hv)).
Defined.

(* ================================================================== *)
(** ** The token in the remote URL                                    *)
(* ================================================================== *)

Module TokenFacts.

Lemma substring_all (s : string) : String.substring 0 (String.length s) s = s.
Proof. induction s as [|c s IH]; [reflexivity|]. cbn. now rewrite IH. Qed.

(** [replace] of the leading [https://github.com/] by the empty text
    leaves what followed it. *)
Lemma strip_github_app (rest : string) :
  Git.strip_github ("https://github.com/" ++ rest) = rest.
Proof.
  unfold Git.strip_github. cbn. rewrite Nat.sub_0_r. apply substring_all.
Qed.

End TokenFacts.


